(** * Science n-grams front end: query and comparison-session consistency

    A shallow embedding of the client-side state logic of the
    Science-n-grams analysis app (React/TypeScript):

    - [Normalize]: [frontend/src/utils/normalize.ts];
    - [BinaryVotingPage]: the pairwise comparison session, its page-local
      normaliser and its persistence in [localStorage];
    - [FrequencyDashboardPage]: the leaderboard query controller with its
      stale-response guard;
    - [BurstPage]: the sort handler of the burst leaderboard;
    - [NgramFilterPanel]: the domain / field / subfield filter and its
      ambiguity sub-state.

    Conventions.  A JavaScript [number] that holds a series value is a
    rational [Q] (payloads arrive as JSON, which carries finite numbers
    only; rounding of doubles is not modelled).  Identifiers, indices and
    counters are integers.  A number that may be [NaN] (the result of
    [parseInt]) is a [jsint].  React state is a record, a handler is a
    function from the state before to the state after, network calls are
    collected as a list of requests, and the outcome of an awaited call is an
    argument of the handler. *)

From Stdlib Require Import ZArith QArith Qminmax Lia Lra Bool List String Ascii.
From stdpp Require Import gmap strings list fin_maps sorting.
Import ListNotations.

Local Open Scope Z_scope.

(** ** utils/normalize.ts *)

Module Normalize.

Record XY := mkXY { date : string; count : Q }.

Definition safeDiv (a b : Q) : Q :=
  if Qeq_bool b 0 then 0%Q else (a / b)%Q.

(** [Math.max(0, ...series.map(p => p.count))] *)
Definition maxCount (series : list XY) : Q :=
  fold_left Qmax (map count series) 0%Q.

Definition withCount (p : XY) (c : Q) : XY :=
  {| date := date p; count := c |}.

Definition normalizePerSeries (series : list XY) : list XY :=
  let max := maxCount series in
  map (fun p => withCount p (safeDiv (count p) max)) series.

Definition maxBoth (left right : list XY) : Q :=
  let maxL := maxCount left in
  let maxR := maxCount right in
  Qmax (Qmax maxL maxR) 0%Q.

Definition normalizePair (left right : list XY) : list XY * list XY :=
  let maxBoth := maxBoth left right in
  (map (fun p => withCount p (safeDiv (count p) maxBoth)) left,
   map (fun p => withCount p (safeDiv (count p) maxBoth)) right).

(** What the pages expect of a normalised series. *)
Definition inUnit (p : XY) : Prop := (0 <= count p <= 1)%Q.
Definition nonNegative (series : list XY) : Prop :=
  Forall (fun p => (0 <= count p)%Q) series.
Definition allZero (series : list XY) : Prop :=
  Forall (fun p => (count p == 0)%Q) series.
Definition exactlyZero (series : list XY) : Prop :=
  Forall (fun p => count p = 0%Q) series.
(** Two series with the same dates and the same numbers. *)
Definition sameSeries (a b : list XY) : Prop :=
  Forall2 (fun p q => date p = date q /\ (count p == count q)%Q) a b.

End Normalize.

(** ** JavaScript values used by the pages *)

(** An integer-valued [number] that may be [NaN]: the cursor [pos] of the
    voting page, which is read back with [parseInt]. *)
Inductive jsint := NaN | Int (z : Z).

Definition jsAdd1 (x : jsint) : jsint :=
  match x with NaN => NaN | Int z => Int (z + 1) end.

Definition jsSub1 (x : jsint) : jsint :=
  match x with NaN => NaN | Int z => Int (z - 1) end.

(** [Math.min(a, b)]: [NaN] if either argument is. *)
Definition jsMin (a b : jsint) : jsint :=
  match a, b with
  | Int x, Int y => Int (Z.min x y)
  | _, _ => NaN
  end.

(** [a > b], [a >= b] and [a === b] are all false on [NaN]. *)
Definition jsGt (a b : jsint) : bool :=
  match a, b with Int x, Int y => y <? x | _, _ => false end.

Definition jsGe (a b : jsint) : bool :=
  match a, b with Int x, Int y => y <=? x | _, _ => false end.

Definition jsEq (a b : jsint) : bool :=
  match a, b with Int x, Int y => x =? y | _, _ => false end.

(** [arr[i]]: [undefined] unless [i] is an index of the array. *)
Definition jsIndex {A} (arr : list A) (i : jsint) : option A :=
  match i with
  | Int z => if z <? 0 then None else arr !! Z.to_nat z
  | NaN => None
  end.

(** [arr.length] as a number. *)
Definition jsLength {A} (arr : list A) : jsint := Int (Z.of_nat (length arr)).

(** [arr.slice(0, e)]: [NaN] counts as 0 and a negative end counts from the
    end of the array. *)
Definition sliceTo {A} (arr : list A) (e : jsint) : list A :=
  match e with
  | NaN => []
  | Int z =>
      if z <? 0 then take (Z.to_nat (Z.of_nat (length arr) + z)) arr
      else take (Z.to_nat z) arr
  end.

(** *** Decimal text of integers: [toString] and [parseInt(s, 10)] *)

Definition digitChar (d : Z) : ascii := ascii_of_nat (48 + Z.to_nat d).

Fixpoint digitsOf (fuel : nat) (n : Z) (acc : string) : string :=
  match fuel with
  | O => acc
  | S fuel' =>
      let acc' := String (digitChar (n mod 10)) acc in
      if n <? 10 then acc' else digitsOf fuel' (n / 10) acc'
  end.

Definition natToString (n : Z) : string :=
  digitsOf (S (Z.to_nat (Z.log2 n))) n EmptyString.

Definition intToString (z : Z) : string :=
  if z <? 0 then String "-" (natToString (- z)) else natToString z.

(** [x.toString()] and the text of [x] in a template literal. *)
Definition toString (x : jsint) : string :=
  match x with NaN => "NaN"%string | Int z => intToString z end.

Definition digitVal (c : ascii) : option Z :=
  let n := nat_of_ascii c in
  if ((48 <=? n) && (n <=? 57))%nat then Some (Z.of_nat (n - 48)) else None.

(** The longest prefix of decimal digits; [None] when there is none. *)
Fixpoint parseDigits (s : string) (acc : option Z) : option Z :=
  match s with
  | String c rest =>
      match digitVal c with
      | Some d => parseDigits rest (Some (10 * default 0 acc + d))
      | None => acc
      end
  | EmptyString => acc
  end.

(** White space of the ASCII range (tab, line feed, vertical tab, form feed,
    carriage return, space). *)
Definition isWhiteSpace (c : ascii) : bool :=
  let n := nat_of_ascii c in
  (((9 <=? n) && (n <=? 13)) || (n =? 32))%nat.

Fixpoint trimStart (s : string) : string :=
  match s with
  | String c rest => if isWhiteSpace c then trimStart rest else s
  | EmptyString => s
  end.

(** [parseInt(s, 10)]: leading white space is skipped, one sign is read, then
    the longest run of digits; anything after it is ignored.  [NaN] when no
    digit is found.  The value is kept exact. *)
Definition parseInt (s : string) : jsint :=
  match trimStart s with
  | String "-" rest =>
      match parseDigits rest None with Some n => Int (- n) | None => NaN end
  | String "+" rest =>
      match parseDigits rest None with Some n => Int n | None => NaN end
  | t => match parseDigits t None with Some n => Int n | None => NaN end
  end.

(** *** JSON values *)

#[warnings="-register-all"]
Inductive json :=
| JNull
| JBool (b : bool)
| JNum (q : Q)
| JStr (s : string)
| JArr (items : list json)
| JObj (props : list (string * json)).

(** [obj[key]] on the properties of an object. *)
Fixpoint getProp (key : string) (props : list (string * json)) : option json :=
  match props with
  | [] => None
  | (k, v) :: rest => if String.eqb k key then Some v else getProp key rest
  end.

Definition jsonInt (z : Z) : json := JNum (inject_Z z).

Definition asInt (v : json) : option Z :=
  match v with
  | JNum q => if (Qden q =? 1)%positive then Some (Qnum q) else None
  | _ => None
  end.

(** The browser services the pages rely on.  [JSON_parse] returns [None] when
    [JSON.parse] throws a [SyntaxError]; [setItem_ok k v] is false when
    [localStorage.setItem(k, v)] throws (quota exceeded). *)
Record Platform := {
  JSON_stringify : json -> string;
  JSON_parse : string -> option json;
  setItem_ok : string -> string -> bool
}.

(** ** pages/BinaryVotingPage.tsx *)

Module BinaryVotingPage.
Import Normalize.

Definition safeDiv (a b : Q) : Q :=
  if Qeq_bool b 0 then 0%Q else (a / b)%Q.

(** The page's own [normalizePair]: a zero maximum is replaced by 1
    ([Math.max(maxL, maxR, 0) || 1]). *)
Definition normalizePair (left right : list XY) : list XY * list XY :=
  let maxL := maxCount left in
  let maxR := maxCount right in
  let m := Qmax (Qmax maxL maxR) 0%Q in
  let maxBoth := if Qeq_bool m 0 then 1%Q else m in
  (map (fun p => withCount p (safeDiv (count p) maxBoth)) left,
   map (fun p => withCount p (safeDiv (count p) maxBoth)) right).

Record StoredUser := { user_id : Z; username : string }.

Inductive Choice := ChoiceLeft | ChoiceRight.

Definition Choice_eqb (a b : Choice) : bool :=
  match a, b with
  | ChoiceLeft, ChoiceLeft | ChoiceRight, ChoiceRight => true
  | _, _ => false
  end.

(** [leftData]/[rightData] are [XY[] | null] ([None] is [null]); the optional
    properties [leftNorm], [rightNorm] and [choice] are [None] when
    [undefined]. *)
Record PairEntry := {
  index : Z;
  total : Z;
  left_id : Z;
  right_id : Z;
  leftData : option (list XY);
  rightData : option (list XY);
  leftNorm : option (list XY);
  rightNorm : option (list XY);
  choice : option Choice
}.

(** [{ ...e, choice: c }] *)
Definition withChoice (e : PairEntry) (c : option Choice) : PairEntry :=
  {| index := index e; total := total e;
     left_id := left_id e; right_id := right_id e;
     leftData := leftData e; rightData := rightData e;
     leftNorm := leftNorm e; rightNorm := rightNorm e;
     choice := c |}.

(** *** The history as a JSON value

    [jsonOfHistory] is the value [JSON.stringify] sees: a property holding
    [undefined] is left out.  [historyOfJson] is the typed view of a parsed
    value; it is [None] when the value is not an array of pair entries. *)

Definition jsonOfXY (p : XY) : json :=
  JObj [("date"%string, JStr (date p)); ("count"%string, JNum (count p))].

Definition jsonOfSeries (series : list XY) : json :=
  JArr (map jsonOfXY series).

Definition jsonOfNullable (series : option (list XY)) : json :=
  match series with Some l => jsonOfSeries l | None => JNull end.

Definition jsonOfChoice (c : Choice) : json :=
  JStr (match c with ChoiceLeft => "left" | ChoiceRight => "right" end).

Definition optProp (key : string) (v : option json) : list (string * json) :=
  match v with Some j => [(key, j)] | None => [] end.

Definition jsonOfEntry (e : PairEntry) : json :=
  JObj ([("index"%string, jsonInt (index e));
         ("total"%string, jsonInt (total e));
         ("left_id"%string, jsonInt (left_id e));
         ("right_id"%string, jsonInt (right_id e));
         ("leftData"%string, jsonOfNullable (leftData e));
         ("rightData"%string, jsonOfNullable (rightData e))]
        ++ optProp "leftNorm" (jsonOfSeries <$> leftNorm e)
        ++ optProp "rightNorm" (jsonOfSeries <$> rightNorm e)
        ++ optProp "choice" (jsonOfChoice <$> choice e)).

Definition jsonOfHistory (h : list PairEntry) : json :=
  JArr (map jsonOfEntry h).

Definition xyOfJson (v : json) : option XY :=
  match v with
  | JObj props =>
      match getProp "date" props, getProp "count" props with
      | Some (JStr d), Some (JNum c) => Some (mkXY d c)
      | _, _ => None
      end
  | _ => None
  end.

Definition seriesOfJson (v : json) : option (list XY) :=
  match v with
  | JArr items => mapM xyOfJson items
  | _ => None
  end.

Definition nullableOfJson (v : option json) : option (option (list XY)) :=
  match v with
  | Some JNull => Some None
  | Some j => Some <$> seriesOfJson j
  | None => None
  end.

Definition optionalOfJson (v : option json) : option (option (list XY)) :=
  match v with
  | Some j => Some <$> seriesOfJson j
  | None => Some None
  end.

Definition choiceOfJson (v : option json) : option (option Choice) :=
  match v with
  | None => Some None
  | Some (JStr s) =>
      if String.eqb s "left" then Some (Some ChoiceLeft)
      else if String.eqb s "right" then Some (Some ChoiceRight)
      else None
  | Some _ => None
  end.

Definition entryOfJson (v : json) : option PairEntry :=
  match v with
  | JObj props =>
      i ← getProp "index" props ≫= asInt;
      t ← getProp "total" props ≫= asInt;
      l ← getProp "left_id" props ≫= asInt;
      r ← getProp "right_id" props ≫= asInt;
      ld ← nullableOfJson (getProp "leftData" props);
      rd ← nullableOfJson (getProp "rightData" props);
      ln ← optionalOfJson (getProp "leftNorm" props);
      rn ← optionalOfJson (getProp "rightNorm" props);
      c ← choiceOfJson (getProp "choice" props);
      Some {| index := i; total := t; left_id := l; right_id := r;
              leftData := ld; rightData := rd;
              leftNorm := ln; rightNorm := rn; choice := c |}
  | _ => None
  end.

Definition historyOfJson (items : list json) : option (list PairEntry) :=
  mapM entryOfJson items.

(** *** The page: component state, the user and [localStorage] *)

Record Page := {
  user : option StoredUser;
  history : list PairEntry;
  pos : jsint;
  done : bool;
  loading : bool;
  historyLoaded : bool;
  rtStartRef : Z;
  localStorage : gmap string string
}.

(** The component as first rendered: the [useState] defaults. *)
Definition mount (u : option StoredUser) (storage : gmap string string) : Page :=
  {| user := u; history := []; pos := Int (-1); done := false;
     loading := false; historyLoaded := false; rtStartRef := 0;
     localStorage := storage |}.

Definition setHistory (h : list PairEntry) (w : Page) : Page :=
  {| user := user w; history := h; pos := pos w; done := done w;
     loading := loading w; historyLoaded := historyLoaded w;
     rtStartRef := rtStartRef w; localStorage := localStorage w |}.

Definition setPos (p : jsint) (w : Page) : Page :=
  {| user := user w; history := history w; pos := p; done := done w;
     loading := loading w; historyLoaded := historyLoaded w;
     rtStartRef := rtStartRef w; localStorage := localStorage w |}.

Definition setDone (b : bool) (w : Page) : Page :=
  {| user := user w; history := history w; pos := pos w; done := b;
     loading := loading w; historyLoaded := historyLoaded w;
     rtStartRef := rtStartRef w; localStorage := localStorage w |}.

Definition setLoading (b : bool) (w : Page) : Page :=
  {| user := user w; history := history w; pos := pos w; done := done w;
     loading := b; historyLoaded := historyLoaded w;
     rtStartRef := rtStartRef w; localStorage := localStorage w |}.

Definition setHistoryLoaded (b : bool) (w : Page) : Page :=
  {| user := user w; history := history w; pos := pos w; done := done w;
     loading := loading w; historyLoaded := b;
     rtStartRef := rtStartRef w; localStorage := localStorage w |}.

Definition setRtStart (t : Z) (w : Page) : Page :=
  {| user := user w; history := history w; pos := pos w; done := done w;
     loading := loading w; historyLoaded := historyLoaded w;
     rtStartRef := t; localStorage := localStorage w |}.

Definition setStorage (st : gmap string string) (w : Page) : Page :=
  {| user := user w; history := history w; pos := pos w; done := done w;
     loading := loading w; historyLoaded := historyLoaded w;
     rtStartRef := rtStartRef w; localStorage := st |}.

(** [try { localStorage.setItem(key, value) } catch { console.error }] *)
Definition setItem (P : Platform) (key value : string)
    (st : gmap string string) : gmap string string :=
  if setItem_ok P key value then <[key := value]> st else st.

Definition getHistoryKey (u : option StoredUser) : option string :=
  match u with
  | Some u => Some ("history_" ++ intToString (user_id u))%string
  | None => None
  end.

Definition getPositionKey (u : option StoredUser) : option string :=
  match u with
  | Some u => Some ("position_" ++ intToString (user_id u))%string
  | None => None
  end.

Definition saveHistoryToLocalStorage (P : Platform)
    (currentHistory : list PairEntry) (w : Page) : Page :=
  match getHistoryKey (user w) with
  | Some key =>
      setStorage
        (setItem P key (JSON_stringify P (jsonOfHistory currentHistory))
           (localStorage w)) w
  | None => w
  end.

(** A value that is [null] or the empty string is falsy. *)
Definition truthy (v : option string) : option string :=
  match v with
  | Some EmptyString => None
  | other => other
  end.

Definition loadHistoryFromLocalStorage (P : Platform) (w : Page) : json :=
  match getHistoryKey (user w) with
  | None => JArr []
  | Some key =>
      match truthy (localStorage w !! key) with
      | Some storedHistory =>
          match JSON_parse P storedHistory with
          | Some v => v
          | None => JArr []
          end
      | None => JArr []
      end
  end.

Definition savePositionToLocalStorage (P : Platform)
    (position : jsint) (w : Page) : Page :=
  match getPositionKey (user w) with
  | Some key => setStorage (setItem P key (toString position) (localStorage w)) w
  | None => w
  end.

Definition loadPositionFromLocalStorage (w : Page) : jsint :=
  match getPositionKey (user w) with
  | None => Int (-1)
  | Some key =>
      match truthy (localStorage w !! key) with
      | Some storedPosition => parseInt storedPosition
      | None => Int (-1)
      end
  end.

(** *** Network calls and their outcomes *)

Record VotePayload := {
  vote_user_id : Z;
  pair_index : Z;
  vote_left_id : Z;
  vote_right_id : Z;
  vote_choice : Choice;
  rt_ms : Z
}.

Inductive Request :=
| GetNextBinaryPair (uid : Z)
| GetFrequency (ngramId : Z)
| SubmitBinaryVote (payload : VotePayload).

(** The [done: false] case of [NextPair]. *)
Record NextPair := {
  next_total : Z;
  next_index : Z;
  next_left_id : Z;
  next_right_id : Z
}.

(** What the server answers to the calls of [fetchNext]: the first call is
    rejected, or reports [done: true], or names a pair whose two frequency
    requests are rejected or return [frequency_data]. *)
Inductive FetchReply :=
| NextRejected
| NextDone
| FrequencyRejected (nxt : NextPair)
| NextSeries (nxt : NextPair) (leftSeries rightSeries : list XY).

(** How an effect ends: normally, with an uncaught [TypeError], or with
    component state that is no longer of its declared type (a stored value
    that parses but is not an array of pair entries), where this model
    stops. *)
Inductive Run (A : Type) :=
| Ran (a : A)
| ThrowsTypeError
| IllTyped.
Arguments Ran {A} a.
Arguments ThrowsTypeError {A}.
Arguments IllTyped {A}.

(** *** Effects and handlers *)

(** The [setPos(-1); setHistoryLoaded(true)] branch of the load effect. *)
Definition startFresh (w : Page) : Page :=
  setHistoryLoaded true (setPos (Int (-1)) w).

(** The effect "Load saved data when user is available". *)
Definition loadEffect (P : Platform) (now : Z) (w : Page) : Run Page :=
  match user w with
  | None => Ran w
  | Some _ =>
      if historyLoaded w then Ran w
      else
        let savedHistory := loadHistoryFromLocalStorage P w in
        let savedPosition := loadPositionFromLocalStorage w in
        match savedHistory with
        | JNull => ThrowsTypeError
        | JArr [] => Ran (startFresh w)
        | JArr items =>
            match historyOfJson items with
            | Some h =>
                Ran (setHistoryLoaded true
                       (setRtStart now
                          (setPos (jsMin savedPosition (jsSub1 (jsLength h)))
                             (setHistory h w))))
            | None => IllTyped
            end
        | JStr s => if String.eqb s EmptyString then Ran (startFresh w) else IllTyped
        | JNum _ | JBool _ => Ran (startFresh w)
        | JObj props =>
            match getProp "length" props with
            | None => Ran (startFresh w)
            | Some (JNum q) =>
                if Qle_bool q 0 then Ran (startFresh w) else IllTyped
            | Some _ => IllTyped
            end
        end
  end.

(** [const current = pos >= 0 ? history[pos] : undefined] *)
Definition current (w : Page) : option PairEntry :=
  if jsGe (pos w) (Int 0) then jsIndex (history w) (pos w) else None.

(** [history.length === 0 ||
     (pos === history.length - 1 && history[pos]?.choice)] *)
Definition needsNextPair (w : Page) : bool :=
  (length (history w) =? 0)%nat
  || (jsEq (pos w) (jsSub1 (jsLength (history w)))
      && bool_decide (is_Some (jsIndex (history w) (pos w) ≫= choice))).

(** The entry [fetchNext] builds from the pair the server names and the two
    frequency series. *)
Definition newEntry (nxt : NextPair) (leftSeries rightSeries : list XY) : PairEntry :=
  let '(leftNorm, rightNorm) := normalizePair leftSeries rightSeries in
  {| index := next_index nxt; total := next_total nxt;
     left_id := next_left_id nxt; right_id := next_right_id nxt;
     leftData := Some leftSeries; rightData := Some rightSeries;
     leftNorm := Some leftNorm; rightNorm := Some rightNorm;
     choice := None |}.

(** [fetchNext] from its call to its end, when nothing else happens to the
    page in between: [reply] answers its calls. *)
Definition fetchNext (P : Platform) (reply : FetchReply) (now : Z)
    (w : Page) : Page * list Request :=
  match user w with
  | None => (w, [])
  | Some u =>
      let w := setLoading true w in
      match reply with
      | NextRejected =>
          (setLoading false w, [GetNextBinaryPair (user_id u)])
      | NextDone =>
          (setLoading false (setDone true w), [GetNextBinaryPair (user_id u)])
      | FrequencyRejected nxt =>
          (setLoading false w,
           [GetNextBinaryPair (user_id u);
            GetFrequency (next_left_id nxt); GetFrequency (next_right_id nxt)])
      | NextSeries nxt leftSeries rightSeries =>
          let entry := newEntry nxt leftSeries rightSeries in
          let newHistory := sliceTo (history w) (jsAdd1 (pos w)) ++ [entry] in
          let w := setHistory newHistory (saveHistoryToLocalStorage P newHistory w) in
          let newPos := jsAdd1 (pos w) in
          let w := setPos newPos (savePositionToLocalStorage P newPos w) in
          (setLoading false (setRtStart now w),
           [GetNextBinaryPair (user_id u);
            GetFrequency (next_left_id nxt); GetFrequency (next_right_id nxt)])
      end
  end.

(** The effect "Fetch next pair when needed". *)
Definition fetchEffect (P : Platform) (reply : FetchReply) (now : Z)
    (w : Page) : Page * list Request :=
  match user w with
  | None => (w, [])
  | Some _ =>
      if negb (historyLoaded w) then (w, [])
      else if needsNextPair w then fetchNext P reply now w
      else (w, [])
  end.

(** [newHistory[pos] = e] for a cursor that is an index of the array, which
    the guard on [current] ensures. *)
Definition setAt (h : list PairEntry) (p : jsint) (e : PairEntry) : list PairEntry :=
  match p with
  | Int z => <[Z.to_nat z := e]> h
  | NaN => h
  end.

Definition selectChoice (P : Platform) (c : Choice) (w : Page) : Page :=
  match current w with
  | None => w
  | Some _ =>
      match jsIndex (history w) (pos w) with
      | Some e =>
          let prev := choice e in
          let toggled :=
            match prev with
            | Some c' => if Choice_eqb c' c then None else Some c
            | None => Some c
            end in
          let newHistory := setAt (history w) (pos w) (withChoice e toggled) in
          setHistory newHistory (saveHistoryToLocalStorage P newHistory w)
      | None => w
      end
  end.

Definition onPrev (P : Platform) (now : Z) (w : Page) : Page :=
  if jsGt (pos w) (Int 0) then
    let newPos := jsSub1 (pos w) in
    setRtStart now (savePositionToLocalStorage P newPos (setPos newPos w))
  else w.

(** The call [submitBinaryVote({ user_id, pair_index, left_id, right_id,
    choice, rt_ms })] for the entry [cur]. *)
Definition voteFor (u : StoredUser) (cur : PairEntry) (c : Choice) (rt : Z) : Request :=
  SubmitBinaryVote
    {| vote_user_id := user_id u; pair_index := index cur;
       vote_left_id := left_id cur; vote_right_id := right_id cur;
       vote_choice := c; rt_ms := rt |}.

(** [onNext] from the click to its end, when nothing else happens to the
    page in between: [now] is the clock when the handler starts, [submitOk]
    tells whether [submitBinaryVote] is fulfilled, [reply] answers the calls
    of [fetchNext] if it is reached and [later] is the clock after the
    await. *)
Definition onNext (P : Platform) (now : Z) (submitOk : bool)
    (reply : FetchReply) (later : Z) (w : Page) : Page * list Request :=
  match user w, current w with
  | Some u, Some cur =>
      match choice cur with
      | None => (w, [])
      | Some c =>
          let vote := voteFor u cur c (now - rtStartRef w) in
          if submitOk then
            if jsEq (pos w) (jsSub1 (jsLength (history w))) then
              let '(w', reqs) := fetchNext P reply later w in (w', vote :: reqs)
            else
              let newPos := jsAdd1 (pos w) in
              (setRtStart later
                 (savePositionToLocalStorage P newPos (setPos newPos w)),
               [vote])
          else (w, [vote])
      end
  | _, _ => (w, [])
  end.

(** *** The page between its awaits

    [fetchNext] and [onNext] are [async] functions: each runs up to an
    [await] and goes on when the awaited call settles.  What goes on is the
    function of the render that started it, so it reads the [pos] and the
    [history.length] of that render, while the updaters it passes to
    [setHistory] and [setPos] receive the state of the moment they run in.
    In between the page handles whatever else happens: [setLoading(true)] is
    in [fetchNext] only, so the buttons stay on the page while
    [submitBinaryVote] is awaited.  The functions [fetchNext] and [onNext]
    above are the runs in which nothing comes in between. *)

(** A function suspended at an [await], with what its closure holds. *)
Inductive Task :=
| AwaitSubmit (closurePos : jsint) (closureLength : nat)
| AwaitNextPair (closurePos : jsint)
| AwaitSeries (closurePos : jsint) (nxt : NextPair).

(** How an awaited call settles: it is rejected, or it is fulfilled with the
    answer of [submitBinaryVote], of [getNextBinaryPair] ([done] or a pair)
    or of the two [getFrequency] calls. *)
Inductive Outcome :=
| Rejected
| VoteAccepted
| NoPairLeft
| PairNamed (nxt : NextPair)
| SeriesFetched (leftSeries rightSeries : list XY).

(** The component and the calls it awaits. *)
Record Session := { page : Page; pending : list Task }.

Definition startOn (u : option StoredUser) (store : gmap string string) : Session :=
  {| page := mount u store; pending := [] |}.

(** [fetchNext] of a render whose cursor is [closurePos], up to
    [await getNextBinaryPair(user.user_id)]. *)
Definition fetchNext_call (closurePos : jsint) (w : Page)
    : Page * list Request * list Task :=
  match user w with
  | None => (w, [], [])
  | Some u =>
      (setLoading true w, [GetNextBinaryPair (user_id u)],
       [AwaitNextPair closurePos])
  end.

(** [fetchNext] from there to [await Promise.all([getFrequency(nxt.left_id),
    getFrequency(nxt.right_id)])]. *)
Definition fetchNext_named (closurePos : jsint) (o : Outcome) (w : Page)
    : option (Page * list Request * list Task) :=
  match o with
  | Rejected => Some (setLoading false w, [], [])
  | NoPairLeft => Some (setLoading false (setDone true w), [], [])
  | PairNamed nxt =>
      Some (w, [GetFrequency (next_left_id nxt); GetFrequency (next_right_id nxt)],
            [AwaitSeries closurePos nxt])
  | VoteAccepted | SeriesFetched _ _ => None
  end.

(** [fetchNext] from there to its end: [prevHistory] and [prevPos] are the
    history and cursor of [w], [pos] in [prevHistory.slice(0, pos + 1)] is
    [closurePos]. *)
Definition fetchNext_series (P : Platform) (closurePos : jsint) (nxt : NextPair)
    (o : Outcome) (now : Z) (w : Page) : option (Page * list Request * list Task) :=
  match o with
  | Rejected => Some (setLoading false w, [], [])
  | SeriesFetched leftSeries rightSeries =>
      let entry := newEntry nxt leftSeries rightSeries in
      let newHistory := sliceTo (history w) (jsAdd1 closurePos) ++ [entry] in
      let w := setHistory newHistory (saveHistoryToLocalStorage P newHistory w) in
      let newPos := jsAdd1 (pos w) in
      let w := setPos newPos (savePositionToLocalStorage P newPos w) in
      Some (setLoading false (setRtStart now w), [], [])
  | VoteAccepted | NoPairLeft | PairNamed _ => None
  end.

(** [onNext] up to [await submitBinaryVote(...)]. *)
Definition onNext_call (now : Z) (w : Page) : list Request * list Task :=
  match user w, current w with
  | Some u, Some cur =>
      match choice cur with
      | None => ([], [])
      | Some c =>
          ([voteFor u cur c (now - rtStartRef w)],
           [AwaitSubmit (pos w) (length (history w))])
      end
  | _, _ => ([], [])
  end.

(** [onNext] after the await: [pos === history.length - 1] compares the
    values of the render of the click. *)
Definition onNext_resume (P : Platform) (closurePos : jsint) (closureLength : nat)
    (o : Outcome) (later : Z) (w : Page) : option (Page * list Request * list Task) :=
  match o with
  | Rejected => Some (w, [], [])
  | VoteAccepted =>
      if jsEq closurePos (jsSub1 (Int (Z.of_nat closureLength))) then
        Some (fetchNext_call closurePos w)
      else
        let newPos := jsAdd1 closurePos in
        Some (setRtStart later
                (savePositionToLocalStorage P newPos (setPos newPos w)), [], [])
  | NoPairLeft | PairNamed _ | SeriesFetched _ _ => None
  end.

(** The suspended function [t] goes on with the outcome [o] of its call;
    [None] when [o] is not an outcome of that call. *)
Definition resume (P : Platform) (t : Task) (o : Outcome) (now : Z) (w : Page)
    : option (Page * list Request * list Task) :=
  match t with
  | AwaitSubmit closurePos closureLength =>
      onNext_resume P closurePos closureLength o now w
  | AwaitNextPair closurePos => fetchNext_named closurePos o w
  | AwaitSeries closurePos nxt => fetchNext_series P closurePos nxt o now w
  end.

(** The charts and the buttons are rendered:
    [historyLoaded], not [done], and
    [!loading && current && current.leftNorm && current.rightNorm]. *)
Definition controlsShown (w : Page) : bool :=
  historyLoaded w && negb (done w) && negb (loading w)
  && match current w with
     | Some cur =>
         bool_decide (is_Some (leftNorm cur))
         && bool_decide (is_Some (rightNorm cur))
     | None => false
     end.

(** [Object.is] on the cursor. *)
Definition objectIs (a b : jsint) : bool :=
  match a, b with
  | NaN, NaN => true
  | Int x, Int y => x =? y
  | _, _ => false
  end.

(** The dependencies [user, historyLoaded, history.length, pos] of the fetch
    effect are those of the previous commit; nothing sets [user] after the
    component is mounted. *)
Definition fetchDepsSame (before w : Page) : bool :=
  Bool.eqb (historyLoaded before) (historyLoaded w)
  && (length (history before) =? length (history w))%nat
  && objectIs (pos before) (pos w).

(** The render of [w] is committed after that of [before]: the effect
    "Fetch next pair when needed" runs if a dependency changed, and calls
    the [fetchNext] of this render. *)
Definition commit (before w : Page) : Page * list Request * list Task :=
  if fetchDepsSame before w then (w, [], [])
  else
    match user w with
    | None => (w, [], [])
    | Some _ =>
        if negb (historyLoaded w) then (w, [], [])
        else if needsNextPair w then fetchNext_call (pos w) w
        else (w, [], [])
    end.

(** What happens to the page: the load effect runs, a chart or a button is
    clicked, or the call awaited by the [i]-th suspended function settles. *)
Inductive Event :=
| Load (now : Z)
| Select (c : Choice)
| Prev (now : Z)
| Next (now : Z)
| Settle (i : nat) (o : Outcome) (now : Z).

(** The handler left the page as [w], the calls [reqs] were sent and
    [tasks] are suspended; then the render is committed. *)
Definition finish (s : Session) (tasks : list Task) (reqs : list Request)
    (w : Page) : Session * list Request :=
  let '(w', sent, started) := commit (page s) w in
  ({| page := w'; pending := tasks ++ started |}, reqs ++ sent).

(** One event.  A click reaches its handler only if the control is on the
    page; a function that goes on stays in its place among the suspended
    ones until it ends. *)
Definition step (P : Platform) (s : Session) (ev : Event)
    : Run (Session * list Request) :=
  let w := page s in
  match ev with
  | Load now =>
      match loadEffect P now w with
      | Ran w' => Ran (finish s (pending s) [] w')
      | ThrowsTypeError => ThrowsTypeError
      | IllTyped => IllTyped
      end
  | Select c =>
      if controlsShown w then Ran (finish s (pending s) [] (selectChoice P c w))
      else Ran (s, [])
  | Prev now =>
      if controlsShown w then Ran (finish s (pending s) [] (onPrev P now w))
      else Ran (s, [])
  | Next now =>
      if controlsShown w then
        let '(reqs, started) := onNext_call now w in
        Ran ({| page := w; pending := pending s ++ started |}, reqs)
      else Ran (s, [])
  | Settle i o now =>
      match pending s !! i with
      | None => Ran (s, [])
      | Some t =>
          match resume P t o now w with
          | None => Ran (s, [])
          | Some (w', reqs, next) =>
              Ran (finish s (take i (pending s) ++ next ++ drop (S i) (pending s))
                     reqs w')
          end
      end
  end.

(** The events [evs] one after the other, with all the calls sent. *)
Fixpoint run (P : Platform) (s : Session) (evs : list Event)
    : Run (Session * list Request) :=
  match evs with
  | [] => Ran (s, [])
  | ev :: evs =>
      match step P s ev with
      | Ran (s', reqs) =>
          match run P s' evs with
          | Ran (s'', reqs') => Ran (s'', reqs ++ reqs')
          | ThrowsTypeError => ThrowsTypeError
          | IllTyped => IllTyped
          end
      | ThrowsTypeError => ThrowsTypeError
      | IllTyped => IllTyped
      end
  end.

(** [JSON.stringify] writes a text for the history [h], and [JSON.parse]
    reads that text back as the same value. *)
Definition JSON_roundtrips (P : Platform) (h : list PairEntry) : Prop :=
  JSON_stringify P (jsonOfHistory h) <> EmptyString
  /\ JSON_parse P (JSON_stringify P (jsonOfHistory h)) = Some (jsonOfHistory h).

(** States of the page of a user who first arrives with an empty store, then
    votes and navigates while calls settle in any order, and reloads the
    page.  A reload keeps [localStorage], starts the component again and
    drops the suspended functions. *)
Inductive reachable (P : Platform) : Session -> Prop :=
| reach_first (u : StoredUser) : reachable P (startOn (Some u) ∅)
| reach_step s ev s' reqs :
    reachable P s -> step P s ev = Ran (s', reqs) -> reachable P s'
| reach_reload s :
    reachable P s -> historyLoaded (page s) = true ->
    JSON_roundtrips P (history (page s)) ->
    reachable P (startOn (user (page s)) (localStorage (page s))).

(** The user clicks a chart or a button. *)
Definition isControl (ev : Event) : bool :=
  match ev with
  | Select _ | Prev _ | Next _ => true
  | Load _ | Settle _ _ _ => false
  end.

(** The user clicks Next. *)
Definition isNext (ev : Event) : bool :=
  match ev with
  | Next _ => true
  | Load _ | Select _ | Prev _ | Settle _ _ _ => false
  end.

(** Next is not clicked while a call is awaited. *)
Definition unhurried (s : Session) (ev : Event) : Prop :=
  isNext ev = true -> pending s = [].

(** The states reached that way. *)
Inductive reachable_unhurried (P : Platform) : Session -> Prop :=
| calm_first (u : StoredUser) : reachable_unhurried P (startOn (Some u) ∅)
| calm_step s ev s' reqs :
    reachable_unhurried P s -> unhurried s ev ->
    step P s ev = Ran (s', reqs) -> reachable_unhurried P s'
| calm_reload s :
    reachable_unhurried P s -> historyLoaded (page s) = true ->
    JSON_roundtrips P (history (page s)) ->
    reachable_unhurried P (startOn (user (page s)) (localStorage (page s))).

(** The events [evs] from [s] are of that kind, and all of them run. *)
Fixpoint runsUnhurried (P : Platform) (s : Session) (evs : list Event) : bool :=
  match evs with
  | [] => true
  | ev :: evs =>
      (negb (isNext ev) || match pending s with [] => true | _ => false end)
      && match step P s ev with
         | Ran (s', _) => runsUnhurried P s' evs
         | _ => false
         end
  end.


(** *** What the store holds for a session *)

Definition historyKey (u : StoredUser) : string :=
  ("history_" ++ intToString (user_id u))%string.

Definition positionKey (u : StoredUser) : string :=
  ("position_" ++ intToString (user_id u))%string.

(** The store never refuses a write. *)
Definition writes_ok (P : Platform) : Prop :=
  forall key value, setItem_ok P key value = true.

(** The store holds history [h] and cursor [p] of user [u]: nothing under the
    history key while no pair was fetched, and else the text of [h] and of a
    cursor that is an index of [h]. *)
Definition persisted (P : Platform) (u : StoredUser) (h : list PairEntry)
    (p : jsint) (st : gmap string string) : Prop :=
  match h with
  | [] => p = Int (-1) /\ st !! historyKey u = None
  | _ =>
      st !! historyKey u = Some (JSON_stringify P (jsonOfHistory h))
      /\ st !! positionKey u = Some (toString p)
      /\ exists z, p = Int z /\ 0 <= z < Z.of_nat (length h)
  end.

(** The page and the store agree: once the load effect has run the store
    holds the history and cursor of the page; before it, the page is as
    mounted and the store holds a session that [JSON.parse] can read back. *)
Definition consistent (P : Platform) (w : Page) : Prop :=
  exists u, user w = Some u
    /\ if historyLoaded w then persisted P u (history w) (pos w) (localStorage w)
       else history w = [] /\ pos w = Int (-1)
            /\ exists h p, persisted P u h p (localStorage w)
                           /\ (h <> [] -> JSON_roundtrips P h).

End BinaryVotingPage.

(** ** Sorting and filters shared by the leaderboard pages *)

Inductive SortOrder := asc | desc.

(** [o === "asc" ? "desc" : "asc"] *)
Definition flipOrder (o : SortOrder) : SortOrder :=
  match o with asc => desc | desc => asc end.

Record NgramOption := { option_id : Z; option_text : string }.

Record FilterState := {
  domainId : option Z;
  fieldId : option Z;
  subfieldId : option Z;
  nWords : option Z;
  ngram : option NgramOption;
  domainName : option string;
  fieldName : option string;
  subfieldName : option string
}.

(** Truthiness of [number | null]: [null] and [0] are falsy. *)
Definition truthyId (v : option Z) : bool :=
  match v with Some z => negb (z =? 0) | None => false end.

(** Truthiness of [filters.ngram?.text]. *)
Definition ngramText (f : FilterState) : option string :=
  match ngram f with
  | Some o => if String.eqb (option_text o) EmptyString then None else Some (option_text o)
  | None => None
  end.

Definition noFilters : FilterState :=
  {| domainId := None; fieldId := None; subfieldId := None; nWords := None;
     ngram := None; domainName := None; fieldName := None;
     subfieldName := None |}.

(** ** pages/FrequencyDashboardPage.tsx *)

Module FrequencyDashboardPage.

Record NgramRow := {
  id : Z;
  text : string;
  domain : string;
  field : string;
  subfield : string;
  domain_id : Z;
  field_id : Z;
  subfield_id : Z;
  n_words : Z;
  df_ngram : Z;
  df_ngram_subfield : Z
}.

(** The columns of [NgramRow] that hold text; the table offers every column
    of the row but the identifiers as a sort field. *)
Definition isLexical (sortField : string) : bool :=
  String.eqb sortField "text" || String.eqb sortField "subfield"
  || String.eqb sortField "field" || String.eqb sortField "domain".

Record Params := {
  param_page : Z;
  param_page_size : Z;
  param_sort_by : string;
  param_sort_order : SortOrder;
  param_subfield_id : option Z;
  param_field_id : option Z;
  param_domain_id : option Z;
  param_n_words : option Z;
  param_ngram_text : option string
}.

(** [res.data] of a fulfilled [/v1/leaderboard] call. *)
Record Response := { data : list NgramRow; total_pages : Z }.

Record State := {
  filters : FilterState;
  ngrams : list NgramRow;
  page : Z;
  pendingPage : Z;
  totalPages : Z;
  sortBy : string;
  sortOrder : SortOrder;
  isLoading : bool;
  lastReqId : Z
}.

Definition initial : State :=
  {| filters := noFilters; ngrams := []; page := 1; pendingPage := 1;
     totalPages := 1; sortBy := "text"; sortOrder := asc; isLoading := false;
     lastReqId := 0 |}.

Definition buildParams (s : State) (pageArg : Z) : Params :=
  let f := filters s in
  let sub := truthyId (subfieldId f) in
  let fld := negb sub && truthyId (fieldId f) in
  let dom := negb sub && negb fld && truthyId (domainId f) in
  {| param_page := pageArg; param_page_size := 100;
     param_sort_by := sortBy s; param_sort_order := sortOrder s;
     param_subfield_id := if sub then subfieldId f else None;
     param_field_id := if fld then fieldId f else None;
     param_domain_id := if dom then domainId f else None;
     param_n_words := if truthyId (nWords f) then nWords f else None;
     param_ngram_text := ngramText f |}.

(** A call of [fetchLeaderboard] suspended at its [await]: the request id and
    the page it captured, and the request it sent. *)
Record Pending := { reqId : Z; pageArg : Z; sent : Params }.

(** [fetchLeaderboard] up to the [await]. *)
Definition fetchLeaderboard_call (pageArg : Z) (s : State) : State * Pending :=
  let reqId := lastReqId s + 1 in
  ({| filters := filters s; ngrams := ngrams s; page := page s;
      pendingPage := pageArg; totalPages := totalPages s;
      sortBy := sortBy s; sortOrder := sortOrder s; isLoading := true;
      lastReqId := reqId |},
   {| reqId := reqId; pageArg := pageArg; sent := buildParams s pageArg |}).

Definition setIsLoadingFalse (s : State) : State :=
  {| filters := filters s; ngrams := ngrams s; page := page s;
     pendingPage := pendingPage s; totalPages := totalPages s;
     sortBy := sortBy s; sortOrder := sortOrder s; isLoading := false;
     lastReqId := lastReqId s |}.

(** [fetchLeaderboard] from the [await] on; [None] is a rejected call. *)
Definition fetchLeaderboard_resume (p : Pending) (res : option Response)
    (s : State) : State :=
  match res with
  | Some res =>
      if negb (reqId p =? lastReqId s) then s
      else
        setIsLoadingFalse
          {| filters := filters s; ngrams := data res; page := pageArg p;
             pendingPage := pendingPage s; totalPages := total_pages res;
             sortBy := sortBy s; sortOrder := sortOrder s;
             isLoading := isLoading s; lastReqId := lastReqId s |}
  | None =>
      if reqId p =? lastReqId s then setIsLoadingFalse s else s
  end.

Definition handleSortChange (sortField : string) (s : State) : State :=
  if String.eqb sortField (sortBy s) then
    {| filters := filters s; ngrams := ngrams s; page := page s;
       pendingPage := pendingPage s; totalPages := totalPages s;
       sortBy := sortBy s; sortOrder := flipOrder (sortOrder s);
       isLoading := isLoading s; lastReqId := lastReqId s |}
  else
    {| filters := filters s; ngrams := ngrams s; page := page s;
       pendingPage := pendingPage s; totalPages := totalPages s;
       sortBy := sortField; sortOrder := desc;
       isLoading := isLoading s; lastReqId := lastReqId s |}.

Definition handleFilterChange (newFilters : FilterState) (s : State) : State :=
  {| filters := newFilters; ngrams := ngrams s; page := page s;
     pendingPage := pendingPage s; totalPages := totalPages s;
     sortBy := sortBy s; sortOrder := sortOrder s;
     isLoading := isLoading s; lastReqId := lastReqId s |}.

(** The page with its calls in flight. *)
Record Controller := { state : State; inflight : list Pending }.

Definition call (pageArg : Z) (c : Controller) : Controller :=
  let '(s, p) := fetchLeaderboard_call pageArg (state c) in
  {| state := s; inflight := p :: inflight c |}.

Inductive Event :=
| Fetch (pageArg : Z)
| PrevPage
| NextPage
| SortChange (sortField : string)
| FilterChange (newFilters : FilterState)
| Settle (reqId : Z) (res : option Response).

Definition handlePrevPage (c : Controller) : Controller :=
  if (page (state c) <=? 1) || isLoading (state c) then c
  else call (page (state c) - 1) c.

Definition handleNextPage (c : Controller) : Controller :=
  if (totalPages (state c) <=? page (state c)) || isLoading (state c) then c
  else call (page (state c) + 1) c.

Definition settle (rid : Z) (res : option Response) (c : Controller) : Controller :=
  match List.find (fun p => reqId p =? rid) (inflight c) with
  | Some p =>
      {| state := fetchLeaderboard_resume p res (state c);
         inflight := List.filter (fun p => negb (reqId p =? rid)) (inflight c) |}
  | None => c
  end.

(** A change of sort or filters re-creates [fetchLeaderboard], and the effect
    on it calls [fetchLeaderboard(1)]. *)
Definition handle (c : Controller) (ev : Event) : Controller :=
  match ev with
  | Fetch pageArg => call pageArg c
  | PrevPage => handlePrevPage c
  | NextPage => handleNextPage c
  | SortChange sortField =>
      call 1 {| state := handleSortChange sortField (state c);
                inflight := inflight c |}
  | FilterChange newFilters =>
      call 1 {| state := handleFilterChange newFilters (state c);
                inflight := inflight c |}
  | Settle rid res => settle rid res c
  end.

Definition run (evs : list Event) (c : Controller) : Controller :=
  fold_left handle evs c.

(** The outcome of the first [Settle] of request [rid] among [evs]. *)
Fixpoint firstSettle (rid : Z) (evs : list Event) : option (option Response) :=
  match evs with
  | [] => None
  | Settle r res :: rest => if r =? rid then Some res else firstSettle rid rest
  | _ :: rest => firstSettle rid rest
  end.

Definition isSettle (ev : Event) : bool :=
  match ev with Settle _ _ => true | _ => false end.

(** What the table shows: the committed rows and pages. *)
Definition shown (s : State) : list NgramRow * Z * Z :=
  (ngrams s, page s, totalPages s).

(** The latest request [b] is still awaited and captured page [pB]. *)
Definition awaiting (b pB : Z) (c : Controller) : Prop :=
  lastReqId (state c) = b
  /\ exists p, List.find (fun p => reqId p =? b) (inflight c) = Some p
               /\ pageArg p = pB.

(** The latest request [b] has been settled. *)
Definition settled (b : Z) (c : Controller) : Prop :=
  lastReqId (state c) = b
  /\ List.find (fun p => reqId p =? b) (inflight c) = None.

End FrequencyDashboardPage.

(** ** pages/BurstPage.tsx *)

Module BurstPage.

Inductive SortField := score | ngram | normalized_score.

Definition SortField_eqb (a b : SortField) : bool :=
  match a, b with
  | score, score | ngram, ngram | normalized_score, normalized_score => true
  | _, _ => false
  end.

(** [ngram] sorts the text of the n-gram; the other two are scores. *)
Definition isLexical (f : SortField) : bool :=
  match f with ngram => true | _ => false end.

Inductive Method := macd | kleinberg.

Record State := {
  filters : FilterState;
  start : option string;
  end_ : option string;
  sortBy : SortField;
  sortOrder : SortOrder;
  page : Z
}.

Definition initial : State :=
  {| filters := noFilters; start := None; end_ := None;
     sortBy := normalized_score; sortOrder := desc; page := 1 |}.

Definition handleSortChange (field : SortField) (s : State) : State :=
  if SortField_eqb field (sortBy s) then
    {| filters := filters s; start := start s; end_ := end_ s;
       sortBy := sortBy s; sortOrder := flipOrder (sortOrder s); page := 1 |}
  else
    {| filters := filters s; start := start s; end_ := end_ s;
       sortBy := field;
       sortOrder := if SortField_eqb field ngram then asc else desc;
       page := 1 |}.

Definition handleFilterChange (next : FilterState) (s : State) : State :=
  {| filters := next; start := start s; end_ := end_ s;
     sortBy := sortBy s; sortOrder := sortOrder s; page := 1 |}.

Definition handleTimeChange (st e : option string) (s : State) : State :=
  {| filters := filters s; start := st; end_ := e;
     sortBy := sortBy s; sortOrder := sortOrder s; page := 1 |}.

Record Params := {
  param_method : Method;
  param_page : Z;
  param_page_size : Z;
  param_sort_order : SortOrder;
  param_subfield_id : option Z;
  param_field_id : option Z;
  param_domain_id : option Z;
  param_n_words : option Z;
  param_ngram_text : option string;
  param_start : option string;
  param_end : option string
}.

Definition truthyText (v : option string) : option string :=
  match v with Some EmptyString => None | other => other end.

Definition queryParams (currentMethod : Method) (s : State) : Params :=
  let f := filters s in
  let sub := truthyId (subfieldId f) in
  let fld := negb sub && truthyId (fieldId f) in
  let dom := negb sub && negb fld && truthyId (domainId f) in
  {| param_method := currentMethod; param_page := page s;
     param_page_size := 50; param_sort_order := sortOrder s;
     param_subfield_id := if sub then subfieldId f else None;
     param_field_id := if fld then fieldId f else None;
     param_domain_id := if dom then domainId f else None;
     param_n_words := if truthyId (nWords f) then nWords f else None;
     param_ngram_text := ngramText f;
     param_start := truthyText (start s);
     param_end := truthyText (end_ s) |}.

End BurstPage.

(** ** components/NgramFilterPanel.tsx *)

Module NgramFilterPanel.

(** The reply of [/v1/filters/hierarchy]. *)
Record Subfield := { subfield_id : Z; subfield_name : string }.
Record Field := { field_id : Z; field_name : string; subfields : list Subfield }.
Record Domain := { domain_id : Z; domain_name : string; fields : list Field }.

(** An entry of [allFields]: [{ ...f, domain_id: d.id, domain_name: d.name }]. *)
Record FlatField := {
  ff_id : Z;
  ff_name : string;
  ff_subfields : list Subfield;
  ff_domain_id : Z;
  ff_domain_name : string
}.

(** An entry of [allSubfields]. *)
Record FlatSubfield := {
  fs_id : Z;
  fs_name : string;
  fs_field_id : Z;
  fs_field_name : string;
  fs_domain_id : Z;
  fs_domain_name : string
}.

Definition flattenFields (data : list Domain) : list FlatField :=
  flat_map (fun d =>
    map (fun f => {| ff_id := field_id f; ff_name := field_name f;
                     ff_subfields := subfields f;
                     ff_domain_id := domain_id d;
                     ff_domain_name := domain_name d |}) (fields d)) data.

Definition flattenSubfields (fields : list FlatField) : list FlatSubfield :=
  flat_map (fun f =>
    map (fun s => {| fs_id := subfield_id s; fs_name := subfield_name s;
                     fs_field_id := ff_id f; fs_field_name := ff_name f;
                     fs_domain_id := ff_domain_id f;
                     fs_domain_name := ff_domain_name f |}) (ff_subfields f)) fields.

(** An entry of [ambiguousSubfieldInfo.availableFields]. *)
Record Candidate := {
  cand_id : Z;
  cand_name : string;
  cand_domain_name : string
}.

Record AmbiguousInfo := {
  pendingName : string;
  availableFields : list Candidate
}.

Record Panel := {
  hierarchy : list Domain;
  allFields : list FlatField;
  allSubfields : list FlatSubfield;
  filters : FilterState;
  start : option string;
  end_ : option string;
  isSubfieldAmbiguous : bool;
  ambiguousSubfieldInfo : option AmbiguousInfo;
  showTimePicker : bool;
  onTimeChange : bool (* is the optional [onTimeChange] prop given? *)
}.

(** The panel once the hierarchy has arrived. *)
Definition loaded (data : list Domain) (showTimePicker onTimeChange : bool)
    (initialStart initialEnd : option string) : Panel :=
  {| hierarchy := data;
     allFields := flattenFields data;
     allSubfields := flattenSubfields (flattenFields data);
     filters := noFilters; start := initialStart; end_ := initialEnd;
     isSubfieldAmbiguous := false; ambiguousSubfieldInfo := None;
     showTimePicker := showTimePicker; onTimeChange := onTimeChange |}.

(** The three [set...] calls every select handler ends with. *)
Definition update (f : FilterState) (amb : bool) (info : option AmbiguousInfo)
    (p : Panel) : Panel :=
  {| hierarchy := hierarchy p; allFields := allFields p;
     allSubfields := allSubfields p; filters := f;
     start := start p; end_ := end_ p;
     isSubfieldAmbiguous := amb; ambiguousSubfieldInfo := info;
     showTimePicker := showTimePicker p; onTimeChange := onTimeChange p |}.

(** What the panel calls on its parent. *)
Inductive Callback :=
| OnFilterChange (f : FilterState)
| OnTimeChange (start end_ : option string).

Definition applyFilters (p : Panel) : list Callback :=
  if isSubfieldAmbiguous p then []
  else
    OnFilterChange (filters p)
    :: (if showTimePicker p && onTimeChange p
        then [OnTimeChange (start p) (end_ p)] else []).

Definition resetFilters (p : Panel) : Panel :=
  {| hierarchy := hierarchy p; allFields := allFields p;
     allSubfields := allSubfields p; filters := noFilters;
     start := if showTimePicker p then None else start p;
     end_ := if showTimePicker p then None else end_ p;
     isSubfieldAmbiguous := false; ambiguousSubfieldInfo := None;
     showTimePicker := showTimePicker p; onTimeChange := onTimeChange p |}.

(** [x.id === val] for [val: number | null]. *)
Definition idIs (val : option Z) (i : Z) : bool :=
  match val with Some v => i =? v | None => false end.

(** The domain select; [val] is [null] for the placeholder option. *)
Definition onDomainChange (val : option Z) (p : Panel) : Panel :=
  let selected := List.find (fun d => idIs val (domain_id d)) (hierarchy p) in
  update
    {| domainId := val; fieldId := None; subfieldId := None;
       nWords := nWords (filters p); ngram := ngram (filters p);
       domainName := domain_name <$> selected;
       fieldName := None; subfieldName := None |}
    false None p.

(** The field select. *)
Definition onFieldChange (val : option Z) (p : Panel) : Panel :=
  let selected := List.find (fun f => idIs val (ff_id f)) (allFields p) in
  let prev := filters p in
  match isSubfieldAmbiguous p, ambiguousSubfieldInfo p, selected with
  | true, Some info, Some selected =>
      let correctSubfield :=
        List.find (fun s => (fs_field_id s =? ff_id selected)
                            && String.eqb (fs_name s) (pendingName info))
          (allSubfields p) in
      update
        {| domainId := Some (ff_domain_id selected);
           fieldId := val;
           subfieldId :=
             match correctSubfield with
             | Some s => Some (fs_id s)
             | None => subfieldId prev
             end;
           nWords := nWords prev; ngram := ngram prev;
           domainName := Some (ff_domain_name selected);
           fieldName := Some (ff_name selected);
           subfieldName :=
             match correctSubfield with
             | Some s => Some (fs_name s)
             | None => subfieldName prev
             end |}
        false None p
  | _, _, _ =>
      update
        {| domainId :=
             match selected with
             | Some f => Some (ff_domain_id f)
             | None => domainId prev
             end;
           fieldId := val; subfieldId := None;
           nWords := nWords prev; ngram := ngram prev;
           domainName :=
             match selected with
             | Some f => Some (ff_domain_name f)
             | None => domainName prev
             end;
           fieldName := ff_name <$> selected;
           subfieldName := None |}
        false None p
  end.

(** [self.findIndex(pred)]; [None] stands for -1. *)
Fixpoint findIndex {A} (pred : A -> bool) (l : list A) : option nat :=
  match l with
  | [] => None
  | x :: rest => if pred x then Some O else S <$> findIndex pred rest
  end.

(** [xs.filter((x, idx, self) => keep(x, idx, self))], from index [idx]. *)
Fixpoint filterFrom {A} (keep : A -> nat -> bool) (idx : nat) (xs : list A) : list A :=
  match xs with
  | [] => []
  | x :: rest =>
      if keep x idx then x :: filterFrom keep (S idx) rest
      else filterFrom keep (S idx) rest
  end.

(** [idx === self.findIndex((f) => f.id === field.id)] *)
Definition keepsFirst (self : list Candidate) (field : Candidate) (idx : nat) : bool :=
  match findIndex (fun f => cand_id f =? cand_id field) self with
  | Some i => (i =? idx)%nat
  | None => false
  end.

(** [.filter((field, idx, self) =>
       idx === self.findIndex((f) => f.id === field.id))] *)
Definition firstById (self : list Candidate) : list Candidate :=
  filterFrom (keepsFirst self) O self.

Definition candidateOf (s : FlatSubfield) : Candidate :=
  {| cand_id := fs_field_id s; cand_name := fs_field_name s;
     cand_domain_name := fs_domain_name s |}.

(** The subfield select. *)
Definition onSubfieldChange (val : option Z) (p : Panel) : Panel :=
  let selected := List.find (fun s => idIs val (fs_id s)) (allSubfields p) in
  let prev := filters p in
  let unambiguous :=
    update
      {| domainId :=
           match selected with
           | Some s => Some (fs_domain_id s)
           | None => domainId prev
           end;
         fieldId :=
           match selected with
           | Some s => Some (fs_field_id s)
           | None => fieldId prev
           end;
         subfieldId := val;
         nWords := nWords prev; ngram := ngram prev;
         domainName :=
           match selected with
           | Some s => Some (fs_domain_name s)
           | None => domainName prev
           end;
         fieldName :=
           match selected with
           | Some s => Some (fs_field_name s)
           | None => fieldName prev
           end;
         subfieldName := fs_name <$> selected |}
      false None p in
  match selected with
  | Some sel =>
      let sameNameSubfields :=
        List.filter (fun s => String.eqb (fs_name s) (fs_name sel))
          (allSubfields p) in
      let ambiguous :=
        (1 <? length sameNameSubfields)%nat && negb (truthyId (fieldId prev)) in
      if ambiguous then
        let fieldsWithThisSubfield :=
          firstById (map candidateOf sameNameSubfields) in
        update
          {| domainId := Some (fs_domain_id sel);
             fieldId := fieldId prev;
             subfieldId := val;
             nWords := nWords prev; ngram := ngram prev;
             domainName := Some (fs_domain_name sel);
             fieldName := fieldName prev;
             subfieldName := Some (fs_name sel) |}
          true
          (Some {| pendingName := fs_name sel;
                   availableFields := fieldsWithThisSubfield |})
          p
      else unambiguous
  | None => unambiguous
  end.

Definition onNWordsChange (val : option Z) (p : Panel) : Panel :=
  let prev := filters p in
  update
    {| domainId := domainId prev; fieldId := fieldId prev;
       subfieldId := subfieldId prev; nWords := val; ngram := ngram prev;
       domainName := domainName prev; fieldName := fieldName prev;
       subfieldName := subfieldName prev |}
    (isSubfieldAmbiguous p) (ambiguousSubfieldInfo p) p.

Definition visibleFields (p : Panel) : list FlatField :=
  List.filter
    (fun f =>
       match isSubfieldAmbiguous p, ambiguousSubfieldInfo p with
       | true, Some info =>
           existsb (fun af => cand_id af =? ff_id f) (availableFields info)
       | _, _ =>
           if truthyId (domainId (filters p))
           then idIs (domainId (filters p)) (ff_domain_id f) else true
       end)
    (allFields p).

(** The panel as driven by its user. *)
Inductive Event :=
| DomainChange (val : option Z)
| FieldChange (val : option Z)
| SubfieldChange (val : option Z)
| NWordsChange (val : option Z)
| Reset
| Apply.

(** One event: the panel after it and the calls made on the parent. *)
Definition handle (p : Panel) (ev : Event) : Panel * list Callback :=
  match ev with
  | DomainChange val => (onDomainChange val p, [])
  | FieldChange val => (onFieldChange val p, [])
  | SubfieldChange val => (onSubfieldChange val p, [])
  | NWordsChange val => (onNWordsChange val p, [])
  | Reset => (resetFilters p, [])
  | Apply => (p, applyFilters p)
  end.

Inductive reachable (data : list Domain) : Panel -> Prop :=
| reach_loaded tp tc s e : reachable data (loaded data tp tc s e)
| reach_handle p ev :
    reachable data p -> reachable data (fst (handle p ev)).

(** The parent [BurstPage] on the calls of the panel: each call changes its
    state, and a changed state sends one leaderboard query. *)
Definition deliver (cb : Callback) (s : BurstPage.State) : BurstPage.State :=
  match cb with
  | OnFilterChange f => BurstPage.handleFilterChange f s
  | OnTimeChange st e => BurstPage.handleTimeChange st e s
  end.

Definition parentAfter (method : BurstPage.Method) (cbs : list Callback)
    (s : BurstPage.State) : BurstPage.State * list BurstPage.Params :=
  match cbs with
  | [] => (s, [])
  | _ =>
      let s' := fold_left (fun s cb => deliver cb s) cbs s in
      (s', [BurstPage.queryParams method s'])
  end.

End NgramFilterPanel.

(** ** components/NgramFilterPanel.tsx: the search box

    The n-gram search box of the panel and its suggestions.  The effect
    "autocomplete fetch (debounced) — works independently of Apply" runs
    when [searchText] or [filters.subfieldId] changed: it clears the timer
    and, for a text of two characters or more, starts a new one whose
    callback asks [/v1/filters/ngram-text] with the text and subfield of that
    render.  Lengths are those of Rocq strings, which for ASCII text are
    those of the JavaScript strings. *)

Module NgramSearchBox.
Import NgramFilterPanel.

(** The parameters of [GET /v1/filters/ngram-text]. *)
Record Suggest := {
  q : string;
  suggest_subfield_id : option Z;
  limit : Z
}.

(** The panel with the state of its search box: [debounceTimer] is the
    timeout that has neither fired nor been cleared, with the request its
    callback sends; [awaited] are the requests sent and not yet answered. *)
Record Box := {
  panel : Panel;
  searchText : string;
  autocompleteOptions : list NgramOption;
  showDropdown : bool;
  isLoadingAutocomplete : bool;
  debounceTimer : option Suggest;
  awaited : list Suggest
}.

(** The component once the hierarchy has arrived, nothing typed. *)
Definition boxOf (p : Panel) : Box :=
  {| panel := p; searchText := EmptyString; autocompleteOptions := [];
     showDropdown := false; isLoadingAutocomplete := false;
     debounceTimer := None; awaited := [] |}.

Definition setPanel (p : Panel) (b : Box) : Box :=
  {| panel := p; searchText := searchText b;
     autocompleteOptions := autocompleteOptions b;
     showDropdown := showDropdown b;
     isLoadingAutocomplete := isLoadingAutocomplete b;
     debounceTimer := debounceTimer b; awaited := awaited b |}.

Definition setSearchText (text : string) (b : Box) : Box :=
  {| panel := panel b; searchText := text;
     autocompleteOptions := autocompleteOptions b;
     showDropdown := showDropdown b;
     isLoadingAutocomplete := isLoadingAutocomplete b;
     debounceTimer := debounceTimer b; awaited := awaited b |}.

Definition setAutocompleteOptions (items : list NgramOption) (b : Box) : Box :=
  {| panel := panel b; searchText := searchText b;
     autocompleteOptions := items;
     showDropdown := showDropdown b;
     isLoadingAutocomplete := isLoadingAutocomplete b;
     debounceTimer := debounceTimer b; awaited := awaited b |}.

Definition setShowDropdown (shown : bool) (b : Box) : Box :=
  {| panel := panel b; searchText := searchText b;
     autocompleteOptions := autocompleteOptions b;
     showDropdown := shown;
     isLoadingAutocomplete := isLoadingAutocomplete b;
     debounceTimer := debounceTimer b; awaited := awaited b |}.

Definition setIsLoadingAutocomplete (loading : bool) (b : Box) : Box :=
  {| panel := panel b; searchText := searchText b;
     autocompleteOptions := autocompleteOptions b;
     showDropdown := showDropdown b;
     isLoadingAutocomplete := loading;
     debounceTimer := debounceTimer b; awaited := awaited b |}.

Definition setTimer (t : option Suggest) (b : Box) : Box :=
  {| panel := panel b; searchText := searchText b;
     autocompleteOptions := autocompleteOptions b;
     showDropdown := showDropdown b;
     isLoadingAutocomplete := isLoadingAutocomplete b;
     debounceTimer := t; awaited := awaited b |}.

Definition setAwaited (reqs : list Suggest) (b : Box) : Box :=
  {| panel := panel b; searchText := searchText b;
     autocompleteOptions := autocompleteOptions b;
     showDropdown := showDropdown b;
     isLoadingAutocomplete := isLoadingAutocomplete b;
     debounceTimer := debounceTimer b; awaited := reqs |}.

(** [setFilters((prev) => ({ ...prev, ngram }))] *)
Definition setNgram (o : option NgramOption) (p : Panel) : Panel :=
  let prev := filters p in
  update
    {| domainId := domainId prev; fieldId := fieldId prev;
       subfieldId := subfieldId prev; nWords := nWords prev; ngram := o;
       domainName := domainName prev; fieldName := fieldName prev;
       subfieldName := subfieldName prev |}
    (isSubfieldAmbiguous p) (ambiguousSubfieldInfo p) p.

(** [setStart] and [setEnd] of the time window, local until Apply. *)
Definition setStart (v : option string) (p : Panel) : Panel :=
  {| hierarchy := hierarchy p; allFields := allFields p;
     allSubfields := allSubfields p; filters := filters p;
     start := v; end_ := end_ p;
     isSubfieldAmbiguous := isSubfieldAmbiguous p;
     ambiguousSubfieldInfo := ambiguousSubfieldInfo p;
     showTimePicker := showTimePicker p; onTimeChange := onTimeChange p |}.

Definition setEnd (v : option string) (p : Panel) : Panel :=
  {| hierarchy := hierarchy p; allFields := allFields p;
     allSubfields := allSubfields p; filters := filters p;
     start := start p; end_ := v;
     isSubfieldAmbiguous := isSubfieldAmbiguous p;
     ambiguousSubfieldInfo := ambiguousSubfieldInfo p;
     showTimePicker := showTimePicker p; onTimeChange := onTimeChange p |}.

(** [{ q: searchText, subfield_id: filters.subfieldId || undefined,
       limit: 10 }] *)
Definition suggestOf (b : Box) : Suggest :=
  let sub := subfieldId (filters (panel b)) in
  {| q := searchText b;
     suggest_subfield_id := if truthyId sub then sub else None;
     limit := 10 |}.

(** The effect of the render of [b], after the cleanup of the one before. *)
Definition autocompleteEffect (b : Box) : Box :=
  let b := setTimer None b in
  if (String.length (searchText b) <? 2)%nat then
    setShowDropdown false (setAutocompleteOptions [] b)
  else
    setTimer (Some (suggestOf b)) (setIsLoadingAutocomplete true b).

(** [Object.is] on [number | null]. *)
Definition sameId (a b : option Z) : bool :=
  match a, b with
  | Some x, Some y => x =? y
  | None, None => true
  | _, _ => false
  end.

(** The dependencies [searchText, filters.subfieldId] are those of the
    render before. *)
Definition depsSame (before b : Box) : bool :=
  String.eqb (searchText before) (searchText b)
  && sameId (subfieldId (filters (panel before)))
            (subfieldId (filters (panel b))).

(** The render of [b] is committed after that of [before]. *)
Definition commit (before b : Box) : Box :=
  if depsSame before b then b else autocompleteEffect b.

Definition resetFilters (b : Box) : Box :=
  setShowDropdown false
    (setAutocompleteOptions []
       (setSearchText EmptyString
          (setPanel (NgramFilterPanel.resetFilters (panel b)) b))).

Definition handleNgramSelect (option : NgramOption) (b : Box) : Box :=
  setPanel (setNgram (Some option) (panel b))
    (setShowDropdown false (setSearchText (option_text option) b)).

(** [handleKeyDown] for the Enter key; [trimmed] is [searchText.trim()]. *)
Definition handleEnter (trimmed : string) (b : Box) : Box :=
  if String.eqb trimmed EmptyString then b
  else
    setShowDropdown false
      (setPanel
         (setNgram (Some {| option_id := 0; option_text := trimmed |}) (panel b))
         b).

Definition handleClearSearch (b : Box) : Box :=
  setPanel (setNgram None (panel b))
    (setShowDropdown false (setSearchText EmptyString b)).

(** The answer of [/v1/filters/ngram-text], [None] when it is rejected. *)
Definition onAnswer (reply : option (list NgramOption)) (b : Box) : Box :=
  match reply with
  | Some items =>
      setIsLoadingAutocomplete false
        (setShowDropdown (0 <? length items)%nat (setAutocompleteOptions items b))
  | None =>
      setIsLoadingAutocomplete false
        (setShowDropdown false (setAutocompleteOptions [] b))
  end.

(** The component as driven by its user, its timer and the server.
    [StartChange] and [EndChange] stand for the two date inputs and for the
    quick buttons Max, 1Y and YTD, which set these two values. *)
Inductive Event :=
| Select (ev : NgramFilterPanel.Event)
| StartChange (v : option string)
| EndChange (v : option string)
| SearchInput (text : string)
| NgramSelect (i : nat)
| KeyEnter (trimmed : string)
| KeyEscape
| ClearSearch
| Focus
| ClickOutside
| TimerFires
| Answer (i : nat) (reply : option (list NgramOption)).

(** One event: the component after it, the calls made on the parent and the
    suggestion requests sent.  A suggestion is clicked only while the list
    is shown, and the clear button only while it is rendered. *)
Definition step (b : Box) (ev : Event) : Box * list Callback * list Suggest :=
  match ev with
  | Select Reset => (commit b (resetFilters b), [], [])
  | Select sel =>
      let '(p, cbs) := handle (panel b) sel in
      (commit b (setPanel p b), cbs, [])
  | StartChange v =>
      if showTimePicker (panel b)
      then (setPanel (setStart v (panel b)) b, [], []) else (b, [], [])
  | EndChange v =>
      if showTimePicker (panel b)
      then (setPanel (setEnd v (panel b)) b, [], []) else (b, [], [])
  | SearchInput text => (commit b (setSearchText text b), [], [])
  | NgramSelect i =>
      if showDropdown b && negb (isLoadingAutocomplete b) then
        match autocompleteOptions b !! i with
        | Some option => (commit b (handleNgramSelect option b), [], [])
        | None => (b, [], [])
        end
      else (b, [], [])
  | KeyEnter trimmed => (commit b (handleEnter trimmed b), [], [])
  | KeyEscape => (setShowDropdown false b, [], [])
  | ClearSearch =>
      if negb (String.eqb (searchText b) EmptyString)
         || bool_decide (is_Some (ngram (filters (panel b))))
      then (commit b (handleClearSearch b), [], [])
      else (b, [], [])
  | Focus =>
      if (0 <? length (autocompleteOptions b))%nat
      then (setShowDropdown true b, [], []) else (b, [], [])
  | ClickOutside => (setShowDropdown false b, [], [])
  | TimerFires =>
      match debounceTimer b with
      | Some request =>
          (setAwaited (awaited b ++ [request]) (setTimer None b), [], [request])
      | None => (b, [], [])
      end
  | Answer i reply =>
      match awaited b !! i with
      | Some _ => (onAnswer reply (setAwaited (delete i (awaited b)) b), [], [])
      | None => (b, [], [])
      end
  end.

Fixpoint run (b : Box) (evs : list Event) : Box :=
  match evs with
  | [] => b
  | ev :: evs => run (fst (fst (step b ev))) evs
  end.

Inductive reachable (data : list Domain) : Box -> Prop :=
| reach_loaded tp tc s e : reachable data (boxOf (loaded data tp tc s e))
| reach_step b ev :
    reachable data b -> reachable data (fst (fst (step b ev))).

(** The ambiguous sub-state as the panel records it: the flag is set exactly
    when a pending name is recorded, and then no field is chosen and the
    pending name is the name shown for the subfield. *)
Definition pendingShape (p : Panel) : Prop :=
  (isSubfieldAmbiguous p = true <-> is_Some (ambiguousSubfieldInfo p))
  /\ (forall info, ambiguousSubfieldInfo p = Some info ->
        truthyId (fieldId (filters p)) = false
        /\ subfieldName (filters p) = Some (pendingName info)).

(** A timer that is set was set for the text and subfield of the box. *)
Definition timerCurrent (b : Box) : Prop :=
  forall request, debounceTimer b = Some request ->
    request = suggestOf b /\ (2 <= String.length (searchText b))%nat.

End NgramSearchBox.

(** ** A reference platform

    A small JSON printer and parser and a store that never overflows, to run
    the pages on concrete data.  Numbers are printed as decimals with at most
    17 digits after the point; exponents and escapes other than those of the
    quote and the backslash are not read. *)

Module Reference.

Definition quoteChar : ascii := ascii_of_nat 34.
Definition backslash : ascii := ascii_of_nat 92.

Fixpoint escape (s : string) : string :=
  match s with
  | EmptyString => EmptyString
  | String c rest =>
      if Ascii.eqb c quoteChar || Ascii.eqb c backslash
      then String backslash (String c (escape rest))
      else String c (escape rest)
  end.

Definition quote (s : string) : string :=
  String quoteChar (escape s ++ String quoteChar EmptyString).

(** [digits] decimals of [num / den], for [0 <= num < den]. *)
Fixpoint fraction (digits : nat) (num den : Z) : string :=
  match digits with
  | O => EmptyString
  | S digits' =>
      if num =? 0 then EmptyString
      else String (digitChar (10 * num / den))
             (fraction digits' ((10 * num) mod den) den)
  end.

Definition printNumber (q : Q) : string :=
  let n := Qnum q in
  let d := Z.pos (Qden q) in
  let a := Z.abs n in
  let sign := if n <? 0 then "-"%string else EmptyString in
  let whole := natToString (a / d) in
  if a mod d =? 0 then (sign ++ whole)%string
  else (sign ++ whole ++ "." ++ fraction 17 (a mod d) d)%string.

Fixpoint join (sep : string) (parts : list string) : string :=
  match parts with
  | [] => EmptyString
  | [x] => x
  | x :: rest => (x ++ sep ++ join sep rest)%string
  end.

Fixpoint print (v : json) : string :=
  match v with
  | JNull => "null"
  | JBool true => "true"
  | JBool false => "false"
  | JNum q => printNumber q
  | JStr s => quote s
  | JArr items =>
      ("[" ++ join "," ((fix each (l : list json) : list string :=
                           match l with
                           | [] => []
                           | x :: rest => print x :: each rest
                           end) items) ++ "]")%string
  | JObj props =>
      ("{" ++ join "," ((fix each (l : list (string * json)) : list string :=
                           match l with
                           | [] => []
                           | (k, x) :: rest =>
                               (quote k ++ ":" ++ print x)%string :: each rest
                           end) props) ++ "}")%string
  end.

(** [expect word s]: the rest of [s] after the prefix [word]. *)
Fixpoint expect (word s : string) : option string :=
  match word, s with
  | EmptyString, _ => Some s
  | String a word', String b s' => if Ascii.eqb a b then expect word' s' else None
  | _, EmptyString => None
  end.

(** The characters up to the closing quote. *)
Fixpoint readString (s : string) : option (string * string) :=
  match s with
  | EmptyString => None
  | String c rest =>
      if Ascii.eqb c quoteChar then Some (EmptyString, rest)
      else if Ascii.eqb c backslash then
        match rest with
        | String e rest' =>
            if Ascii.eqb e quoteChar || Ascii.eqb e backslash then
              match readString rest' with
              | Some (t, r) => Some (String e t, r)
              | None => None
              end
            else None
        | EmptyString => None
        end
      else
        match readString rest with
        | Some (t, r) => Some (String c t, r)
        | None => None
        end
  end.

(** A run of digits: its value, how many there are, and the rest. *)
Fixpoint readDigits (s : string) (acc : Z) (n : nat) : Z * nat * string :=
  match s with
  | String c rest =>
      match digitVal c with
      | Some d => readDigits rest (10 * acc + d) (S n)
      | None => (acc, n, s)
      end
  | EmptyString => (acc, n, s)
  end.

Definition readNumber (s : string) : option (Q * string) :=
  let '(negative, s) :=
    match s with
    | String "-" rest => (true, rest)
    | _ => (false, s)
    end in
  let '(whole, n, rest) := readDigits s 0 O in
  let signed (z : Z) := if negative : bool then - z else z in
  match n with
  | O => None
  | S _ =>
      match rest with
      | String "." rest' =>
          let '(all, m, rest'') := readDigits rest' whole O in
          match m with
          | O => None
          | S _ => Some (Qmake (signed all) (Z.to_pos (10 ^ Z.of_nat m)), rest'')
          end
      | _ => Some (inject_Z (signed whole), rest)
      end
  end.

Fixpoint parseValue (fuel : nat) (s : string) : option (json * string) :=
  match fuel with
  | O => None
  | S fuel' =>
      match trimStart s with
      | String "n" _ as t => r ← expect "null" t; Some (JNull, r)
      | String "t" _ as t => r ← expect "true" t; Some (JBool true, r)
      | String "f" _ as t => r ← expect "false" t; Some (JBool false, r)
      | String "[" rest =>
          match trimStart rest with
          | String "]" r => Some (JArr [], r)
          | _ => parseItems fuel' rest []
          end
      | String "{" rest =>
          match trimStart rest with
          | String "}" r => Some (JObj [], r)
          | _ => parseProps fuel' rest []
          end
      | String c rest as t =>
          if Ascii.eqb c quoteChar then
            '(str, r) ← readString rest; Some (JStr str, r)
          else
            '(q, r) ← readNumber t; Some (JNum q, r)
      | EmptyString => None
      end
  end
with parseItems (fuel : nat) (s : string) (acc : list json) : option (json * string) :=
  match fuel with
  | O => None
  | S fuel' =>
      '(v, rest) ← parseValue fuel' s;
      match trimStart rest with
      | String "," r => parseItems fuel' r (v :: acc)
      | String "]" r => Some (JArr (rev (v :: acc)), r)
      | _ => None
      end
  end
with parseProps (fuel : nat) (s : string) (acc : list (string * json)) : option (json * string) :=
  match fuel with
  | O => None
  | S fuel' =>
      match trimStart s with
      | String c rest =>
          if Ascii.eqb c quoteChar then
            '(key, rest) ← readString rest;
            match trimStart rest with
            | String ":" rest =>
                '(v, rest) ← parseValue fuel' rest;
                match trimStart rest with
                | String "," r => parseProps fuel' r ((key, v) :: acc)
                | String "}" r => Some (JObj (rev ((key, v) :: acc)), r)
                | _ => None
                end
            | _ => None
            end
          else None
      | EmptyString => None
      end
  end.

Definition parse (s : string) : option json :=
  '(v, rest) ← parseValue (S (String.length s)) s;
  match trimStart rest with
  | EmptyString => Some v
  | _ => None
  end.

Definition platform : Platform :=
  {| JSON_stringify := print; JSON_parse := parse;
     setItem_ok := fun _ _ => true |}.

End Reference.

(** ** Sample data *)

Module Sample.

Definition row (i : Z) (t : string) : FrequencyDashboardPage.NgramRow :=
  {| FrequencyDashboardPage.id := i; FrequencyDashboardPage.text := t;
     FrequencyDashboardPage.domain := "Physical Sciences";
     FrequencyDashboardPage.field := "Physics";
     FrequencyDashboardPage.subfield := "Theory";
     FrequencyDashboardPage.domain_id := 1;
     FrequencyDashboardPage.field_id := 2;
     FrequencyDashboardPage.subfield_id := 3;
     FrequencyDashboardPage.n_words := 1;
     FrequencyDashboardPage.df_ngram := 10;
     FrequencyDashboardPage.df_ngram_subfield := 5 |}.

Definition responseA : FrequencyDashboardPage.Response :=
  {| FrequencyDashboardPage.data := [row 1 "alpha"];
     FrequencyDashboardPage.total_pages := 4 |}.

Definition responseB : FrequencyDashboardPage.Response :=
  {| FrequencyDashboardPage.data := [row 2 "beta"; row 3 "gamma"];
     FrequencyDashboardPage.total_pages := 9 |}.

(** Two fields of different domains, each with a subfield named Theory. *)
Definition hierarchy : list NgramFilterPanel.Domain :=
  [ {| NgramFilterPanel.domain_id := 1;
       NgramFilterPanel.domain_name := "Life Sciences";
       NgramFilterPanel.fields :=
         [ {| NgramFilterPanel.field_id := 10;
              NgramFilterPanel.field_name := "Biology";
              NgramFilterPanel.subfields :=
                [ {| NgramFilterPanel.subfield_id := 100;
                     NgramFilterPanel.subfield_name := "Theory" |};
                  {| NgramFilterPanel.subfield_id := 101;
                     NgramFilterPanel.subfield_name := "Genetics" |} ] |} ] |};
    {| NgramFilterPanel.domain_id := 2;
       NgramFilterPanel.domain_name := "Physical Sciences";
       NgramFilterPanel.fields :=
         [ {| NgramFilterPanel.field_id := 20;
              NgramFilterPanel.field_name := "Physics";
              NgramFilterPanel.subfields :=
                [ {| NgramFilterPanel.subfield_id := 200;
                     NgramFilterPanel.subfield_name := "Theory" |};
                  {| NgramFilterPanel.subfield_id := 201;
                     NgramFilterPanel.subfield_name := "Optics" |} ] |} ] |} ].

Definition panel : NgramFilterPanel.Panel :=
  NgramFilterPanel.loaded hierarchy true true None None.

(** The panel after "Theory" of Biology is picked with no field chosen. *)
Definition ambiguousPanel : NgramFilterPanel.Panel :=
  NgramFilterPanel.onSubfieldChange (Some 100) panel.

(** "Theory" is picked with no field chosen, then "ge" is typed in the
    search box. *)
Definition typedWhileAmbiguous : NgramSearchBox.Box :=
  NgramSearchBox.run (NgramSearchBox.boxOf panel)
    [NgramSearchBox.Select (NgramFilterPanel.SubfieldChange (Some 100));
     NgramSearchBox.SearchInput "ge"].

Definition biologyTheory : NgramFilterPanel.FlatSubfield :=
  {| NgramFilterPanel.fs_id := 100; NgramFilterPanel.fs_name := "Theory";
     NgramFilterPanel.fs_field_id := 10;
     NgramFilterPanel.fs_field_name := "Biology";
     NgramFilterPanel.fs_domain_id := 1;
     NgramFilterPanel.fs_domain_name := "Life Sciences" |}.

Definition physicsTheory : NgramFilterPanel.FlatSubfield :=
  {| NgramFilterPanel.fs_id := 200; NgramFilterPanel.fs_name := "Theory";
     NgramFilterPanel.fs_field_id := 20;
     NgramFilterPanel.fs_field_name := "Physics";
     NgramFilterPanel.fs_domain_id := 2;
     NgramFilterPanel.fs_domain_name := "Physical Sciences" |}.

Definition physics : NgramFilterPanel.FlatField :=
  {| NgramFilterPanel.ff_id := 20; NgramFilterPanel.ff_name := "Physics";
     NgramFilterPanel.ff_subfields :=
       [ {| NgramFilterPanel.subfield_id := 200;
            NgramFilterPanel.subfield_name := "Theory" |};
         {| NgramFilterPanel.subfield_id := 201;
            NgramFilterPanel.subfield_name := "Optics" |} ];
     NgramFilterPanel.ff_domain_id := 2;
     NgramFilterPanel.ff_domain_name := "Physical Sciences" |}.

(** A voting session of user 7. *)
Definition user7 : BinaryVotingPage.StoredUser :=
  {| BinaryVotingPage.user_id := 7; BinaryVotingPage.username := "ada" |}.

Definition leftSeries : list Normalize.XY :=
  [Normalize.mkXY "2001" 0; Normalize.mkXY "2002" 1].

Definition rightSeries : list Normalize.XY :=
  [Normalize.mkXY "2001" 1; Normalize.mkXY "2002" 1].

Definition pair0 : BinaryVotingPage.NextPair :=
  {| BinaryVotingPage.next_total := 100; BinaryVotingPage.next_index := 0;
     BinaryVotingPage.next_left_id := 10; BinaryVotingPage.next_right_id := 11 |}.

Definition pair1 : BinaryVotingPage.NextPair :=
  {| BinaryVotingPage.next_total := 100; BinaryVotingPage.next_index := 1;
     BinaryVotingPage.next_left_id := 12; BinaryVotingPage.next_right_id := 13 |}.

(** First visit: the load effect finds an empty store. *)
Definition opened : BinaryVotingPage.Page :=
  BinaryVotingPage.startFresh (BinaryVotingPage.mount (Some user7) ∅).

(** The fetch effect brings pair 0. *)
Definition onPair0 : BinaryVotingPage.Page :=
  fst (BinaryVotingPage.fetchEffect Reference.platform
         (BinaryVotingPage.NextSeries pair0 leftSeries rightSeries) 1 opened).

(** The user picks the left chart ... *)
Definition pair0Chosen : BinaryVotingPage.Page :=
  BinaryVotingPage.selectChoice Reference.platform
    BinaryVotingPage.ChoiceLeft onPair0.

(** ... and presses Next: the vote is sent and pair 1 arrives. *)
Definition onPair1 : BinaryVotingPage.Page :=
  fst (BinaryVotingPage.onNext Reference.platform 5 true
         (BinaryVotingPage.NextSeries pair1 leftSeries rightSeries) 6
         pair0Chosen).

(** The same session as the events of the page: the load effect, the two
    answers to the fetch effect, the click on the left chart, the click on
    Next and the answers to its calls. *)
Definition toPair0 : list BinaryVotingPage.Event :=
  [BinaryVotingPage.Load 0;
   BinaryVotingPage.Settle 0 (BinaryVotingPage.PairNamed pair0) 1;
   BinaryVotingPage.Settle 0
     (BinaryVotingPage.SeriesFetched leftSeries rightSeries) 1;
   BinaryVotingPage.Select BinaryVotingPage.ChoiceLeft].

(** Next on pair 0: the vote is accepted, [fetchNext] asks for the next
    pair, the server names pair 1, and its two series arrive. *)
Definition nextClicked : list BinaryVotingPage.Event :=
  toPair0 ++
  [BinaryVotingPage.Next 5;
   BinaryVotingPage.Settle 0 BinaryVotingPage.VoteAccepted 6].

Definition pair1Named : list BinaryVotingPage.Event :=
  nextClicked ++
  [BinaryVotingPage.Settle 0 (BinaryVotingPage.PairNamed pair1) 6].

Definition toPair1 : list BinaryVotingPage.Event :=
  pair1Named ++
  [BinaryVotingPage.Settle 0
     (BinaryVotingPage.SeriesFetched leftSeries rightSeries) 6].

(** Next is clicked twice on pair 0 before the first vote is answered; then
    both votes are accepted, and the server names pair 1 to each of the two
    requests that follow. *)
Definition twoClicks : list BinaryVotingPage.Event :=
  toPair0 ++
  [BinaryVotingPage.Next 5;
   BinaryVotingPage.Next 6;
   BinaryVotingPage.Settle 0 BinaryVotingPage.VoteAccepted 7;
   BinaryVotingPage.Settle 1 BinaryVotingPage.VoteAccepted 7;
   BinaryVotingPage.Settle 0 (BinaryVotingPage.PairNamed pair1) 8;
   BinaryVotingPage.Settle 1 (BinaryVotingPage.PairNamed pair1) 8;
   BinaryVotingPage.Settle 0
     (BinaryVotingPage.SeriesFetched leftSeries rightSeries) 9;
   BinaryVotingPage.Settle 0
     (BinaryVotingPage.SeriesFetched rightSeries leftSeries) 9].

Definition firstVisit : BinaryVotingPage.Session :=
  BinaryVotingPage.startOn (Some user7) ∅.

(** The session after [evs], from the first visit. *)
Definition after (evs : list BinaryVotingPage.Event) : BinaryVotingPage.Session :=
  match BinaryVotingPage.run Reference.platform firstVisit evs with
  | BinaryVotingPage.Ran (s, _) => s
  | _ => firstVisit
  end.

(** The entry of pair 0 with the left chart chosen. *)
Definition entry0 : BinaryVotingPage.PairEntry :=
  {| BinaryVotingPage.index := 0; BinaryVotingPage.total := 100;
     BinaryVotingPage.left_id := 10; BinaryVotingPage.right_id := 11;
     BinaryVotingPage.leftData := Some leftSeries;
     BinaryVotingPage.rightData := Some rightSeries;
     BinaryVotingPage.leftNorm :=
       Some (fst (BinaryVotingPage.normalizePair leftSeries rightSeries));
     BinaryVotingPage.rightNorm :=
       Some (snd (BinaryVotingPage.normalizePair leftSeries rightSeries));
     BinaryVotingPage.choice := Some BinaryVotingPage.ChoiceLeft |}.

(** The vote for pair 0 as [onNext] sends it, given the response time. *)
Definition vote0 (rt : Z) : BinaryVotingPage.Request :=
  BinaryVotingPage.SubmitBinaryVote
    {| BinaryVotingPage.vote_user_id := 7; BinaryVotingPage.pair_index := 0;
       BinaryVotingPage.vote_left_id := 10; BinaryVotingPage.vote_right_id := 11;
       BinaryVotingPage.vote_choice := BinaryVotingPage.ChoiceLeft;
       BinaryVotingPage.rt_ms := rt |}.

(** The store of that session with an unreadable cursor. *)
Definition corruptStore : gmap string string :=
  <["position_7"%string := "abc"%string]> (BinaryVotingPage.localStorage onPair1).

(** The store of that session with [null] for the history. *)
Definition nullStore : gmap string string :=
  <["history_7"%string := "null"%string]> (BinaryVotingPage.localStorage onPair1).

Definition dashboard : FrequencyDashboardPage.Controller :=
  {| FrequencyDashboardPage.state := FrequencyDashboardPage.initial;
     FrequencyDashboardPage.inflight := [] |}.

End Sample.

(** Projections of a page built with the setters. *)
Ltac simpl_page :=
  cbn [BinaryVotingPage.setHistory BinaryVotingPage.setPos
       BinaryVotingPage.setDone BinaryVotingPage.setLoading
       BinaryVotingPage.setHistoryLoaded BinaryVotingPage.setRtStart
       BinaryVotingPage.setStorage BinaryVotingPage.startFresh
       BinaryVotingPage.mount BinaryVotingPage.user BinaryVotingPage.history
       BinaryVotingPage.pos BinaryVotingPage.done BinaryVotingPage.loading
       BinaryVotingPage.historyLoaded BinaryVotingPage.rtStartRef
       BinaryVotingPage.localStorage BinaryVotingPage.page
       BinaryVotingPage.pending BinaryVotingPage.startOn fst snd].

Tactic Notation "simpl_page" "in" hyp(H) :=
  cbn [BinaryVotingPage.setHistory BinaryVotingPage.setPos
       BinaryVotingPage.setDone BinaryVotingPage.setLoading
       BinaryVotingPage.setHistoryLoaded BinaryVotingPage.setRtStart
       BinaryVotingPage.setStorage BinaryVotingPage.startFresh
       BinaryVotingPage.mount BinaryVotingPage.user BinaryVotingPage.history
       BinaryVotingPage.pos BinaryVotingPage.done BinaryVotingPage.loading
       BinaryVotingPage.historyLoaded BinaryVotingPage.rtStartRef
       BinaryVotingPage.localStorage BinaryVotingPage.page
       BinaryVotingPage.pending BinaryVotingPage.startOn fst snd] in H.

(** ** What a voting session keeps *)

Module SessionSpec.
Import BinaryVotingPage.

(** The cursor is on a pair of the history, or the history is empty and the
    cursor is -1. *)
Definition cursorInRange (w : Page) : Prop :=
  (history w = [] /\ pos w = Int (-1) /\ current w = None)
  \/ exists z e, pos w = Int z /\ 0 <= z < Z.of_nat (length (history w))
       /\ history w !! Z.to_nat z = Some e /\ current w = Some e.

(** The same pair, whatever the choice. *)
Definition samePair (e e' : PairEntry) : Prop :=
  withChoice e' None = withChoice e None.

(** History, cursor, completion mark, user and store are the same. *)
Definition sameSession (w w' : Page) : Prop :=
  history w' = history w /\ pos w' = pos w /\ done w' = done w
  /\ user w' = user w /\ localStorage w' = localStorage w.

(** The server rejected the request for the next pair or for a series. *)
Definition rejected (reply : FetchReply) : Prop :=
  match reply with
  | NextRejected | FrequencyRejected _ => True
  | _ => False
  end.

(** The cursor is on the last pair of the history. *)
Definition onLastPair (w : Page) : Prop :=
  jsEq (pos w) (jsSub1 (jsLength (history w))) = true.

(** The history is empty, or the cursor [p] is on its last pair. *)
Definition atEnd (w : Page) (p : jsint) : Prop :=
  (length (history w) =? 0)%nat || jsEq p (jsSub1 (jsLength (history w))) = true.

(** The closure of a suspended function fits the history of the page: that
    of [onNext] holds its length and a cursor on one of its pairs, that of
    [fetchNext] a cursor at its end. *)
Definition closureFits (w : Page) (t : Task) : Prop :=
  match t with
  | AwaitSubmit p n =>
      n = length (history w) /\ exists z, p = Int z /\ 0 <= z < Z.of_nat n
  | AwaitNextPair p | AwaitSeries p _ => atEnd w p
  end.

(** Page and store agree, and at most one function is suspended, with a
    closure that fits. *)
Definition steady (P : Platform) (s : Session) : Prop :=
  consistent P (page s)
  /\ (pending s = []
      \/ (historyLoaded (page s) = true
          /\ exists t, pending s = [t] /\ closureFits (page s) t)).


End SessionSpec.

(** ** What the frequency dashboard keeps *)

Module DashboardSpec.
Import FrequencyDashboardPage.

(** The page as first rendered, before its effect has sent a request. *)
Definition mounted : Controller := {| state := initial; inflight := [] |}.

(** The newest request, while it is in flight. *)
Definition newest (c : Controller) : option Pending :=
  List.find (fun p => reqId p =? lastReqId (state c)) (inflight c).

(** The events of the page in a browser: its effect asks for page 1. *)
Definition fromPage (ev : Event) : Prop :=
  match ev with Fetch pageArg => pageArg = 1 | _ => True end.

(** The request asks for the page it captured, a page from 1 on, with 100
    rows. *)
Definition asksFromOne (p : Pending) : Prop :=
  1 <= pageArg p /\ param_page (sent p) = pageArg p
  /\ param_page_size (sent p) = 100.

(** The committed page and the page shown as pending are pages from 1 on,
    and so is the page of every request in flight. *)
Definition pagesFromOne (c : Controller) : Prop :=
  1 <= page (state c) /\ 1 <= pendingPage (state c)
  /\ Forall asksFromOne (inflight c).

(** The taxonomy ids of a request: subfield, field, domain. *)
Definition scopeSent (sub fld dom : option Z) (f : FilterState) : Prop :=
  match sub, fld, dom with
  | Some z, None, None => z <> 0 /\ subfieldId f = Some z
  | None, Some z, None =>
      z <> 0 /\ fieldId f = Some z /\ truthyId (subfieldId f) = false
  | None, None, Some z =>
      z <> 0 /\ domainId f = Some z /\ truthyId (subfieldId f) = false
      /\ truthyId (fieldId f) = false
  | None, None, None =>
      truthyId (subfieldId f) = false /\ truthyId (fieldId f) = false
      /\ truthyId (domainId f) = false
  | _, _, _ => False
  end.

(** The loading mark is set exactly while the newest request is in flight,
    the page shown as pending is the one that request asked for, and the
    requests in flight have distinct ids, none above the counter. *)
Definition loadingTracked (c : Controller) : Prop :=
  0 <= lastReqId (state c)
  /\ (isLoading (state c) = true <-> is_Some (newest c))
  /\ (forall p, newest c = Some p -> pendingPage (state c) = pageArg p)
  /\ Forall (fun p => 1 <= reqId p <= lastReqId (state c)) (inflight c)
  /\ List.NoDup (map reqId (inflight c)).

End DashboardSpec.

(** ** pages/BurstPage.tsx: the leaderboard effect and the pager *)

Module BurstLeaderboard.
Import BurstPage.

Record BurstBackendRow := {
  row_ngram_id : Z;
  row_text : string;
  row_n_words : Z;
  row_domain : option string;
  row_field : option string;
  row_subfield : option string;
  row_score : Q;
  row_normalized_score : option Q;
  row_num_bursts : option Z
}.

Record BurstBackendPagination := {
  pg_page : Z;
  pg_page_size : Z;
  pg_total_count : Z;
  pg_total_pages : Z;
  pg_has_next : bool;
  pg_has_previous : bool
}.

(** A fulfilled [getBurstLeaderboard]; [res.data] may be missing. *)
Record Response := {
  res_data : option (list BurstBackendRow);
  res_pagination : BurstBackendPagination
}.

Record BurstLeaderboardItem := {
  item_ngram_id : Z;
  item_ngram : string;
  item_domain : option string;
  item_field : option string;
  item_subfield : option string;
  item_n_words : Z;
  item_score : Q;
  item_normalized_score : Q;
  item_rank : Z;
  item_num_bursts : option Z
}.

(** The body of [rows.map((r, idx) => ...)]. *)
Definition mapRow (pg : BurstBackendPagination) (idx : nat)
    (r : BurstBackendRow) : BurstLeaderboardItem :=
  {| item_ngram_id := row_ngram_id r; item_ngram := row_text r;
     item_domain := row_domain r; item_field := row_field r;
     item_subfield := row_subfield r; item_n_words := row_n_words r;
     item_score := row_score r;
     item_normalized_score := default 0%Q (row_normalized_score r);
     item_rank := (pg_page pg - 1) * pg_page_size pg + (Z.of_nat idx + 1);
     item_num_bursts := row_num_bursts r |}.

(** [(res.data || []).map(...)] *)
Definition mapped (res : Response) : list BurstLeaderboardItem :=
  imap (mapRow (res_pagination res)) (default [] (res_data res)).

(** The state of the page that the effect and the pager read and write. *)
Record Board := {
  currentMethod : Method;
  view : State;
  loading : bool;
  error : option string;
  data : list BurstLeaderboardItem;
  pagination : option BurstBackendPagination
}.

Definition withView (s : State) (b : Board) : Board :=
  {| currentMethod := currentMethod b; view := s; loading := loading b;
     error := error b; data := data b; pagination := pagination b |}.

Definition withMethod (m : Method) (b : Board) : Board :=
  {| currentMethod := m; view := view b; loading := loading b;
     error := error b; data := data b; pagination := pagination b |}.

Definition withPage (p : Z) (s : State) : State :=
  {| filters := filters s; start := start s; end_ := end_ s;
     sortBy := sortBy s; sortOrder := sortOrder s; page := p |}.

(** One run of the effect: the query it sent, its [cancelled] flag, and
    whether its promise is still pending. *)
Record Effect := { query : Params; cancelled : bool; awaited : bool }.

(** The page with the runs of its effect, the newest first. *)
Record Controller := { board : Board; effects : list Effect }.

(** The cleanup of the previous run: [cancelled = true]. *)
Definition cleanup (effs : list Effect) : list Effect :=
  match effs with
  | e :: rest =>
      {| query := query e; cancelled := true; awaited := awaited e |} :: rest
  | [] => []
  end.

(** The effect body up to the call: [setLoading(true); setError(null);
    getBurstLeaderboard(queryParams)]. *)
Definition startEffect (c : Controller) : Controller :=
  let b := board c in
  {| board := {| currentMethod := currentMethod b; view := view b;
                 loading := true; error := None; data := data b;
                 pagination := pagination b |};
     effects := {| query := queryParams (currentMethod b) (view b);
                   cancelled := false; awaited := true |}
                :: cleanup (effects c) |}.

Definition mounted (m : Method) : Controller :=
  startEffect
    {| board := {| currentMethod := m; view := initial; loading := false;
                   error := None; data := []; pagination := None |};
       effects := [] |}.

Definition Method_eqb (a b : Method) : bool :=
  match a, b with macd, macd | kleinberg, kleinberg => true | _, _ => false end.

Definition SortOrder_eqb (a b : SortOrder) : bool :=
  match a, b with asc, asc | desc, desc => true | _, _ => false end.

Definition text_eqb (a b : option string) : bool :=
  match a, b with
  | Some x, Some y => String.eqb x y
  | None, None => true
  | _, _ => false
  end.

(** The dependencies of [queryParams] other than [filters], compared as
    React compares them. *)
Definition sameDeps (b b' : Board) : bool :=
  Method_eqb (currentMethod b) (currentMethod b')
  && (page (view b) =? page (view b'))
  && SortOrder_eqb (sortOrder (view b)) (sortOrder (view b'))
  && text_eqb (start (view b)) (start (view b'))
  && text_eqb (end_ (view b)) (end_ (view b')).

(** The render after a handler: the effect runs again when a dependency of
    [queryParams] has changed; [newFilters] tells that [filters] is now
    another object. *)
Definition rerender (newFilters : bool) (b' : Board) (c : Controller) : Controller :=
  let c' := {| board := b'; effects := effects c |} in
  if newFilters || negb (sameDeps (board c) b') then startEffect c' else c'.

(** [Apply] is a click on the Apply button of the filter panel, which calls
    [handleFilterChange] and [handleTimeChange] in one batch; the panel
    passes its own [filters] state, so a click after no change of the
    filters passes the object the page already holds: [ApplyAgain]. *)
Inductive Event :=
| SortChange (field : SortField)
| Apply (next : FilterState) (s e : option string)
| ApplyAgain (s e : option string)
| PrevPage
| NextPage
| Navigate (m : Method)
| Settle (i : nat) (res : option Response).

(** [disabled={!pagination || page <= 1}],
    [setPage((p) => Math.max(1, p - 1))] *)
Definition onPrevPage (c : Controller) : Controller :=
  let b := board c in
  match pagination b with
  | None => c
  | Some _ =>
      if page (view b) <=? 1 then c
      else rerender false
             (withView (withPage (Z.max 1 (page (view b) - 1)) (view b)) b) c
  end.

(** [disabled={!pagination || (pagination && page >= pagination.total_pages)}],
    [setPage((p) => pagination ? Math.min(pagination.total_pages, p + 1)
                               : p + 1)] *)
Definition onNextPage (c : Controller) : Controller :=
  let b := board c in
  match pagination b with
  | None => c
  | Some pg =>
      if pg_total_pages pg <=? page (view b) then c
      else rerender false
             (withView
                (withPage (Z.min (pg_total_pages pg) (page (view b) + 1))
                   (view b)) b) c
  end.

(** The [then], [catch] and [finally] of run [i] of the effect. *)
Definition settle (i : nat) (res : option Response) (c : Controller) : Controller :=
  match effects c !! i with
  | Some e =>
      if awaited e then
        let effs :=
          <[i := {| query := query e; cancelled := cancelled e;
                    awaited := false |}]> (effects c) in
        let b := board c in
        if cancelled e then {| board := b; effects := effs |}
        else
          match res with
          | Some r =>
              {| board := {| currentMethod := currentMethod b; view := view b;
                             loading := false; error := error b;
                             data := mapped r;
                             pagination := Some (res_pagination r) |};
                 effects := effs |}
          | None =>
              {| board := {| currentMethod := currentMethod b; view := view b;
                             loading := false;
                             error := Some "Failed to load leaderboard."%string;
                             data := data b; pagination := pagination b |};
                 effects := effs |}
          end
      else c
  | None => c
  end.

Definition handle (c : Controller) (ev : Event) : Controller :=
  let b := board c in
  match ev with
  | SortChange field =>
      rerender false (withView (handleSortChange field (view b)) b) c
  | Apply next s e =>
      rerender true
        (withView (handleTimeChange s e (handleFilterChange next (view b))) b) c
  | ApplyAgain s e =>
      rerender false
        (withView
           (handleTimeChange s e
              (handleFilterChange (filters (view b)) (view b))) b) c
  | PrevPage => onPrevPage c
  | NextPage => onNextPage c
  | Navigate m => rerender false (withMethod m b) c
  | Settle i res => settle i res c
  end.

Definition run (evs : list Event) (c : Controller) : Controller :=
  fold_left handle evs c.

(** The newest run of the effect is not cancelled, sent the query of the
    state shown, and is pending exactly while the page shows that it loads;
    every older run is cancelled. *)
Definition guarded (c : Controller) : Prop :=
  exists e older,
    effects c = e :: older
    /\ cancelled e = false
    /\ query e = queryParams (currentMethod (board c)) (view (board c))
    /\ loading (board c) = awaited e
    /\ Forall (fun o => cancelled o = true) older.

(** Every query asks for 50 rows of a page from 1 on. *)
Definition asksFromOne (e : Effect) : Prop :=
  1 <= param_page (query e) /\ param_page_size (query e) = 50.

End BurstLeaderboard.

(** Two pages of two rows each of a burst leaderboard. *)
Module BurstSample.
Import BurstLeaderboard.

Definition burstRow (i : Z) (t : string) (z : Q) : BurstBackendRow :=
  {| row_ngram_id := i; row_text := t; row_n_words := 2;
     row_domain := Some "Physical Sciences"%string; row_field := None;
     row_subfield := None; row_score := z;
     row_normalized_score := Some z; row_num_bursts := None |}.

Definition pageOf (p : Z) : BurstBackendPagination :=
  {| pg_page := p; pg_page_size := 2; pg_total_count := 4;
     pg_total_pages := 2; pg_has_next := p <? 2; pg_has_previous := 1 <? p |}.

Definition firstPage : Response :=
  {| res_data := Some [burstRow 31 "dark matter" 100; burstRow 32 "gene drive" 80];
     res_pagination := pageOf 1 |}.

Definition secondPage : Response :=
  {| res_data := Some [burstRow 33 "deep learning" 60; burstRow 34 "zika virus" 40];
     res_pagination := pageOf 2 |}.

End BurstSample.

(** ** components/NgramFilterPanel.tsx: what the selects offer *)

Module FilterSelects.
Import NgramFilterPanel.

Definition visibleSubfields (p : Panel) : list FlatSubfield :=
  List.filter
    (fun s =>
       if truthyId (fieldId (filters p))
       then idIs (fieldId (filters p)) (fs_field_id s)
       else if truthyId (domainId (filters p))
       then idIs (domainId (filters p)) (fs_domain_id s)
       else true)
    (allSubfields p).

(** A select reports its placeholder, [null], or the id of one of the
    options it shows. *)
Definition offered (p : Panel) (ev : Event) : Prop :=
  match ev with
  | DomainChange val =>
      val = None \/ exists d, In d (hierarchy p) /\ val = Some (domain_id d)
  | FieldChange val =>
      val = None \/ exists f, In f (visibleFields p) /\ val = Some (ff_id f)
  | SubfieldChange val =>
      val = None \/ exists s, In s (visibleSubfields p) /\ val = Some (fs_id s)
  | NWordsChange _ | Reset | Apply => True
  end.

(** The panel as its selects and buttons drive it. *)
Inductive driven (data : list Domain) : Panel -> Prop :=
| driven_loaded tp tc s e : driven data (loaded data tp tc s e)
| driven_handle p ev :
    driven data p -> offered p ev -> driven data (fst (handle p ev)).

(** The flat lists are those of the hierarchy, the ambiguity mark is set
    exactly while the candidates are held, and the candidates are the fields
    that have a subfield of the pending name. *)
Definition tracked (p : Panel) : Prop :=
  allSubfields p = flattenSubfields (allFields p)
  /\ (isSubfieldAmbiguous p = true <-> is_Some (ambiguousSubfieldInfo p))
  /\ (forall info, ambiguousSubfieldInfo p = Some info ->
        truthyId (fieldId (filters p)) = false
        /\ (exists s, In s (allSubfields p) /\ fs_name s = pendingName info)
        /\ forall fid, In fid (map cand_id (availableFields info)) <->
             exists s, In s (allSubfields p)
                       /\ fs_name s = pendingName info /\ fs_field_id s = fid).

(** The field chosen lies in the domain chosen, and the subfield chosen,
    unless it waits for its field, lies in the field chosen. *)
Definition coherent (p : Panel) : Prop :=
  (forall i, fieldId (filters p) = Some i -> i <> 0 ->
     exists f, In f (allFields p) /\ ff_id f = i
               /\ domainId (filters p) = Some (ff_domain_id f))
  /\ (isSubfieldAmbiguous p = false ->
      forall j, subfieldId (filters p) = Some j ->
        exists s, In s (allSubfields p) /\ fs_id s = j
                  /\ fieldId (filters p) = Some (fs_field_id s)).

End FilterSelects.

(** ** pages/SliderVotingPage.tsx: the values and their submission *)

Module SliderVotingPage.

Record StoredUser := { user_id : Z; username : string }.

Record SliderItem := {
  id : Z;
  text : string;
  frequency_data : list Normalize.XY
}.

(** The argument of [submitSliderVote]. *)
Record SliderVote := { vote_user_id : Z; ngram_id : Z; slider_value : Q }.

Record Page := {
  user : option StoredUser;
  sliderData : list SliderItem;
  sliderValues : gmap Z Q;
  submitted : bool
}.

(** [dataWithFrequency.reduce((acc, item) =>
       { acc[item.id] = savedValues[item.id] ?? 0; return acc; }, {})] *)
Definition initialSliderValues (savedValues : gmap Z Q)
    (dataWithFrequency : list SliderItem) : gmap Z Q :=
  fold_left (fun acc item => <[id item := default 0%Q (savedValues !! id item)]> acc)
    dataWithFrequency ∅.

(** [{ ...sliderValues, [ngramId]: value }], the state part of
    [handleSliderChange]. *)
Definition setSliderValue (ngramId : Z) (value : Q) (w : Page) : Page :=
  {| user := user w; sliderData := sliderData w;
     sliderValues := <[ngramId := value]> (sliderValues w);
     submitted := submitted w |}.

Definition voteOf (u : StoredUser) (values : gmap Z Q) (item : SliderItem) : SliderVote :=
  {| vote_user_id := user_id u; ngram_id := id item;
     slider_value := default 0%Q (values !! id item) |}.

(** The loop of [handleSubmitAll] from its call number [k] on: the calls
    made, and whether the loop came to its end.  [accepted k] tells whether
    call [k] is fulfilled; a rejected call ends the loop. *)
Fixpoint submitFrom (u : StoredUser) (values : gmap Z Q) (accepted : nat -> bool)
    (k : nat) (items : list SliderItem) : list SliderVote * bool :=
  match items with
  | [] => ([], true)
  | item :: rest =>
      if accepted k then
        let '(calls, finished) := submitFrom u values accepted (S k) rest in
        (voteOf u values item :: calls, finished)
      else ([voteOf u values item], false)
  end.

Definition handleSubmitAll (accepted : nat -> bool) (w : Page) : Page * list SliderVote :=
  match user w with
  | None => (w, [])
  | Some u =>
      let '(calls, finished) :=
        submitFrom u (sliderValues w) accepted 0 (sliderData w) in
      (if finished
       then {| user := user w; sliderData := sliderData w;
               sliderValues := sliderValues w; submitted := true |}
       else w,
       calls)
  end.

End SliderVotingPage.

(** Three charts of the slider page, the second with a saved value. *)
Module SliderSample.
Import SliderVotingPage.

Definition rater : StoredUser := {| user_id := 7; username := "ada" |}.

Definition charts : list SliderItem :=
  [ {| id := 41; text := "dark matter"; frequency_data := [] |};
    {| id := 42; text := "gene drive"; frequency_data := [] |};
    {| id := 43; text := "deep learning"; frequency_data := [] |} ].

Definition saved : gmap Z Q := {[ 42 := 55%Q ]}.

Definition opened : Page :=
  {| user := Some rater; sliderData := charts;
     sliderValues := initialSliderValues saved charts; submitted := false |}.

(** The first call is fulfilled, the second is rejected. *)
Definition secondFails (k : nat) : bool := (k <? 1)%nat.

End SliderSample.

(** ** components/FrequencyChart.tsx and BurstContributionChart.tsx

    Both charts compute the shaded window and the year ticks the same way.
    Dates are ISO dates ("YYYY-MM-DD"): texts of the ASCII range, on which
    the order of [<] in JavaScript is the order of [String.compare]. *)

Module FrequencyChart.

(** [a < b] and [a >= b] on strings. *)
Definition isoLT (a b : string) : bool := String.ltb a b.
Definition isoGTE (a b : string) : bool := negb (String.ltb a b).

(** A bound that is given: neither [null] nor the empty text. *)
Definition given (bound : option string) : option string :=
  match bound with
  | Some EmptyString => None
  | other => other
  end.

(** [const afterStart = intervalStart ? isoGTE(d, intervalStart) : true;
     const beforeEnd = intervalEnd ? isoLT(d, intervalEnd) : true;
     return afterStart && beforeEnd;] *)
Definition inWindow (intervalStart intervalEnd : option string) (d : string) : bool :=
  (match given intervalStart with Some s => isoGTE d s | None => true end)
  && (match given intervalEnd with Some e => isoLT d e | None => true end).

Definition included (intervalStart intervalEnd : option string)
    (dates : list string) : list string :=
  match given intervalStart, given intervalEnd with
  | None, None => []
  | _, _ => List.filter (inWindow intervalStart intervalEnd) dates
  end.

Definition nonEmpty (s : string) : bool :=
  match s with EmptyString => false | _ => true end.

(** The bounds [x1] and [x2] of the shaded band, when it is drawn:
    [showBand && x1 && x2]. *)
Definition band (intervalStart intervalEnd : option string)
    (dates : list string) : option (string * string) :=
  match included intervalStart intervalEnd dates with
  | [] => None
  | x1 :: rest =>
      let x2 := List.last rest x1 in
      if nonEmpty x1 && nonEmpty x2 then Some (x1, x2) else None
  end.

(** The dates never go down. *)
Definition ascending (dates : list string) : Prop :=
  StronglySorted (fun a b => isoGTE b a = true) dates.

End FrequencyChart.

(** The year ticks of both charts. *)
Module YearTicks.

(** [p.date.slice(0, 4)] *)
Definition year (date : string) : string := String.substring 0 4 date.

(** [`${y}-01-01`] *)
Definition jan1Of (y : string) : string := (y ++ "-01-01")%string.

Record Seen := {
  byYearFirstSeen : gmap string string;
  jan1Candidates : gmap string string
}.

(** The body of the loop over the rows, on the date of a row. *)
Definition see (t : Seen) (date : string) : Seen :=
  let y := year date in
  {| byYearFirstSeen :=
       match byYearFirstSeen t !! y with
       | Some _ => byYearFirstSeen t
       | None => <[y := date]> (byYearFirstSeen t)
       end;
     jan1Candidates :=
       if String.eqb date (jan1Of y) then <[y := jan1Of y]> (jan1Candidates t)
       else jan1Candidates t |}.

(** The order of [sort()] on texts. *)
Definition yearLe (a b : string) : Prop := String.leb a b = true.

#[global] Instance yearLe_dec : RelDecision yearLe :=
  fun a b => decide (String.leb a b = true).

(** [buildYearTicks], on the dates of the rows.  The keys of a [Map] come in
    the order they were set; [sort()] puts them in the one ascending order
    they have. *)
Definition buildYearTicks (dates : list string) : list string :=
  match dates with
  | [] => []
  | _ =>
      let t := fold_left see dates
                 {| byYearFirstSeen := ∅; jan1Candidates := ∅ |} in
      let years := merge_sort yearLe (map fst (map_to_list (byYearFirstSeen t))) in
      map (fun y =>
             match jan1Candidates t !! y with
             | Some jan1 => jan1
             | None => default EmptyString (byYearFirstSeen t !! y)
             end) years
  end.

(** The first date of year [y] among [dates]. *)
Definition firstOfYear (y : string) (dates : list string) : option string :=
  List.find (fun d => String.eqb (year d) y) dates.

(** What has been seen after the rows of [dates]. *)
Definition seenOf (dates : list string) (t : Seen) : Prop :=
  (forall y, byYearFirstSeen t !! y = firstOfYear y dates)
  /\ (forall y, jan1Candidates t !! y
                = if existsb (fun d => String.eqb (year d) y
                                       && String.eqb d (jan1Of y)) dates
                  then Some (jan1Of y) else None).

End YearTicks.

(** Quarters of two years, and a window on them. *)
Module ChartSample.

Definition quarters : list string :=
  ["2020-01-01"; "2020-04-01"; "2020-07-01"; "2020-10-01";
   "2021-01-01"; "2021-04-01"]%string.

Definition lateQuarters : list string :=
  ["2021-04-01"; "2020-07-01"; "2021-01-01"; "2020-10-01"]%string.

End ChartSample.

(** * Properties *)

(** * The pairwise normaliser *)

Section NormalizeFacts.
Import Normalize.
Local Open Scope Q_scope.

Lemma fold_max_ge_init (l : list Q) (a : Q) : a <= fold_left Qmax l a.
Proof.
  revert a; induction l as [|x l IH]; intros a; simpl.
  - apply Qle_refl.
  - eapply Qle_trans; [apply (Q.le_max_l a x)|apply IH].
Qed.

Lemma fold_max_ge_elem (l : list Q) (a x : Q) :
  In x l -> x <= fold_left Qmax l a.
Proof.
  revert a; induction l as [|y l IH]; intros a Hin; simpl in *.
  - contradiction.
  - destruct Hin as [->|Hin].
    + eapply Qle_trans; [apply (Q.le_max_r a x)|apply fold_max_ge_init].
    + apply IH, Hin.
Qed.

Lemma fold_max_zero (l : list Q) (a : Q) :
  a == 0 -> Forall (fun x => x == 0) l -> fold_left Qmax l a == 0.
Proof.
  revert a; induction l as [|y l IH]; intros a Ha Hl; simpl.
  - exact Ha.
  - inversion Hl as [|? ? Hy Hl']; subst. apply IH; [|exact Hl'].
    destruct (Q.max_spec a y) as [[_ ->]|[_ ->]]; assumption.
Qed.

Lemma maxCount_nonneg series : 0 <= maxCount series.
Proof. apply fold_max_ge_init. Qed.

Lemma maxCount_ge series p : In p series -> count p <= maxCount series.
Proof. intros Hin. apply fold_max_ge_elem, in_map, Hin. Qed.

Lemma maxBoth_nonneg l r : 0 <= maxBoth l r.
Proof. apply Q.le_max_r. Qed.

Lemma maxBoth_ge_left l r p : In p l -> count p <= maxBoth l r.
Proof.
  intros Hin. unfold maxBoth.
  eapply Qle_trans; [apply (maxCount_ge _ _ Hin)|].
  eapply Qle_trans; [apply Q.le_max_l|apply Q.le_max_l].
Qed.

Lemma maxBoth_ge_right l r p : In p r -> count p <= maxBoth l r.
Proof.
  intros Hin. unfold maxBoth.
  eapply Qle_trans; [apply (maxCount_ge _ _ Hin)|].
  eapply Qle_trans; [apply Q.le_max_r|apply Q.le_max_l].
Qed.

Lemma maxBoth_allZero l r : allZero l -> allZero r -> maxBoth l r == 0.
Proof.
  intros Hl Hr. unfold maxBoth.
  assert (Hz : forall s, allZero s -> maxCount s == 0).
  { intros s Hs. apply fold_max_zero; [reflexivity|].
    induction Hs; simpl; constructor; auto. }
  destruct (Q.max_spec (Qmax (maxCount l) (maxCount r)) 0) as [[_ ->]|[_ ->]];
    [reflexivity|].
  destruct (Q.max_spec (maxCount l) (maxCount r)) as [[_ ->]|[_ ->]]; auto.
Qed.

Lemma safeDiv_zero a b : b == 0 -> safeDiv a b = 0.
Proof.
  intros Hb. unfold safeDiv. apply Qeq_bool_iff in Hb. now rewrite Hb.
Qed.

Lemma safeDiv_unit a b : 0 <= a -> a <= b -> 0 <= safeDiv a b <= 1.
Proof.
  intros Ha Hab. unfold safeDiv.
  destruct (Qeq_bool b 0) eqn:Hb.
  - split; [apply Qle_refl|discriminate].
  - assert (Hpos : 0 < b).
    { apply Qeq_bool_neq in Hb. apply Qle_lteq in Hab.
      destruct (Qle_lteq 0 b) as [H _].
      destruct (H (Qle_trans _ _ _ Ha (proj2 (Qle_lteq a b) Hab))) as [Hlt|Heq];
        [exact Hlt|]. exfalso. apply Hb. symmetry. exact Heq. }
    split.
    + apply Qle_shift_div_l; [exact Hpos|]. now rewrite Qmult_0_l.
    + apply Qle_shift_div_r; [exact Hpos|]. now rewrite Qmult_1_l.
Qed.

Lemma Forall_map_in {A B} (P : B -> Prop) (f : A -> B) (l : list A) :
  (forall x, In x l -> P (f x)) -> Forall P (map f l).
Proof.
  induction l as [|x l IH]; intros H; simpl; constructor.
  - apply H. now left.
  - apply IH. intros y Hy. apply H. now right.
Qed.

Lemma Forall2_map_in {A B} (R : B -> B -> Prop) (f g : A -> B) (l : list A) :
  (forall x, In x l -> R (f x) (g x)) -> Forall2 R (map f l) (map g l).
Proof.
  induction l as [|x l IH]; intros H; simpl; constructor.
  - apply H. now left.
  - apply IH. intros y Hy. apply H. now right.
Qed.

Lemma nonNegative_in series p : nonNegative series -> In p series -> 0 <= count p.
Proof.
  intros H Hin. unfold nonNegative in H. rewrite Forall_forall in H.
  apply H. apply list_elem_of_In. exact Hin.
Qed.

Lemma normalizePair_zero_max left right :
  maxBoth left right == 0 ->
  exactlyZero (fst (normalizePair left right))
  /\ exactlyZero (snd (normalizePair left right)).
Proof.
  intros Hz. unfold normalizePair, exactlyZero; simpl.
  split; apply Forall_map_in; intros p _; simpl; apply safeDiv_zero, Hz.
Qed.

(** C3, as the code has it: on series whose counts are not negative every
    count of both outputs of [normalizePair] lies in [0,1]; and on any input,
    when [maxBoth] is 0 (so in particular when every input count is zero)
    every output count is exactly 0. *)
Theorem normalizePair_counts_in_unit_interval (left right : list XY) :
  (nonNegative left -> nonNegative right ->
   Forall inUnit (fst (normalizePair left right))
   /\ Forall inUnit (snd (normalizePair left right)))
  /\ (maxBoth left right == 0 ->
      exactlyZero (fst (normalizePair left right))
      /\ exactlyZero (snd (normalizePair left right)))
  /\ (allZero left -> allZero right ->
      exactlyZero (fst (normalizePair left right))
      /\ exactlyZero (snd (normalizePair left right))).
Proof.
  split; [|split].
  - intros Hl Hr. unfold normalizePair; simpl.
    split; apply Forall_map_in; intros p Hin; unfold inUnit; simpl;
      apply safeDiv_unit.
    + exact (nonNegative_in _ _ Hl Hin).
    + exact (maxBoth_ge_left _ _ _ Hin).
    + exact (nonNegative_in _ _ Hr Hin).
    + exact (maxBoth_ge_right _ _ _ Hin).
  - apply normalizePair_zero_max.
  - intros Hl Hr. apply normalizePair_zero_max, maxBoth_allZero; assumption.
Qed.

Lemma normalizePair_counts_in_unit_interval_witness :
  (Forall inUnit (fst (normalizePair [mkXY "2001" 1; mkXY "2002" 3] [mkXY "2001" 2]))
   /\ Forall inUnit (snd (normalizePair [mkXY "2001" 1; mkXY "2002" 3] [mkXY "2001" 2])))
  /\ (exactlyZero (fst (normalizePair [mkXY "2001" 0; mkXY "2002" 0] [mkXY "2001" 0]))
      /\ exactlyZero (snd (normalizePair [mkXY "2001" 0; mkXY "2002" 0] [mkXY "2001" 0])))
  /\ (exactlyZero (fst (normalizePair [mkXY "2001" 0] []))
      /\ exactlyZero (snd (normalizePair [mkXY "2001" 0] []))).
Proof.
  split; [|split].
  - apply (proj1 (normalizePair_counts_in_unit_interval
                    [mkXY "2001" 1; mkXY "2002" 3] [mkXY "2001" 2]));
      repeat constructor; simpl; discriminate.
  - apply (proj1 (proj2 (normalizePair_counts_in_unit_interval
                           [mkXY "2001" 0; mkXY "2002" 0] [mkXY "2001" 0]))).
    reflexivity.
  - apply (proj2 (proj2 (normalizePair_counts_in_unit_interval
                           [mkXY "2001" 0] [])));
      repeat constructor.
Defined.

(** C3 as stated fails: a negative count leaves the unit interval. *)
Lemma normalizePair_negative_count_escapes :
  ~ Forall inUnit (fst (normalizePair [mkXY "2001" (-1)] [mkXY "2001" 2])).
Proof.
  intros H. inversion H as [|p l [Hlo _] _]; subst.
  vm_compute in Hlo. apply Hlo. reflexivity.
Qed.

(** C10: on series whose counts are not negative the page-local
    [normalizePair] of the voting page and the shared one of
    [utils/normalize.ts] return the same series, point by point. *)
Theorem normalizePair_implementations_agree (left right : list XY) :
  nonNegative left -> nonNegative right ->
  sameSeries (fst (BinaryVotingPage.normalizePair left right))
             (fst (normalizePair left right))
  /\ sameSeries (snd (BinaryVotingPage.normalizePair left right))
                (snd (normalizePair left right)).
Proof.
  intros Hl Hr.
  unfold BinaryVotingPage.normalizePair, normalizePair, sameSeries; simpl.
  fold (maxBoth left right).
  assert (Hsame : forall p, 0 <= count p -> count p <= maxBoth left right ->
            count (withCount p (BinaryVotingPage.safeDiv (count p)
                     (if Qeq_bool (maxBoth left right) 0 then 1 else maxBoth left right)))
            == count (withCount p (safeDiv (count p) (maxBoth left right)))).
  { intros p Hp Hle. simpl. unfold BinaryVotingPage.safeDiv, safeDiv.
    destruct (Qeq_bool (maxBoth left right) 0) eqn:Hm.
    - apply Qeq_bool_iff in Hm. simpl.
      assert (Hc : count p == 0).
      { apply Qle_antisym; [|exact Hp]. now rewrite <- Hm. }
      rewrite Hc. reflexivity.
    - rewrite Hm. reflexivity. }
  split; apply Forall2_map_in; intros p Hin; (split; [reflexivity|]);
    apply Hsame.
  - exact (nonNegative_in _ _ Hl Hin).
  - exact (maxBoth_ge_left _ _ _ Hin).
  - exact (nonNegative_in _ _ Hr Hin).
  - exact (maxBoth_ge_right _ _ _ Hin).
Qed.

Lemma normalizePair_implementations_agree_witness :
  sameSeries
    (fst (BinaryVotingPage.normalizePair [mkXY "2001" 1; mkXY "2002" 0] [mkXY "2001" 4]))
    (fst (normalizePair [mkXY "2001" 1; mkXY "2002" 0] [mkXY "2001" 4]))
  /\ sameSeries
    (snd (BinaryVotingPage.normalizePair [mkXY "2001" 1; mkXY "2002" 0] [mkXY "2001" 4]))
    (snd (normalizePair [mkXY "2001" 1; mkXY "2002" 0] [mkXY "2001" 4])).
Proof.
  apply (normalizePair_implementations_agree
           [mkXY "2001" 1; mkXY "2002" 0] [mkXY "2001" 4]);
    repeat constructor; simpl; discriminate.
Defined.

(** Without the restriction the two differ: all counts negative or zero make
    [maxBoth] zero, and the page-local version then returns the counts
    unchanged where the shared one returns zeros. *)
Lemma normalizePair_implementations_differ_on_negative :
  ~ sameSeries (fst (BinaryVotingPage.normalizePair [mkXY "2001" (-1)] []))
               (fst (normalizePair [mkXY "2001" (-1)] [])).
Proof.
  intros H. inversion H as [|? ? ? ? [_ Hc] _]; subst.
  vm_compute in Hc. discriminate Hc.
Qed.

End NormalizeFacts.

(** * The leaderboard query controller *)

Section DashboardFacts.
Import FrequencyDashboardPage.

Lemma call_lastReqId pageArg c :
  lastReqId (state (call pageArg c)) = lastReqId (state c) + 1.
Proof. reflexivity. Qed.

Lemma settle_lastReqId rid res c :
  lastReqId (state (settle rid res c)) = lastReqId (state c).
Proof.
  unfold settle. destruct (List.find _ _) as [p|]; [|reflexivity]. simpl.
  unfold fetchLeaderboard_resume.
  destruct res as [res|]; destruct (reqId p =? lastReqId (state c)); reflexivity.
Qed.

(** The counter never decreases. *)
Lemma handle_lastReqId_mono c ev :
  lastReqId (state c) <= lastReqId (state (handle c ev)).
Proof.
  destruct ev; cbn [handle]; try (rewrite call_lastReqId; simpl; lia).
  - unfold handlePrevPage.
    match goal with |- context [if ?b then _ else _] => destruct b end;
      [lia|rewrite call_lastReqId; lia].
  - unfold handleNextPage.
    match goal with |- context [if ?b then _ else _] => destruct b end;
      [lia|rewrite call_lastReqId; lia].
  - rewrite call_lastReqId. simpl. unfold handleSortChange.
    destruct (String.eqb _ _); simpl; lia.
  - rewrite settle_lastReqId. lia.
Qed.

Lemma run_lastReqId_mono evs c :
  lastReqId (state c) <= lastReqId (state (run evs c)).
Proof.
  revert c; induction evs as [|ev evs IH]; intros c; simpl; [lia|].
  etransitivity; [apply (handle_lastReqId_mono c ev)|apply IH].
Qed.

Lemma find_filter_other (rid b : Z) (l : list Pending) :
  rid <> b ->
  List.find (fun p => reqId p =? b) (List.filter (fun p => negb (reqId p =? rid)) l)
  = List.find (fun p => reqId p =? b) l.
Proof.
  intros Hne. induction l as [|p l IH]; simpl; [reflexivity|].
  destruct (reqId p =? rid) eqn:Hr; simpl.
  - apply Z.eqb_eq in Hr.
    destruct (reqId p =? b) eqn:Hb; [apply Z.eqb_eq in Hb; lia|exact IH].
  - destruct (reqId p =? b); [reflexivity|exact IH].
Qed.

Lemma find_filter_same (b : Z) (l : list Pending) :
  List.find (fun p => reqId p =? b) (List.filter (fun p => negb (reqId p =? b)) l)
  = None.
Proof.
  induction l as [|p l IH]; simpl; [reflexivity|].
  destruct (reqId p =? b) eqn:Hb; simpl; [exact IH|]. now rewrite Hb.
Qed.

Lemma find_reqId (rid : Z) (l : list Pending) p :
  List.find (fun p => reqId p =? rid) l = Some p -> reqId p = rid.
Proof.
  intros H. apply find_some in H as [_ H]. now apply Z.eqb_eq.
Qed.

Lemma settle_inflight_other rid res c b :
  rid <> b ->
  List.find (fun p => reqId p =? b) (inflight (settle rid res c))
  = List.find (fun p => reqId p =? b) (inflight c).
Proof.
  intros Hne. unfold settle.
  destruct (List.find (fun p => reqId p =? rid) (inflight c)); simpl;
    [now apply find_filter_other|reflexivity].
Qed.

(** The guard: a response whose request id is not the current value of the
    counter changes nothing at all. *)
Lemma settle_stale rid res c :
  rid <> lastReqId (state c) -> state (settle rid res c) = state c.
Proof.
  intros Hne. unfold settle.
  destruct (List.find _ _) as [p|] eqn:Hf; [|reflexivity]. simpl.
  apply find_reqId in Hf. unfold fetchLeaderboard_resume.
  destruct res as [res|];
    (destruct (reqId p =? lastReqId (state c)) eqn:He;
     [apply Z.eqb_eq in He; lia|reflexivity]).
Qed.

Lemma settled_run b after c :
  forallb isSettle after = true -> settled b c ->
  shown (state (run after c)) = shown (state c).
Proof.
  revert c; induction after as [|ev after IH]; intros c Hall Hs; [reflexivity|].
  simpl in Hall. apply andb_true_iff in Hall as [Hev Hall].
  destruct ev as [| | | | |rid res]; try discriminate. simpl.
  destruct Hs as [Hlast Hnone].
  assert (Hstate : shown (state (settle rid res c)) = shown (state c)
                   /\ settled b (settle rid res c)).
  { destruct (Z.eq_dec rid b) as [->|Hne].
    - unfold settle. rewrite Hnone. split; [reflexivity|]. now split.
    - split; [now rewrite settle_stale by lia|]. split.
      + now rewrite settle_lastReqId.
      + now rewrite settle_inflight_other. }
  destruct Hstate as [Hshown Hs']. rewrite <- Hshown. now apply IH.
Qed.

Lemma awaiting_run b pB after c :
  forallb isSettle after = true -> awaiting b pB c ->
  shown (state (run after c)) =
    match firstSettle b after with
    | Some (Some resB) => (data resB, pB, total_pages resB)
    | _ => shown (state c)
    end.
Proof.
  revert c; induction after as [|ev after IH]; intros c Hall Ha; [reflexivity|].
  simpl in Hall. apply andb_true_iff in Hall as [Hev Hall].
  destruct ev as [| | | | |rid res]; try discriminate. simpl.
  destruct Ha as [Hlast (p & Hfind & Hpage)].
  destruct (rid =? b) eqn:Hrid.
  - apply Z.eqb_eq in Hrid. subst rid.
    assert (Hs : settled b (settle b res c)).
    { split; [now rewrite settle_lastReqId|].
      unfold settle. rewrite Hfind. simpl. apply find_filter_same. }
    rewrite (settled_run b after _ Hall Hs).
    unfold settle. rewrite Hfind. simpl. unfold fetchLeaderboard_resume.
    pose proof (find_reqId _ _ _ Hfind) as Hid.
    destruct res as [res|].
    + rewrite Hid, Hlast, Z.eqb_refl. simpl. now rewrite Hpage.
    + rewrite Hid, Hlast, Z.eqb_refl. reflexivity.
  - apply Z.eqb_neq in Hrid.
    assert (Ha' : awaiting b pB (settle rid res c)).
    { split; [now rewrite settle_lastReqId|]. exists p. split; [|exact Hpage].
      now rewrite settle_inflight_other. }
    rewrite (IH _ Hall Ha'). now rewrite settle_stale by lia.
Qed.

Lemma call_awaiting pB c : awaiting (lastReqId (state c) + 1) pB (call pB c).
Proof.
  split; [reflexivity|]. simpl. rewrite Z.eqb_refl. eexists. split; reflexivity.
Qed.

(** C1: request A is issued, then (after any other events) request B, and
    after B only responses arrive, in any order.  The request id of A is then
    smaller than that of B; once the response of B has arrived the committed
    rows, page and page count are those of B, whatever arrived for A and
    whenever; and as long as it has not, they are what they were when B was
    issued.  A response is applied only if its request id is still the value
    of the counter. *)
Theorem stale_response_guard (c : Controller) (pA pB : Z)
    (between after : list Event) :
  forallb isSettle after = true ->
  let cA := call pA c in
  let a := lastReqId (state cA) in
  let cB := call pB (run between cA) in
  let b := lastReqId (state cB) in
  let final := state (run after cB) in
  a < b
  /\ shown final =
       match firstSettle b after with
       | Some (Some resB) => (data resB, pB, total_pages resB)
       | _ => shown (state cB)
       end
  /\ (forall rid res c', rid <> lastReqId (state c') ->
        state (settle rid res c') = state c').
Proof.
  intros Hall cA a cB b final. split; [|split].
  - subst a b cB. rewrite call_lastReqId.
    pose proof (run_lastReqId_mono between cA). lia.
  - subst final b cB. rewrite call_lastReqId.
    apply awaiting_run; [exact Hall|apply call_awaiting].
  - intros rid res c'. apply settle_stale.
Qed.

Lemma stale_response_guard_witness :
  1 < 2
  /\ shown (state (run [Settle 2 (Some Sample.responseB);
                        Settle 1 (Some Sample.responseA)]
                     (call 3 (run [] (call 2 Sample.dashboard)))))
     = (data Sample.responseB, 3, total_pages Sample.responseB)
  /\ (forall rid res c', rid <> lastReqId (state c') ->
        state (settle rid res c') = state c').
Proof.
  apply (stale_response_guard Sample.dashboard 2 3 []
           [Settle 2 (Some Sample.responseB); Settle 1 (Some Sample.responseA)]).
  reflexivity.
Defined.

End DashboardFacts.

(** * Sorting *)

Section SortFacts.

Lemma dashboard_sort_same_field_flips (s : FrequencyDashboardPage.State) :
  let s' := FrequencyDashboardPage.handleSortChange (FrequencyDashboardPage.sortBy s) s in
  FrequencyDashboardPage.sortBy s' = FrequencyDashboardPage.sortBy s
  /\ FrequencyDashboardPage.sortOrder s' = flipOrder (FrequencyDashboardPage.sortOrder s).
Proof.
  unfold FrequencyDashboardPage.handleSortChange. rewrite String.eqb_refl.
  split; reflexivity.
Qed.

(** On the frequency dashboard every newly chosen field starts descending. *)
Lemma dashboard_sort_new_field_descends (field : string)
    (s : FrequencyDashboardPage.State) :
  field <> FrequencyDashboardPage.sortBy s ->
  let s' := FrequencyDashboardPage.handleSortChange field s in
  FrequencyDashboardPage.sortBy s' = field
  /\ FrequencyDashboardPage.sortOrder s' = desc.
Proof.
  intros Hne. unfold FrequencyDashboardPage.handleSortChange.
  destruct (String.eqb field (FrequencyDashboardPage.sortBy s)) eqn:He.
  - apply String.eqb_eq in He. contradiction.
  - split; reflexivity.
Qed.

Lemma SortField_eqb_eq (a b : BurstPage.SortField) :
  BurstPage.SortField_eqb a b = true <-> a = b.
Proof. destruct a, b; simpl; split; congruence. Qed.

Lemma burst_sort_same_field_flips (s : BurstPage.State) :
  let s' := BurstPage.handleSortChange (BurstPage.sortBy s) s in
  BurstPage.sortBy s' = BurstPage.sortBy s
  /\ BurstPage.sortOrder s' = flipOrder (BurstPage.sortOrder s)
  /\ BurstPage.page s' = 1.
Proof.
  unfold BurstPage.handleSortChange.
  rewrite (proj2 (SortField_eqb_eq _ _) eq_refl). repeat split.
Qed.

(** On the burst page a new field starts ascending when it is the text of
    the n-gram and descending when it is a score. *)
Lemma burst_sort_new_field_default (field : BurstPage.SortField)
    (s : BurstPage.State) :
  field <> BurstPage.sortBy s ->
  let s' := BurstPage.handleSortChange field s in
  BurstPage.sortBy s' = field
  /\ BurstPage.sortOrder s' = (if BurstPage.isLexical field then asc else desc)
  /\ BurstPage.page s' = 1.
Proof.
  intros Hne. unfold BurstPage.handleSortChange.
  destruct (BurstPage.SortField_eqb field (BurstPage.sortBy s)) eqn:He.
  - apply SortField_eqb_eq in He. contradiction.
  - destruct field; repeat split.
Qed.

(** C6 at the input where the code departs from it: on the frequency
    dashboard, sorted by the count [df_ngram], choosing the text column
    [domain] makes it the sort field with direction descending, although the
    column is lexical; the same change on the burst page (a score field
    active, the text field [ngram] chosen) gives ascending. *)
Theorem dashboard_sort_lexical_field_descends :
  let s0 := FrequencyDashboardPage.handleSortChange "df_ngram"
              FrequencyDashboardPage.initial in
  let s := FrequencyDashboardPage.handleSortChange "domain" s0 in
  FrequencyDashboardPage.isLexical "domain" = true
  /\ FrequencyDashboardPage.sortBy s0 = "df_ngram"%string
  /\ FrequencyDashboardPage.sortBy s = "domain"%string
  /\ FrequencyDashboardPage.sortOrder s = desc
  /\ BurstPage.isLexical BurstPage.ngram = true
  /\ BurstPage.sortOrder
       (BurstPage.handleSortChange BurstPage.ngram BurstPage.initial) = asc.
Proof. repeat split. Qed.

End SortFacts.

(** * The taxonomy filter *)

Section PanelFacts.
Import NgramFilterPanel.

(** Outside the ambiguous sub-state Apply does call the parent. *)
Lemma applyFilters_calls_when_unambiguous (p : Panel) :
  isSubfieldAmbiguous p = false ->
  exists rest, applyFilters p = OnFilterChange (filters p) :: rest.
Proof.
  intros H. unfold applyFilters. rewrite H. eexists. reflexivity.
Qed.

(** In every reachable panel the flag is set exactly when a pending name is
    recorded, and then no field is chosen and the pending name is the name
    shown for the subfield. *)
Lemma reachable_ambiguous_shape data p :
  reachable data p ->
  (isSubfieldAmbiguous p = true <-> is_Some (ambiguousSubfieldInfo p))
  /\ (forall info, ambiguousSubfieldInfo p = Some info ->
        truthyId (fieldId (filters p)) = false
        /\ subfieldName (filters p) = Some (pendingName info)).
Proof.
  induction 1 as [tp tc st e|p ev Hreach [IHflag IHinfo]].
  - simpl. split; [split; [discriminate|intros [? ?]; discriminate]|].
    intros info Hinfo. discriminate.
  - destruct ev as [val|val|val|val| |]; simpl.
    + split; [split; [discriminate|intros [? ?]; discriminate]|discriminate].
    + unfold onFieldChange.
      destruct (isSubfieldAmbiguous p), (ambiguousSubfieldInfo p),
        (List.find _ (allFields p)); simpl;
        (split; [split; [discriminate|intros [? ?]; discriminate]|discriminate]).
    + unfold onSubfieldChange.
      destruct (List.find _ (allSubfields p)) as [sel|]; simpl.
      * destruct ((1 <? _)%nat && negb (truthyId (fieldId (filters p)))) eqn:Hamb;
          simpl.
        -- split; [split; [eauto|reflexivity]|].
           intros info [= <-]. simpl. apply andb_true_iff in Hamb as [_ Hf].
           split; [now apply negb_true_iff in Hf|reflexivity].
        -- split; [split; [discriminate|intros [? ?]; discriminate]|discriminate].
      * split; [split; [discriminate|intros [? ?]; discriminate]|discriminate].
    + split; [exact IHflag|]. intros info Hinfo. apply (IHinfo info Hinfo).
    + split; [split; [discriminate|intros [? ?]; discriminate]|discriminate].
    + split; assumption.
Qed.

(** [findIndex] returns the position of an element exactly when the
    element satisfies the predicate and nothing before it does. *)
Lemma findIndex_first {A} (pred : A -> bool) (pre : list A) (x : A) (rest : list A) :
  findIndex pred (pre ++ x :: rest) = Some (length pre)
  <-> pred x = true /\ Forall (fun y => pred y = false) pre.
Proof.
  induction pre as [|y pre IH]; simpl.
  - destruct (pred x); split.
    + intros _. split; [reflexivity|constructor].
    + reflexivity.
    + destruct (findIndex pred rest); discriminate.
    + intros [? _]. discriminate.
  - destruct (pred y) eqn:Hy; split.
    + discriminate.
    + intros [_ Hall]. inversion Hall; congruence.
    + intros H.
      assert (Hi : findIndex pred (pre ++ x :: rest) = Some (length pre)).
      { destruct (findIndex pred (pre ++ x :: rest)); simpl in H; congruence. }
      apply IH in Hi as [Hx Hpre].
      split; [exact Hx|constructor; assumption].
    + intros [Hx Hall]. inversion Hall; subst.
      rewrite (proj2 IH); [reflexivity|]. split; assumption.
Qed.

Lemma keepsFirst_spec (pre : list Candidate) (x : Candidate) (rest : list Candidate) :
  keepsFirst (pre ++ x :: rest) x (length pre) = true
  <-> ~ In (cand_id x) (map cand_id pre).
Proof.
  unfold keepsFirst.
  pose proof (findIndex_first (fun f => cand_id f =? cand_id x) pre x rest) as H.
  split.
  - intros Hk Hin.
    assert (Hi : findIndex (fun f => cand_id f =? cand_id x) (pre ++ x :: rest)
                 = Some (length pre)).
    { destruct (findIndex _ (pre ++ x :: rest)) as [i|]; [|discriminate].
      apply Nat.eqb_eq in Hk. now subst i. }
    apply H in Hi as [_ Hall].
    apply in_map_iff in Hin as (y & Hy & Hin).
    rewrite Forall_forall in Hall.
    specialize (Hall y (proj2 (list_elem_of_In _ _) Hin)).
    simpl in Hall. apply Z.eqb_neq in Hall. congruence.
  - intros Hnot. rewrite (proj2 H); [apply Nat.eqb_refl|].
    split; [apply Z.eqb_refl|]. apply Forall_forall. intros y Hy.
    apply Z.eqb_neq. intros Heq. apply Hnot. apply in_map_iff.
    exists y. split; [exact Heq|]. now apply list_elem_of_In.
Qed.

(** The candidates kept from position [length pre] on: each is an element
    whose id does not occur before it, their ids are distinct, and every id of
    the list occurs before or among them. *)
Lemma firstById_from (self pre xs : list Candidate) :
  self = pre ++ xs ->
  let kept := filterFrom (keepsFirst self) (length pre) xs in
  (forall c, In c kept -> In c xs /\ ~ In (cand_id c) (map cand_id pre))
  /\ NoDup (map cand_id kept)
  /\ (forall c, In c xs ->
        In (cand_id c) (map cand_id pre) \/ In (cand_id c) (map cand_id kept)).
Proof.
  revert pre. induction xs as [|x xs IH]; intros pre Hself; simpl.
  - split; [intros c []|]. split; [constructor|intros c []].
  - assert (Hself' : self = (pre ++ [x]) ++ xs) by now rewrite <- app_assoc.
    specialize (IH (pre ++ [x]) Hself').
    rewrite length_app in IH. simpl in IH. rewrite Nat.add_1_r in IH.
    destruct IH as (IHin & IHnd & IHall).
    pose proof (keepsFirst_spec pre x xs) as Hk. rewrite <- Hself in Hk.
    destruct (keepsFirst self x (length pre)) eqn:Hkeep.
    + assert (Hnew : ~ In (cand_id x) (map cand_id pre)) by now apply Hk.
      split; [|split].
      * intros c [<-|Hc]; [split; [now left|exact Hnew]|].
        apply IHin in Hc as [Hc Hn]. split; [now right|].
        intros Hp. apply Hn. rewrite map_app. apply in_or_app. now left.
      * simpl. constructor; [|exact IHnd].
        intros Hx. apply list_elem_of_In in Hx.
        apply in_map_iff in Hx as (c & Hid & Hc).
        apply IHin in Hc as [_ Hn]. apply Hn. rewrite map_app.
        apply in_or_app. right. simpl. left. congruence.
      * intros c [<-|Hc]; [right; simpl; now left|].
        destruct (IHall c Hc) as [Hp|Hkept]; [|right; simpl; now right].
        rewrite map_app in Hp. apply in_app_or in Hp as [Hp|[Hp|[]]].
        -- now left.
        -- right. simpl. left. exact Hp.
    + assert (Hold : In (cand_id x) (map cand_id pre)).
      { destruct (in_dec Z.eq_dec (cand_id x) (map cand_id pre)) as [Hi|Hi];
          [exact Hi|]. apply Hk in Hi. congruence. }
      split; [|split].
      * intros c Hc. apply IHin in Hc as [Hc Hn]. split; [now right|].
        intros Hp. apply Hn. rewrite map_app. apply in_or_app. now left.
      * exact IHnd.
      * intros c [<-|Hc]; [now left|].
        destruct (IHall c Hc) as [Hp|Hkept]; [|now right].
        rewrite map_app in Hp. apply in_app_or in Hp as [Hp|[Hp|[]]].
        -- now left.
        -- left. congruence.
Qed.

(** [firstById] keeps one entry for each id of the list. *)
Lemma firstById_ids (self : list Candidate) :
  NoDup (map cand_id (firstById self))
  /\ (forall fid, In fid (map cand_id (firstById self)) <-> In fid (map cand_id self)).
Proof.
  destruct (firstById_from self [] self eq_refl) as (Hin & Hnd & Hall).
  simpl in *. split; [exact Hnd|]. intros fid. split.
  - intros H. apply in_map_iff in H as (c & <- & Hc).
    apply in_map. now apply Hin.
  - intros H. apply in_map_iff in H as (c & <- & Hc).
    destruct (Hall c Hc) as [[]|Hk]. exact Hk.
Qed.

Lemma two_distinct_members {A} (l : list A) (x y : A) :
  In x l -> In y l -> x <> y -> (1 <? length l)%nat = true.
Proof.
  intros Hx Hy Hne. apply Nat.ltb_lt.
  assert (Hnd : List.NoDup [x; y]).
  { constructor; [intros [H|[]]; congruence|]. constructor; [intros []|constructor]. }
  assert (Hincl : incl [x; y] l).
  { intros z [<-|[<-|[]]]; assumption. }
  pose proof (NoDup_incl_length Hnd Hincl) as Hlen. simpl in Hlen. lia.
Qed.

(** C5: a subfield is picked while no field is chosen, and two different
    fields have a subfield of that name.  The panel then enters the ambiguous
    sub-state: the pending name is the name picked, the candidates are, once
    each, exactly the fields with a subfield of that name, no field is
    committed, and Apply is blocked.  If the user next picks a field that has a
    subfield of the pending name, the subfield committed is one of that very
    field with the pending name, the field is committed, and the ambiguous
    sub-state is left. *)
Theorem subfield_disambiguation (p : Panel) (val : option Z) (sel : FlatSubfield) :
  List.find (fun s => idIs val (fs_id s)) (allSubfields p) = Some sel ->
  truthyId (fieldId (filters p)) = false ->
  (exists s1 s2, In s1 (allSubfields p) /\ In s2 (allSubfields p)
     /\ fs_name s1 = fs_name sel /\ fs_name s2 = fs_name sel
     /\ fs_field_id s1 <> fs_field_id s2) ->
  let p1 := onSubfieldChange val p in
  (isSubfieldAmbiguous p1 = true
   /\ (exists info, ambiguousSubfieldInfo p1 = Some info
         /\ pendingName info = fs_name sel
         /\ NoDup (map cand_id (availableFields info))
         /\ (forall fid, In fid (map cand_id (availableFields info))
               <-> exists s, In s (allSubfields p)
                     /\ fs_name s = fs_name sel /\ fs_field_id s = fid))
   /\ fieldId (filters p1) = fieldId (filters p)
   /\ subfieldId (filters p1) = val
   /\ applyFilters p1 = [])
  /\ (forall fval selected s,
        List.find (fun f => idIs fval (ff_id f)) (allFields p) = Some selected ->
        In s (allSubfields p) ->
        fs_field_id s = ff_id selected -> fs_name s = fs_name sel ->
        let p2 := onFieldChange fval p1 in
        exists s', In s' (allSubfields p)
          /\ fs_field_id s' = ff_id selected /\ fs_name s' = fs_name sel
          /\ subfieldId (filters p2) = Some (fs_id s')
          /\ fieldId (filters p2) = fval
          /\ isSubfieldAmbiguous p2 = false
          /\ ambiguousSubfieldInfo p2 = None).
Proof.
  intros Hfind Hnofield (s1 & s2 & Hs1 & Hs2 & Hn1 & Hn2 & Hdiff) p1.
  set (same := List.filter (fun s => String.eqb (fs_name s) (fs_name sel))
                 (allSubfields p)).
  assert (Hsame : forall s, In s same <->
            In s (allSubfields p) /\ fs_name s = fs_name sel).
  { intros s. unfold same. rewrite filter_In. now rewrite String.eqb_eq. }
  assert (Hlen : (1 <? length same)%nat = true).
  { apply (two_distinct_members same s1 s2).
    - now apply Hsame.
    - now apply Hsame.
    - congruence. }
  assert (Hp1 : p1 = update
            {| domainId := Some (fs_domain_id sel); fieldId := fieldId (filters p);
               subfieldId := val; nWords := nWords (filters p);
               ngram := ngram (filters p);
               domainName := Some (fs_domain_name sel);
               fieldName := fieldName (filters p);
               subfieldName := Some (fs_name sel) |}
            true
            (Some {| pendingName := fs_name sel;
                     availableFields := firstById (map candidateOf same) |}) p).
  { subst p1. unfold onSubfieldChange. rewrite Hfind. fold same.
    now rewrite Hlen, Hnofield. }
  split.
  - rewrite Hp1. simpl. split; [reflexivity|]. split; [|repeat split].
    eexists. split; [reflexivity|]. simpl. split; [reflexivity|].
    destruct (firstById_ids (map candidateOf same)) as [Hnd Hids].
    split; [exact Hnd|]. intros fid. rewrite Hids. rewrite map_map. simpl.
    rewrite in_map_iff. split.
    + intros (s & <- & Hs). apply Hsame in Hs as [Hs Hn]. eauto.
    + intros (s & Hs & Hn & <-). exists s. split; [reflexivity|]. now apply Hsame.
  - intros fval selected s Hsel Hs Hfield Hname p2.
    subst p2. rewrite Hp1. unfold onFieldChange. simpl. rewrite Hsel.
    destruct (List.find
                (fun s0 => (fs_field_id s0 =? ff_id selected)
                           && String.eqb (fs_name s0) (fs_name sel))
                (allSubfields p)) as [s'|] eqn:Hcorrect.
    + apply find_some in Hcorrect as [Hin Hok].
      apply andb_true_iff in Hok as [Hf Hn].
      apply Z.eqb_eq in Hf. apply String.eqb_eq in Hn.
      exists s'. simpl. repeat split; assumption.
    + exfalso. apply (find_none _ _ Hcorrect) in Hs.
      rewrite Hfield, Hname, Z.eqb_refl, String.eqb_refl in Hs. discriminate.
Qed.

Lemma subfield_disambiguation_witness :
  let p1 := onSubfieldChange (Some 100) Sample.panel in
  (isSubfieldAmbiguous p1 = true
   /\ (exists info, ambiguousSubfieldInfo p1 = Some info
         /\ pendingName info = "Theory"%string
         /\ NoDup (map cand_id (availableFields info))
         /\ (forall fid, In fid (map cand_id (availableFields info))
               <-> exists s, In s (allSubfields Sample.panel)
                     /\ fs_name s = "Theory"%string /\ fs_field_id s = fid))
   /\ fieldId (filters p1) = None
   /\ subfieldId (filters p1) = Some 100
   /\ applyFilters p1 = [])
  /\ (forall fval selected s,
        List.find (fun f => idIs fval (ff_id f)) (allFields Sample.panel)
          = Some selected ->
        In s (allSubfields Sample.panel) ->
        fs_field_id s = ff_id selected -> fs_name s = "Theory"%string ->
        let p2 := onFieldChange fval p1 in
        exists s', In s' (allSubfields Sample.panel)
          /\ fs_field_id s' = ff_id selected /\ fs_name s' = "Theory"%string
          /\ subfieldId (filters p2) = Some (fs_id s')
          /\ fieldId (filters p2) = fval
          /\ isSubfieldAmbiguous p2 = false
          /\ ambiguousSubfieldInfo p2 = None).
Proof.
  apply (subfield_disambiguation Sample.panel (Some 100) Sample.biologyTheory).
  - reflexivity.
  - reflexivity.
  - exists Sample.biologyTheory, Sample.physicsTheory. simpl.
    repeat split; [tauto|tauto|discriminate].
Defined.

(** The scenario of the specification, run: picking Theory offers Biology and
    Physics, and picking Physics then commits Theory of Physics. *)
Example theory_of_physics :
  (availableFields <$> ambiguousSubfieldInfo Sample.ambiguousPanel)
    = Some [ {| cand_id := 10; cand_name := "Biology";
                cand_domain_name := "Life Sciences" |};
             {| cand_id := 20; cand_name := "Physics";
                cand_domain_name := "Physical Sciences" |} ]
  /\ fieldId (filters Sample.ambiguousPanel) = None
  /\ applyFilters Sample.ambiguousPanel = []
  /\ map ff_id (visibleFields Sample.ambiguousPanel) = [10; 20]
  /\ let p2 := onFieldChange (Some 20) Sample.ambiguousPanel in
     subfieldId (filters p2) = Some 200
     /\ fieldId (filters p2) = Some 20
     /\ domainId (filters p2) = Some 2
     /\ isSubfieldAmbiguous p2 = false
     /\ ambiguousSubfieldInfo p2 = None
     /\ applyFilters p2 = [OnFilterChange (filters p2); OnTimeChange None None].
Proof. vm_compute. repeat split. Qed.

End PanelFacts.

(** * The search box of the filter panel *)

Section SearchBoxFacts.
Import NgramFilterPanel NgramSearchBox.

Lemma loaded_shape data tp tc s e : pendingShape (loaded data tp tc s e).
Proof.
  split; simpl; [split; [discriminate|intros [? ?]; discriminate]|discriminate].
Qed.

Lemma handle_keeps_shape (p : Panel) (ev : NgramFilterPanel.Event) :
  pendingShape p -> pendingShape (fst (handle p ev)).
Proof.
  intros [IHflag IHinfo]. unfold pendingShape.
  destruct ev as [val|val|val|val| |]; simpl.
  - split; [split; [discriminate|intros [? ?]; discriminate]|discriminate].
  - unfold onFieldChange.
    destruct (isSubfieldAmbiguous p), (ambiguousSubfieldInfo p),
      (List.find _ (allFields p)); simpl;
      (split; [split; [discriminate|intros [? ?]; discriminate]|discriminate]).
  - unfold onSubfieldChange.
    destruct (List.find _ (allSubfields p)) as [sel|]; simpl.
    + destruct ((1 <? _)%nat && negb (truthyId (fieldId (filters p)))) eqn:Hamb;
        simpl.
      * split; [split; [eauto|reflexivity]|].
        intros info [= <-]. simpl. apply andb_true_iff in Hamb as [_ Hf].
        split; [now apply negb_true_iff in Hf|reflexivity].
      * split; [split; [discriminate|intros [? ?]; discriminate]|discriminate].
    + split; [split; [discriminate|intros [? ?]; discriminate]|discriminate].
  - split; [exact IHflag|]. intros info Hinfo. apply (IHinfo info Hinfo).
  - split; [split; [discriminate|intros [? ?]; discriminate]|discriminate].
  - split; assumption.
Qed.

Lemma setNgram_shape (o : option NgramOption) (p : Panel) :
  pendingShape p -> pendingShape (setNgram o p).
Proof. intros [Hflag Hinfo]. split; simpl; assumption. Qed.

Lemma sameId_eq (a b : option Z) : sameId a b = true -> a = b.
Proof.
  destruct a, b; simpl; try discriminate; [|reflexivity].
  intros H. apply Z.eqb_eq in H. now subst.
Qed.

Lemma sameId_refl (a : option Z) : sameId a a = true.
Proof. destruct a; simpl; [apply Z.eqb_refl|reflexivity]. Qed.

Lemma depsSame_refl (b : Box) : depsSame b b = true.
Proof. unfold depsSame. now rewrite String.eqb_refl, sameId_refl. Qed.

Lemma commit_panel (before b : Box) : panel (commit before b) = panel b.
Proof.
  unfold commit, autocompleteEffect.
  destruct (depsSame before b); [reflexivity|]. simpl.
  now destruct (String.length (searchText b) <? 2)%nat.
Qed.

(** After the commit the timer, if set, is for the text and subfield of the
    box: either nothing the effect depends on changed, or the effect ran. *)
Lemma commit_timerCurrent (before b : Box) :
  timerCurrent before -> debounceTimer b = debounceTimer before ->
  timerCurrent (commit before b).
Proof.
  intros Hbefore Htimer. unfold commit.
  destruct (depsSame before b) eqn:Hdeps.
  - apply andb_true_iff in Hdeps as [Htext Hsub].
    apply String.eqb_eq in Htext. apply sameId_eq in Hsub.
    intros request Hreq. rewrite Htimer in Hreq.
    destruct (Hbefore request Hreq) as [-> Hlen]. split.
    + unfold suggestOf. now rewrite Htext, Hsub.
    + now rewrite <- Htext.
  - unfold autocompleteEffect. simpl.
    destruct (String.length (searchText b) <? 2)%nat eqn:Hlen;
      intros request Hreq; simpl in Hreq; [discriminate|].
    injection Hreq as <-. split; [reflexivity|].
    simpl. apply Nat.ltb_ge in Hlen. exact Hlen.
Qed.

Lemma step_keeps_shape (b : Box) (ev : Event) :
  pendingShape (panel b) -> pendingShape (panel (fst (fst (step b ev)))).
Proof.
  intros Hshape. destruct ev as [sel|v|v|text|i|trimmed| | | | | |i reply];
    cbn [step].
  - pose proof (handle_keeps_shape (panel b) sel Hshape) as Hsel.
    destruct sel; cbn [handle fst] in *; rewrite commit_panel; exact Hsel.
  - destruct (showTimePicker (panel b)); exact Hshape.
  - destruct (showTimePicker (panel b)); exact Hshape.
  - cbn [fst]. now rewrite commit_panel.
  - destruct (showDropdown b && negb (isLoadingAutocomplete b));
      [|exact Hshape].
    destruct (autocompleteOptions b !! i); [|exact Hshape].
    cbn [fst]. rewrite commit_panel. now apply setNgram_shape.
  - cbn [fst]. rewrite commit_panel. unfold handleEnter.
    destruct (String.eqb trimmed EmptyString); [exact Hshape|].
    now apply setNgram_shape.
  - exact Hshape.
  - destruct (negb _ || _); [|exact Hshape].
    cbn [fst]. rewrite commit_panel. now apply setNgram_shape.
  - destruct (0 <? _)%nat; exact Hshape.
  - exact Hshape.
  - destruct (debounceTimer b); exact Hshape.
  - destruct (awaited b !! i); [|exact Hshape]. now destruct reply.
Qed.

Lemma step_keeps_timer (b : Box) (ev : Event) :
  timerCurrent b -> timerCurrent (fst (fst (step b ev))).
Proof.
  intros Htimer. destruct ev as [sel|v|v|text|i|trimmed| | | | | |i reply];
    cbn [step].
  - destruct sel; cbn [handle fst]; now apply commit_timerCurrent.
  - destruct (showTimePicker (panel b)); exact Htimer.
  - destruct (showTimePicker (panel b)); exact Htimer.
  - cbn [fst]. now apply commit_timerCurrent.
  - destruct (showDropdown b && negb (isLoadingAutocomplete b));
      [|exact Htimer].
    destruct (autocompleteOptions b !! i); [|exact Htimer].
    cbn [fst]. now apply commit_timerCurrent.
  - cbn [fst]. apply commit_timerCurrent; [exact Htimer|].
    unfold handleEnter. now destruct (String.eqb trimmed EmptyString).
  - exact Htimer.
  - destruct (negb _ || _); [|exact Htimer].
    cbn [fst]. now apply commit_timerCurrent.
  - destruct (0 <? _)%nat; exact Htimer.
  - exact Htimer.
  - destruct (debounceTimer b); [|exact Htimer]. intros request Hreq.
    discriminate Hreq.
  - destruct (awaited b !! i); [|exact Htimer]. now destruct reply.
Qed.

Lemma reachable_shape data (b : Box) :
  reachable data b -> pendingShape (panel b) /\ timerCurrent b.
Proof.
  induction 1 as [tp tc s e|b ev _ [IHshape IHtimer]].
  - split; [apply loaded_shape|]. intros request Hreq. discriminate Hreq.
  - split; [now apply step_keeps_shape|now apply step_keeps_timer].
Qed.

Lemma run_reachable_box data (evs : list Event) : forall b,
  reachable data b -> reachable data (run b evs).
Proof.
  induction evs as [|ev evs IH]; intros b Hb; cbn [run]; [exact Hb|].
  apply IH. now apply reach_step.
Qed.

(** C4: in every state the component reaches with the flag of the ambiguous
    sub-state set, a pending name is recorded and no field is chosen;
    [applyFilters] calls nothing on the parent, the Apply event leaves the
    component as it is, and the parent page keeps its state and sends no
    leaderboard query; no event at all calls the parent from such a state.
    The only request such a state sends is the suggestion request of the
    search box, when its timer fires: it carries the text typed, of two
    characters or more, and the subfield of the filters. *)
Theorem applyFilters_blocked_while_ambiguous (data : list Domain) (b : Box) :
  reachable data b -> isSubfieldAmbiguous (panel b) = true ->
  (exists info, ambiguousSubfieldInfo (panel b) = Some info
     /\ truthyId (fieldId (filters (panel b))) = false
     /\ subfieldName (filters (panel b)) = Some (pendingName info))
  /\ applyFilters (panel b) = []
  /\ step b (Select Apply) = (b, [], [])
  /\ (forall method s, parentAfter method (applyFilters (panel b)) s = (s, []))
  /\ (forall ev, snd (fst (step b ev)) = [])
  /\ (forall ev request, In request (snd (step b ev)) ->
        ev = TimerFires /\ debounceTimer b = Some request
        /\ request = suggestOf b /\ (2 <= String.length (searchText b))%nat).
Proof.
  intros Hreach Hamb.
  destruct (reachable_shape data b Hreach) as [[Hflag Hinfo] Htimer].
  assert (Hnone : applyFilters (panel b) = []).
  { unfold applyFilters. now rewrite Hamb. }
  split.
  { destruct (proj1 Hflag Hamb) as [info Hi]. exists info.
    split; [exact Hi|]. exact (Hinfo info Hi). }
  split; [exact Hnone|]. split.
  { cbn [step handle]. rewrite Hnone. unfold commit.
    assert (Hsame : setPanel (panel b) b = b) by now destruct b.
    rewrite Hsame, depsSame_refl. reflexivity. }
  split; [intros method s; now rewrite Hnone|]. split.
  - intros ev. destruct ev as [sel|v|v|text|i|trimmed| | | | | |i reply];
      cbn [step]; try reflexivity.
    + destruct sel; try reflexivity. cbn [handle snd fst]. exact Hnone.
    + now destruct (showTimePicker (panel b)).
    + now destruct (showTimePicker (panel b)).
    + destruct (showDropdown b && negb (isLoadingAutocomplete b));
        [|reflexivity].
      now destruct (autocompleteOptions b !! i).
    + now destruct (negb _ || _).
    + now destruct (0 <? _)%nat.
    + now destruct (debounceTimer b).
    + now destruct (awaited b !! i).
  - intros ev request Hin.
    destruct ev as [sel|v|v|text|i|trimmed| | | | | |i reply];
      cbn [step] in Hin; try contradiction.
    + destruct sel; contradiction.
    + destruct (showTimePicker (panel b)); contradiction.
    + destruct (showTimePicker (panel b)); contradiction.
    + destruct (showDropdown b && negb (isLoadingAutocomplete b));
        [|contradiction].
      destruct (autocompleteOptions b !! i); contradiction.
    + destruct (negb _ || _); contradiction.
    + destruct (0 <? _)%nat; contradiction.
    + destruct (debounceTimer b) as [r|] eqn:Hr; [|contradiction].
      destruct Hin as [<-|[]]. split; [reflexivity|]. split; [reflexivity|].
      exact (Htimer r Hr).
    + destruct (awaited b !! i); contradiction.
Qed.

Lemma sample_box_reachable :
  reachable Sample.hierarchy Sample.typedWhileAmbiguous.
Proof. apply run_reachable_box. apply reach_loaded. Qed.

Lemma applyFilters_blocked_while_ambiguous_witness :
  applyFilters (panel Sample.typedWhileAmbiguous) = []
  /\ step Sample.typedWhileAmbiguous (Select Apply)
     = (Sample.typedWhileAmbiguous, [], []).
Proof.
  destruct (applyFilters_blocked_while_ambiguous Sample.hierarchy
              Sample.typedWhileAmbiguous)
    as (_ & Hnone & Hstep & _).
  - exact sample_box_reachable.
  - reflexivity.
  - split; [exact Hnone|exact Hstep].
Defined.

(** In the ambiguous sub-state, with no field chosen, the search box asks
    for suggestions with the id of the pending subfield. *)
Lemma suggestions_carry_the_pending_subfield :
  let b := Sample.typedWhileAmbiguous in
  reachable Sample.hierarchy b
  /\ isSubfieldAmbiguous (panel b) = true
  /\ is_Some (ambiguousSubfieldInfo (panel b))
  /\ fieldId (filters (panel b)) = None
  /\ subfieldId (filters (panel b)) = Some 100
  /\ snd (step b TimerFires)
     = [{| q := "ge"; suggest_subfield_id := Some 100; limit := 10 |}].
Proof.
  cbv zeta. split; [exact sample_box_reachable|].
  vm_compute. repeat split. eexists. reflexivity.
Qed.

End SearchBoxFacts.

(** * Decimal text of integers *)

Section DecimalFacts.

Lemma digitVal_digitChar (d : Z) :
  0 <= d < 10 -> digitVal (digitChar d) = Some d.
Proof.
  intros Hd. assert (Hcases : d = 0 \/ d = 1 \/ d = 2 \/ d = 3 \/ d = 4 \/ d = 5
                     \/ d = 6 \/ d = 7 \/ d = 8 \/ d = 9) by lia.
  repeat (destruct Hcases as [->|Hcases]; [reflexivity|]). now subst.
Qed.

Lemma digitChar_plain (d : Z) :
  0 <= d < 10 ->
  isWhiteSpace (digitChar d) = false
  /\ digitChar d <> "-"%char /\ digitChar d <> "+"%char.
Proof.
  intros Hd. assert (Hcases : d = 0 \/ d = 1 \/ d = 2 \/ d = 3 \/ d = 4 \/ d = 5
                     \/ d = 6 \/ d = 7 \/ d = 8 \/ d = 9) by lia.
  repeat (destruct Hcases as [->|Hcases]; [repeat split; discriminate|]).
  subst. repeat split; discriminate.
Qed.

Lemma parseDigits_digit (d : Z) (s : string) (acc : option Z) :
  0 <= d < 10 ->
  parseDigits (String (digitChar d) s) acc
  = parseDigits s (Some (10 * default 0 acc + d)).
Proof. intros Hd. cbn [parseDigits]. now rewrite digitVal_digitChar. Qed.

Lemma digitsOf_S (fuel : nat) (n : Z) (acc : string) :
  digitsOf (S fuel) n acc
  = if n <? 10 then String (digitChar (n mod 10)) acc
    else digitsOf fuel (n / 10) (String (digitChar (n mod 10)) acc).
Proof. reflexivity. Qed.

Lemma parseDigits_digitsOf (fuel : nat) (n : Z) (acc : string) :
  0 <= n < 10 ^ Z.of_nat (S fuel) ->
  parseDigits (digitsOf (S fuel) n acc) None = parseDigits acc (Some n).
Proof.
  revert n acc. induction fuel as [|fuel IH]; intros n acc Hn.
  - change (10 ^ Z.of_nat 1) with 10 in Hn. rewrite digitsOf_S.
    destruct (n <? 10) eqn:Hlt; [|apply Z.ltb_ge in Hlt; lia].
    rewrite parseDigits_digit by (apply Z.mod_pos_bound; lia).
    cbn [default]. rewrite Z.mod_small by lia. reflexivity.
  - rewrite digitsOf_S. destruct (n <? 10) eqn:Hlt.
    + apply Z.ltb_lt in Hlt.
      rewrite parseDigits_digit by (apply Z.mod_pos_bound; lia).
      cbn [default]. rewrite Z.mod_small by lia. reflexivity.
    + apply Z.ltb_ge in Hlt. rewrite IH.
      * rewrite parseDigits_digit by (apply Z.mod_pos_bound; lia).
        cbn [default]. unfold id. f_equal. f_equal.
        pose proof (Z.div_mod n 10 ltac:(lia)). lia.
      * split; [apply Z.div_pos; lia|].
        apply Z.div_lt_upper_bound; [lia|].
        rewrite Nat2Z.inj_succ, Z.pow_succ_r in Hn by lia. lia.
Qed.

Lemma digitsOf_head (fuel : nat) (n : Z) (acc : string) :
  exists d rest, 0 <= d < 10 /\ digitsOf (S fuel) n acc = String (digitChar d) rest.
Proof.
  revert n acc. induction fuel as [|fuel IH]; intros n acc.
  - rewrite digitsOf_S. exists (n mod 10), acc.
    split; [apply Z.mod_pos_bound; lia|].
    destruct (n <? 10); reflexivity.
  - rewrite digitsOf_S. destruct (n <? 10).
    + exists (n mod 10), acc. split; [apply Z.mod_pos_bound; lia|reflexivity].
    + apply IH.
Qed.

Lemma natToString_fuel (n : Z) :
  0 <= n -> n < 10 ^ Z.of_nat (S (Z.to_nat (Z.log2 n))).
Proof.
  intros Hn. rewrite Nat2Z.inj_succ, Z2Nat.id by apply Z.log2_nonneg.
  destruct (Z.eq_dec n 0) as [->|Hne]; [reflexivity|].
  destruct (Z.log2_spec n) as [_ Hlt]; [lia|].
  eapply Z.lt_le_trans; [exact Hlt|].
  apply Z.pow_le_mono_l. pose proof (Z.log2_nonneg n). lia.
Qed.

Lemma parseDigits_natToString (n : Z) :
  0 <= n -> parseDigits (natToString n) None = Some n.
Proof.
  intros Hn. unfold natToString.
  rewrite parseDigits_digitsOf; [reflexivity|].
  split; [exact Hn|now apply natToString_fuel].
Qed.

(** [parseInt] reads back the text of every integer. *)
Lemma parseInt_intToString (z : Z) : parseInt (intToString z) = Int z.
Proof.
  unfold intToString. destruct (z <? 0) eqn:Hz.
  - apply Z.ltb_lt in Hz. unfold parseInt. cbn [trimStart].
    change (isWhiteSpace "-") with false. cbv iota.
    rewrite parseDigits_natToString by lia. f_equal. lia.
  - apply Z.ltb_ge in Hz.
    pose proof (parseDigits_natToString z Hz) as Hp.
    unfold natToString in *.
    destruct (digitsOf_head (Z.to_nat (Z.log2 z)) z EmptyString)
      as (d & rest & Hd & Heq).
    rewrite Heq in *. destruct (digitChar_plain d Hd) as (Hws & Hminus & Hplus).
    unfold parseInt. cbn [trimStart]. rewrite Hws.
    destruct (digitChar d) as [[] [] [] [] [] [] [] []] eqn:Hc;
      try (now rewrite Hp); congruence.
Qed.

Lemma intToString_nonempty (z : Z) : intToString z <> EmptyString.
Proof.
  unfold intToString. destruct (z <? 0); [discriminate|].
  unfold natToString.
  destruct (digitsOf_head (Z.to_nat (Z.log2 z)) z EmptyString)
    as (d & rest & _ & ->). discriminate.
Qed.

End DecimalFacts.

(** * The comparison session *)

Section SessionFacts.
Import Normalize BinaryVotingPage SessionSpec.

(** ** The typed view of a stored history *)

Lemma xyOfJson_jsonOfXY (p : XY) : xyOfJson (jsonOfXY p) = Some p.
Proof. destruct p. reflexivity. Qed.

Lemma seriesOfJson_jsonOfSeries (l : list XY) :
  seriesOfJson (jsonOfSeries l) = Some l.
Proof.
  unfold seriesOfJson, jsonOfSeries.
  induction l as [|p l IH]; [reflexivity|].
  cbn [map mapM]. rewrite xyOfJson_jsonOfXY. cbn [mbind option_bind].
  rewrite IH. reflexivity.
Qed.

Lemma entryOfJson_jsonOfEntry (e : PairEntry) :
  entryOfJson (jsonOfEntry e) = Some e.
Proof.
  destruct e as [i t l r ld rd ln rn c].
  destruct ld as [ld|], rd as [rd|], ln as [ln|], rn as [rn|], c as [[]|];
    cbn -[seriesOfJson jsonOfSeries];
    rewrite ?seriesOfJson_jsonOfSeries; try reflexivity;
    cbn -[seriesOfJson jsonOfSeries];
    rewrite ?seriesOfJson_jsonOfSeries; reflexivity.
Qed.

Lemma historyOfJson_jsonOfHistory (h : list PairEntry) :
  historyOfJson (map jsonOfEntry h) = Some h.
Proof.
  unfold historyOfJson. induction h as [|e h IH]; [reflexivity|].
  cbn [map mapM]. rewrite entryOfJson_jsonOfEntry. cbn [mbind option_bind].
  rewrite IH. reflexivity.
Qed.

(** ** What the handlers leave alone *)

Lemma saveHistory_storage_only P h w :
  saveHistoryToLocalStorage P h w
  = setStorage (localStorage (saveHistoryToLocalStorage P h w)) w.
Proof.
  unfold saveHistoryToLocalStorage. destruct (getHistoryKey (user w));
    [reflexivity|destruct w; reflexivity].
Qed.

Lemma savePosition_storage_only P p w :
  savePositionToLocalStorage P p w
  = setStorage (localStorage (savePositionToLocalStorage P p w)) w.
Proof.
  unfold savePositionToLocalStorage. destruct (getPositionKey (user w));
    [reflexivity|destruct w; reflexivity].
Qed.

Lemma Choice_eqb_eq (a b : Choice) : Choice_eqb a b = true <-> a = b.
Proof. destruct a, b; simpl; split; congruence. Qed.

Lemma current_inv (w : Page) (e : PairEntry) :
  current w = Some e <->
  exists z, pos w = Int z /\ 0 <= z /\ history w !! Z.to_nat z = Some e.
Proof.
  unfold current, jsGe, jsIndex. destruct (pos w) as [|z].
  - split; [discriminate|]. intros (z & Hz & _). discriminate.
  - destruct (0 <=? z) eqn:H0; destruct (z <? 0) eqn:Hneg;
      try apply Z.leb_le in H0; try apply Z.leb_gt in H0;
      try apply Z.ltb_lt in Hneg; try apply Z.ltb_ge in Hneg; try lia.
    + split; [intros H; exists z; auto|].
      intros (z' & [= <-] & _ & H). exact H.
    + split; [discriminate|]. intros (z' & [= <-] & Hz & _). lia.
Qed.

Lemma jsIndex_in_range {A} (l : list A) (z : Z) :
  0 <= z -> jsIndex l (Int z) = l !! Z.to_nat z.
Proof.
  intros Hz. unfold jsIndex. destruct (z <? 0) eqn:H; [|reflexivity].
  apply Z.ltb_lt in H. lia.
Qed.

(** One click, as the handler computes it. *)
Lemma selectChoice_current P c w e :
  current w = Some e ->
  let toggled := match choice e with
                 | Some c' => if Choice_eqb c' c then None else Some c
                 | None => Some c
                 end in
  current (selectChoice P c w) = Some (withChoice e toggled)
  /\ history (selectChoice P c w)
     = setAt (history w) (pos w) (withChoice e toggled)
  /\ pos (selectChoice P c w) = pos w.
Proof.
  intros Hcur toggled. pose proof Hcur as Hinv.
  apply current_inv in Hinv as (z & Hpos & Hz & Hlook).
  unfold selectChoice. rewrite Hcur. rewrite Hpos, (jsIndex_in_range _ _ Hz), Hlook.
  fold toggled. rewrite saveHistory_storage_only. cbn [setHistory setStorage
    history pos user done loading historyLoaded rtStartRef localStorage].
  split; [|split; [reflexivity|exact Hpos]].
  apply current_inv. exists z. cbn [history pos setAt].
  split; [exact Hpos|]. split; [exact Hz|].
  apply list_lookup_insert_eq. now apply lookup_lt_Some in Hlook.
Qed.

(** C8: a click on the chart [c] of the current pair clears the choice when
    the pair carries exactly [c] and sets it to [c] otherwise; no other
    property of the pair, no other pair and not the cursor change.  So from a
    pair that does not carry [c], one click sets [c], a second clears it and
    a third sets it again. *)
Theorem selectChoice_toggles (P : Platform) (c : Choice) (w : Page) (e : PairEntry) :
  current w = Some e ->
  let w1 := selectChoice P c w in
  let w2 := selectChoice P c w1 in
  let w3 := selectChoice P c w2 in
  (exists x, current w1 = Some (withChoice e x)
     /\ (choice e = Some c -> x = None)
     /\ (choice e <> Some c -> x = Some c))
  /\ pos w1 = pos w
  /\ length (history w1) = length (history w)
  /\ (forall i, pos w <> Int (Z.of_nat i) -> history w1 !! i = history w !! i)
  /\ (choice e <> Some c ->
      current w1 = Some (withChoice e (Some c))
      /\ current w2 = Some (withChoice e None)
      /\ current w3 = Some (withChoice e (Some c))).
Proof.
  intros Hcur w1 w2 w3.
  destruct (selectChoice_current P c w e Hcur) as (H1 & Hh1 & Hp1).
  fold w1 in H1, Hh1, Hp1.
  assert (Hset : choice e <> Some c ->
            match choice e with
            | Some c' => if Choice_eqb c' c then None else Some c
            | None => Some c
            end = Some c).
  { intros Hne. destruct (choice e) as [c'|]; [|reflexivity].
    destruct (Choice_eqb c' c) eqn:He; [|reflexivity].
    apply Choice_eqb_eq in He. congruence. }
  split; [|split; [exact Hp1|split; [|split]]].
  - eexists. split; [exact H1|]. split.
    + intros ->. now rewrite (proj2 (Choice_eqb_eq c c) eq_refl).
    + apply Hset.
  - rewrite Hh1. unfold setAt. destruct (pos w); [reflexivity|apply length_insert].
  - intros i Hi. rewrite Hh1. unfold setAt. destruct (pos w) as [|z] eqn:Hpos;
      [reflexivity|]. apply list_lookup_insert_ne. intros <-.
    apply current_inv in Hcur as (z' & Hz' & Hge & _). rewrite Hpos in Hz'.
    injection Hz' as <-. apply Hi. f_equal. lia.
  - intros Hne. rewrite (Hset Hne) in H1. split; [exact H1|].
    destruct (selectChoice_current P c w1 _ H1) as (H2 & _ & _).
    fold w2 in H2. cbn [choice withChoice] in H2.
    rewrite (proj2 (Choice_eqb_eq c c) eq_refl) in H2.
    split; [exact H2|].
    destruct (selectChoice_current P c w2 _ H2) as (H3 & _ & _).
    exact H3.
Qed.

Lemma selectChoice_toggles_witness :
  let w := Sample.onPair0 in
  let e := withChoice Sample.entry0 None in
  let c := ChoiceLeft in
  let w1 := selectChoice Reference.platform c w in
  let w2 := selectChoice Reference.platform c w1 in
  let w3 := selectChoice Reference.platform c w2 in
  (exists x, current w1 = Some (withChoice e x)
     /\ (choice e = Some c -> x = None)
     /\ (choice e <> Some c -> x = Some c))
  /\ pos w1 = pos w
  /\ length (history w1) = length (history w)
  /\ (forall i, pos w <> Int (Z.of_nat i) -> history w1 !! i = history w !! i)
  /\ (choice e <> Some c ->
      current w1 = Some (withChoice e (Some c))
      /\ current w2 = Some (withChoice e None)
      /\ current w3 = Some (withChoice e (Some c))).
Proof.
  apply (selectChoice_toggles Reference.platform ChoiceLeft Sample.onPair0
           (withChoice Sample.entry0 None)).
  reflexivity.
Defined.

(** ** Going back and forth *)

Lemma onPrev_moves P t w z :
  pos w = Int z -> 0 < z ->
  onPrev P t w
  = setRtStart t (savePositionToLocalStorage P (Int (z - 1)) (setPos (Int (z - 1)) w)).
Proof.
  intros Hpos Hz. unfold onPrev. rewrite Hpos. cbn [jsGt jsSub1].
  destruct (0 <? z) eqn:H; [reflexivity|]. apply Z.ltb_ge in H. lia.
Qed.

(** [Next] on an entry that is not the last one and has a choice: the vote of
    the entry is sent, nothing is fetched and the cursor moves on by one. *)
Lemma onNext_inner P w u j e c t t' reply :
  user w = Some u -> pos w = Int j -> 0 <= j ->
  j + 1 < Z.of_nat (length (history w)) ->
  history w !! Z.to_nat j = Some e -> choice e = Some c ->
  onNext P t true reply t' w
  = (setRtStart t'
       (savePositionToLocalStorage P (Int (j + 1)) (setPos (Int (j + 1)) w)),
     [voteFor u e c (t - rtStartRef w)]).
Proof.
  intros Hu Hpos Hj Hlast Hlook Hc.
  assert (Hcur : current w = Some e) by (apply current_inv; eauto).
  unfold onNext. rewrite Hu, Hcur, Hc, Hpos. cbn [jsEq jsSub1 jsLength jsAdd1].
  destruct (j =? Z.of_nat (length (history w)) - 1) eqn:He;
    [apply Z.eqb_eq in He; lia|reflexivity].
Qed.

(** When the submission is rejected nothing changes. *)
Lemma onNext_rejected P w u e c t t' reply :
  user w = Some u -> current w = Some e -> choice e = Some c ->
  onNext P t false reply t' w = (w, [voteFor u e c (t - rtStartRef w)]).
Proof. intros Hu Hcur Hc. unfold onNext. now rewrite Hu, Hcur, Hc. Qed.

Lemma needsNextPair_inner (w : Page) (z : Z) :
  pos w = Int z -> 0 <= z -> z + 1 < Z.of_nat (length (history w)) ->
  needsNextPair w = false.
Proof.
  intros Hpos H0 Hz. unfold needsNextPair. rewrite Hpos.
  cbn [jsEq jsSub1 jsLength].
  destruct (length (history w)) eqn:Hlen; [simpl in Hz; lia|].
  cbn [Nat.eqb orb].
  destruct (z =? Z.of_nat (S n) - 1) eqn:He; [apply Z.eqb_eq in He; lia|].
  reflexivity.
Qed.

Lemma needsNextPair_unchosen (w : Page) :
  history w <> [] -> (current w ≫= choice) = None -> needsNextPair w = false.
Proof.
  intros Hne Hnone. unfold needsNextPair.
  destruct (history w) as [|e0 h] eqn:Hh; [congruence|]. cbn [length Nat.eqb orb].
  destruct (jsEq (pos w) (jsSub1 (jsLength (e0 :: h)))) eqn:He; [|reflexivity].
  cbn [andb]. apply bool_decide_eq_false. intros [c Hc].
  unfold current in Hnone. rewrite Hh in Hnone.
  destruct (jsGe (pos w) (Int 0)) eqn:Hge.
  - rewrite Hc in Hnone. discriminate.
  - unfold jsEq, jsGe, jsSub1, jsLength in *. destruct (pos w) as [|z];
      [discriminate|]. apply Z.eqb_eq in He. apply Z.leb_gt in Hge.
    rewrite He in Hge. simpl length in Hge. lia.
Qed.

(** C2, as the code has it.  First, [Next] on any entry that is not the last
    one and carries a choice sends the vote of that entry (again, if it was
    sent before), requests no pair and no series, keeps the history and moves
    the cursor on by one.  So, from cursor [k > 0] whose predecessor carries
    a choice, [Previous] then [Next] with an accepted submission comes back
    to cursor [k] with the same history and the same current pair, the only
    request sent being that one vote; the fetch effect stays idle after
    [Previous], and after [Next] as well when pair [k] is not the last one or
    carries no choice.  When the submission is rejected the cursor stays at
    [k - 1]. *)
Theorem previous_then_next (P : Platform) (u : StoredUser) (w : Page) (k : Z)
    (e : PairEntry) (c : Choice) (t1 t2 t3 : Z) (reply : FetchReply) :
  user w = Some u -> pos w = Int k ->
  0 < k < Z.of_nat (length (history w)) ->
  history w !! Z.to_nat (k - 1) = Some e -> choice e = Some c ->
  (forall w' j e' c' t t' reply',
     user w' = Some u -> pos w' = Int j -> 0 <= j ->
     j + 1 < Z.of_nat (length (history w')) ->
     history w' !! Z.to_nat j = Some e' -> choice e' = Some c' ->
     snd (onNext P t true reply' t' w') = [voteFor u e' c' (t - rtStartRef w')]
     /\ pos (fst (onNext P t true reply' t' w')) = Int (j + 1)
     /\ history (fst (onNext P t true reply' t' w')) = history w')
  /\ let w1 := onPrev P t1 w in
     let w2 := fst (onNext P t2 true reply t3 w1) in
     pos w1 = Int (k - 1)
     /\ history w1 = history w
     /\ needsNextPair w1 = false
     /\ snd (onNext P t2 true reply t3 w1) = [voteFor u e c (t2 - t1)]
     /\ pos w2 = Int k
     /\ history w2 = history w
     /\ current w2 = current w
     /\ done w2 = done w
     /\ (k + 1 < Z.of_nat (length (history w)) \/ (current w ≫= choice) = None ->
         needsNextPair w2 = false)
     /\ onNext P t2 false reply t3 w1 = (w1, [voteFor u e c (t2 - t1)]).
Proof.
  intros Hu Hpos Hk Hlook Hc. split.
  - intros w' j e' c' t t' reply' Hu' Hpos' Hj Hlast Hlook' Hc'.
    rewrite (onNext_inner P w' u j e' c' t t' reply' Hu' Hpos' Hj Hlast Hlook' Hc').
    rewrite savePosition_storage_only. repeat split.
  - intros w1 w2.
    assert (Hw1 : w1 = setRtStart t1
              (savePositionToLocalStorage P (Int (k - 1)) (setPos (Int (k - 1)) w))).
    { apply onPrev_moves; [exact Hpos|lia]. }
    rewrite savePosition_storage_only in Hw1.
    cbn [setPos setStorage setRtStart user history pos done loading
         historyLoaded rtStartRef localStorage] in Hw1.
    assert (Hu1 : user w1 = Some u) by now rewrite Hw1.
    assert (Hp1 : pos w1 = Int (k - 1)) by now rewrite Hw1.
    assert (Hh1 : history w1 = history w) by now rewrite Hw1.
    assert (Hr1 : rtStartRef w1 = t1) by now rewrite Hw1.
    assert (Hd1 : done w1 = done w) by now rewrite Hw1.
    assert (Hnext : onNext P t2 true reply t3 w1
              = (setRtStart t3
                   (savePositionToLocalStorage P (Int (k - 1 + 1))
                      (setPos (Int (k - 1 + 1)) w1)),
                 [voteFor u e c (t2 - rtStartRef w1)])).
    { apply onNext_inner; rewrite ?Hh1; try assumption; lia. }
    rewrite savePosition_storage_only in Hnext.
    cbn [setPos setStorage setRtStart user history pos done loading
         historyLoaded rtStartRef localStorage] in Hnext.
    replace (k - 1 + 1) with k in Hnext by lia. rewrite Hr1 in Hnext.
    subst w2. rewrite Hnext. simpl_page.
    split; [exact Hp1|]. split; [exact Hh1|]. split.
    { apply (needsNextPair_inner w1 (k - 1)); [exact Hp1|lia|rewrite Hh1; lia]. }
    split; [reflexivity|]. split; [reflexivity|]. split; [exact Hh1|]. split.
    { unfold current. simpl_page. now rewrite Hh1, Hpos. }
    split; [exact Hd1|]. split.
    + intros [Hinner|Hnone].
      * apply (needsNextPair_inner _ k); [reflexivity|lia|].
        simpl_page. rewrite Hh1. exact Hinner.
      * apply needsNextPair_unchosen.
        -- simpl_page. rewrite Hh1. intros Hnil. rewrite Hnil in Hk.
           simpl in Hk. lia.
        -- unfold current in *. simpl_page. now rewrite Hh1, <- Hpos.
    + rewrite <- Hr1. apply onNext_rejected; [exact Hu1| |exact Hc].
      apply current_inv. exists (k - 1). rewrite Hh1.
      split; [exact Hp1|]. split; [lia|exact Hlook].
Qed.

Lemma previous_then_next_witness :
  let w1 := onPrev Reference.platform 15 Sample.onPair1 in
  let w2 := fst (onNext Reference.platform 20 true NextRejected 21 w1) in
  pos w1 = Int 0
  /\ snd (onNext Reference.platform 20 true NextRejected 21 w1) = [Sample.vote0 5]
  /\ pos w2 = Int 1
  /\ history w2 = history Sample.onPair1
  /\ needsNextPair w2 = false.
Proof.
  destruct (previous_then_next Reference.platform Sample.user7 Sample.onPair1 1
              Sample.entry0 ChoiceLeft 15 20 21 NextRejected)
    as [_ (H1 & _ & _ & H2 & H3 & H4 & _ & _ & H5 & _)].
  - reflexivity.
  - reflexivity.
  - simpl. lia.
  - reflexivity.
  - reflexivity.
  - exact (conj H1 (conj H2 (conj H3 (conj H4 (H5 (or_intror eq_refl)))))).
Defined.

(** C2 as stated fails: the vote of pair 0, sent when the user first left
    pair 0, is sent a second time by [Previous] then [Next]. *)
Lemma previous_then_next_resubmits :
  snd (onNext Reference.platform 5 true
         (NextSeries Sample.pair1 Sample.leftSeries Sample.rightSeries) 6
         Sample.pair0Chosen)
    = [Sample.vote0 4; GetNextBinaryPair 7; GetFrequency 12; GetFrequency 13]
  /\ snd (onNext Reference.platform 20 true NextRejected 21
            (onPrev Reference.platform 15 Sample.onPair1))
    = [Sample.vote0 5].
Proof. split; vm_compute; reflexivity. Qed.

(** The case the theorem leaves open: when pair [k] is the last one and
    already carries a choice, coming back to it satisfies the condition of
    the fetch effect, which then asks the server for the next pair although
    the vote of pair [k] has not been sent. *)
Example fetch_effect_after_return_to_chosen_last :
  let w := selectChoice Reference.platform ChoiceRight Sample.onPair1 in
  let w1 := onPrev Reference.platform 15 w in
  let w2 := fst (onNext Reference.platform 20 true NextRejected 21 w1) in
  pos w2 = Int 1
  /\ needsNextPair w2 = true
  /\ snd (fetchEffect Reference.platform NextRejected 22 w2) = [GetNextBinaryPair 7].
Proof. vm_compute. repeat split. Qed.

(** ** Loading from the store *)

Lemma truthy_nonempty (v : string) : v <> EmptyString -> truthy (Some v) = Some v.
Proof. destruct v; [congruence|reflexivity]. Qed.

(** A missing history, an empty text or a text that [JSON.parse] rejects all
    load as the empty history. *)
Lemma loadHistory_unreadable P w :
  (forall key text, getHistoryKey (user w) = Some key ->
     truthy (localStorage w !! key) = Some text -> JSON_parse P text = None) ->
  loadHistoryFromLocalStorage P w = JArr [].
Proof.
  intros H. unfold loadHistoryFromLocalStorage.
  destruct (getHistoryKey (user w)) as [key|]; [|reflexivity].
  destruct (truthy (localStorage w !! key)) as [text|] eqn:Ht; [|reflexivity].
  now rewrite (H key text eq_refl Ht).
Qed.

(** A missing cursor loads as -1. *)
Lemma loadPosition_absent w :
  (forall key, getPositionKey (user w) = Some key ->
     truthy (localStorage w !! key) = None) ->
  loadPositionFromLocalStorage w = Int (-1).
Proof.
  intros H. unfold loadPositionFromLocalStorage.
  destruct (getPositionKey (user w)) as [key|]; [|reflexivity].
  now rewrite (H key eq_refl).
Qed.

(** With an unreadable or missing history the session starts empty, whatever
    the cursor key holds. *)
Lemma loadEffect_unreadable_history P now w u :
  user w = Some u -> historyLoaded w = false ->
  loadHistoryFromLocalStorage P w = JArr [] ->
  loadEffect P now w = Ran (startFresh w)
  /\ pos (startFresh w) = Int (-1)
  /\ history (startFresh w) = history w.
Proof.
  intros Hu Hl Hh. unfold loadEffect. rewrite Hu, Hl, Hh. repeat split.
Qed.

(** C9 at the input where the code departs from it: the history of the
    session is stored intact and the cursor key holds a text that is not a
    number.  [loadPositionFromLocalStorage] then returns [NaN], not -1 (its
    [catch] never runs, [parseInt] does not throw); the load effect makes
    [NaN] the cursor of a non-empty history, so there is no current pair and
    the fetch effect stays idle. *)
Theorem unreadable_position_loads_NaN :
  let w := mount (Some Sample.user7) Sample.corruptStore in
  loadPositionFromLocalStorage w = NaN
  /\ match loadEffect Reference.platform 30 w with
     | Ran w' =>
         history w' = history Sample.onPair1
         /\ pos w' = NaN
         /\ current w' = None
         /\ needsNextPair w' = false
     | _ => False
     end.
Proof. vm_compute. repeat split. Qed.

(** A history key that holds the JSON text [null] makes the load effect
    throw: [loadHistoryFromLocalStorage] returns [null] and the effect reads
    its [length]. *)
Example null_history_throws :
  let w := mount (Some Sample.user7) Sample.nullStore in
  loadHistoryFromLocalStorage Reference.platform w = JNull
  /\ loadEffect Reference.platform 30 w = ThrowsTypeError.
Proof. vm_compute. split; reflexivity. Qed.

(** ** The store mirrors the session *)

Lemma keys_differ (u : StoredUser) : historyKey u <> positionKey u.
Proof. unfold historyKey, positionKey. cbn [String.append]. discriminate. Qed.

Lemma setItem_writes P key value st :
  writes_ok P -> setItem P key value st = <[key := value]> st.
Proof. intros H. unfold setItem. now rewrite H. Qed.

Lemma saveHistory_storage P h w u :
  writes_ok P -> user w = Some u ->
  localStorage (saveHistoryToLocalStorage P h w)
  = <[historyKey u := JSON_stringify P (jsonOfHistory h)]> (localStorage w).
Proof.
  intros Hok Hu. unfold saveHistoryToLocalStorage. rewrite Hu.
  cbn [getHistoryKey]. fold (historyKey u). simpl_page.
  now apply setItem_writes.
Qed.

Lemma savePosition_storage P p w u :
  writes_ok P -> user w = Some u ->
  localStorage (savePositionToLocalStorage P p w)
  = <[positionKey u := toString p]> (localStorage w).
Proof.
  intros Hok Hu. unfold savePositionToLocalStorage. rewrite Hu.
  cbn [getPositionKey]. fold (positionKey u). simpl_page.
  now apply setItem_writes.
Qed.

Lemma persisted_nonempty P u h p st :
  h <> [] ->
  persisted P u h p st <->
  st !! historyKey u = Some (JSON_stringify P (jsonOfHistory h))
  /\ st !! positionKey u = Some (toString p)
  /\ exists z, p = Int z /\ 0 <= z < Z.of_nat (length h).
Proof. intros Hne. destruct h; [congruence|reflexivity]. Qed.

Lemma persisted_cursor P u h p st :
  persisted P u h p st ->
  (h = [] /\ p = Int (-1))
  \/ (h <> [] /\ exists z, p = Int z /\ 0 <= z < Z.of_nat (length h)).
Proof.
  destruct h as [|e h]; simpl.
  - intros [-> _]. now left.
  - intros (_ & _ & Hz). right. split; [discriminate|exact Hz].
Qed.

(** Writing the position leaves the history key alone, and conversely. *)
Lemma persisted_move P u h p z st :
  h <> [] -> persisted P u h p st -> 0 <= z < Z.of_nat (length h) ->
  persisted P u h (Int z) (<[positionKey u := toString (Int z)]> st).
Proof.
  intros Hne Hp Hz. apply persisted_nonempty; [exact Hne|].
  apply persisted_nonempty in Hp as (Hh & _ & _); [|exact Hne].
  split; [|split].
  - rewrite lookup_insert_ne; [exact Hh|]. intros H. now apply (keys_differ u).
  - apply lookup_insert_eq.
  - exists z. split; [reflexivity|exact Hz].
Qed.

Lemma persisted_rewrite P u h p h' st :
  h <> [] -> h' <> [] -> length h' = length h -> persisted P u h p st ->
  persisted P u h' p (<[historyKey u := JSON_stringify P (jsonOfHistory h')]> st).
Proof.
  intros Hne Hne' Hlen Hp. apply persisted_nonempty; [exact Hne'|].
  apply persisted_nonempty in Hp as (_ & Hpos & Hz); [|exact Hne].
  split; [|split].
  - apply lookup_insert_eq.
  - rewrite lookup_insert_ne; [exact Hpos|apply keys_differ].
  - now rewrite Hlen.
Qed.

Lemma persisted_append P u h p entry st :
  persisted P u h p st ->
  let newHistory := sliceTo h (jsAdd1 p) ++ [entry] in
  persisted P u newHistory (jsAdd1 p)
    (<[positionKey u := toString (jsAdd1 p)]>
       (<[historyKey u := JSON_stringify P (jsonOfHistory newHistory)]> st))
  /\ exists kept, sliceTo h (jsAdd1 p) = kept
       /\ (p = jsSub1 (jsLength h) -> kept = h).
Proof.
  intros Hp newHistory. split.
  - apply persisted_nonempty.
    { subst newHistory. destruct (sliceTo h (jsAdd1 p)); discriminate. }
    split; [|split].
    + rewrite lookup_insert_ne; [apply lookup_insert_eq|].
      intros H. now apply (keys_differ u).
    + apply lookup_insert_eq.
    + subst newHistory. rewrite length_app. cbn [length].
      destruct (persisted_cursor _ _ _ _ _ Hp) as [[-> ->]|[_ (z & -> & Hz)]].
      * exists 0. split; [reflexivity|]. simpl. lia.
      * exists (z + 1). split; [reflexivity|]. cbn [jsAdd1 sliceTo].
        destruct (z + 1 <? 0) eqn:Hneg; [apply Z.ltb_lt in Hneg; lia|].
        rewrite length_take. lia.
  - eexists. split; [reflexivity|]. intros ->.
    cbn [jsLength jsSub1 jsAdd1 sliceTo].
    replace (Z.of_nat (length h) - 1 + 1) with (Z.of_nat (length h)) by lia.
    destruct (Z.of_nat (length h) <? 0) eqn:Hneg; [apply Z.ltb_lt in Hneg; lia|].
    rewrite Nat2Z.id. apply firstn_all.
Qed.

(** What [fetchNext] does to history, cursor and store. *)
Lemma fetchNext_result P u w reply t :
  writes_ok P -> user w = Some u ->
  let w' := fst (fetchNext P reply t w) in
  user w' = Some u /\ historyLoaded w' = historyLoaded w
  /\ ((history w' = history w /\ pos w' = pos w
       /\ localStorage w' = localStorage w)
      \/ exists entry,
           let newHistory := sliceTo (history w) (jsAdd1 (pos w)) ++ [entry] in
           history w' = newHistory /\ pos w' = jsAdd1 (pos w)
           /\ localStorage w'
              = <[positionKey u := toString (jsAdd1 (pos w))]>
                  (<[historyKey u := JSON_stringify P (jsonOfHistory newHistory)]>
                     (localStorage w))).
Proof.
  intros Hok Hu w'. subst w'. unfold fetchNext. rewrite Hu.
  destruct reply as [| |nxt|nxt l r]; simpl_page;
    try (split; [exact Hu|split; [reflexivity|left; repeat split]]).
  cbn zeta. rewrite savePosition_storage_only. simpl_page.
  rewrite saveHistory_storage_only. simpl_page.
  split; [exact Hu|]. split; [reflexivity|]. right.
  exists (newEntry nxt l r). cbn zeta.
  split; [reflexivity|]. split; [reflexivity|].
  rewrite (savePosition_storage P _ _ u Hok) by (simpl_page; exact Hu).
  simpl_page.
  rewrite (saveHistory_storage P _ _ u Hok) by (simpl_page; exact Hu).
  reflexivity.
Qed.

Lemma fetchNext_persisted P u w reply t :
  writes_ok P -> user w = Some u ->
  persisted P u (history w) (pos w) (localStorage w) ->
  let w' := fst (fetchNext P reply t w) in
  persisted P u (history w') (pos w') (localStorage w').
Proof.
  intros Hok Hu Hp. cbv zeta.
  destruct (fetchNext_result P u w reply t Hok Hu)
    as (_ & _ & [(Hh & Hpos & Hst)|(entry & Hh & Hpos & Hst)]).
  - now rewrite Hh, Hpos, Hst.
  - rewrite Hh, Hpos, Hst. now apply persisted_append.
Qed.

(** The load effect on a store that holds a session. *)
Lemma loadEffect_resumes P u w h p t :
  user w = Some u -> historyLoaded w = false -> history w = [] ->
  persisted P u h p (localStorage w) -> (h <> [] -> JSON_roundtrips P h) ->
  exists w', loadEffect P t w = Ran w'
    /\ history w' = h /\ pos w' = p /\ localStorage w' = localStorage w
    /\ user w' = Some u /\ historyLoaded w' = true /\ done w' = done w.
Proof.
  intros Hu Hl Hempty Hper Hrt. unfold loadEffect. rewrite Hu, Hl.
  unfold loadHistoryFromLocalStorage, loadPositionFromLocalStorage.
  rewrite Hu. cbn [getHistoryKey getPositionKey].
  fold (historyKey u) (positionKey u).
  destruct h as [|e h].
  - destruct Hper as [-> Hnone]. rewrite Hnone. cbn [truthy].
    eexists. split; [reflexivity|]. simpl_page. repeat split; assumption.
  - destruct Hper as (Hhist & Hpos & z & -> & Hz).
    destruct (Hrt ltac:(discriminate)) as [Hne Hparse].
    rewrite Hhist, (truthy_nonempty _ Hne), Hparse.
    rewrite Hpos. cbn [toString].
    rewrite (truthy_nonempty _ (intToString_nonempty z)), parseInt_intToString.
    cbn [jsonOfHistory map].
    change (jsonOfEntry e :: map jsonOfEntry h) with (map jsonOfEntry (e :: h)).
    rewrite historyOfJson_jsonOfHistory.
    eexists. split; [reflexivity|]. simpl_page.
    split; [reflexivity|]. split; [|repeat split; assumption].
    cbn [jsLength jsSub1 jsMin]. f_equal. lia.
Qed.

Lemma unloaded_idle P w u :
  user w = Some u -> historyLoaded w = false -> consistent P w ->
  current w = None /\ jsGt (pos w) (Int 0) = false.
Proof.
  intros Hu Hl (u' & _ & Hc). rewrite Hl in Hc. destruct Hc as (_ & Hpos & _).
  unfold current. rewrite Hpos. split; reflexivity.
Qed.

Lemma Ran_inj {A B} (x : A * B) (a : A) (b : B) :
  Ran x = Ran (a, b) -> fst x = a /\ snd x = b.
Proof. intros H. injection H as ->. now split. Qed.

Lemma sliceTo_at_end (h : list PairEntry) (p : jsint) :
  (length h =? 0)%nat || jsEq p (jsSub1 (jsLength h)) = true ->
  sliceTo h (jsAdd1 p) = h.
Proof.
  intros H. apply orb_true_iff in H as [H|H].
  - apply Nat.eqb_eq in H. destruct h; [|discriminate].
    destruct p as [|z]; [reflexivity|]. cbn [jsAdd1 sliceTo].
    destruct (z + 1 <? 0); apply firstn_nil.
  - destruct p as [|z]; [discriminate|]. cbn [jsEq jsSub1 jsLength] in H.
    apply Z.eqb_eq in H. subst z. cbn [jsAdd1 sliceTo].
    replace (Z.of_nat (length h) - 1 + 1) with (Z.of_nat (length h)) by lia.
    destruct (Z.of_nat (length h) <? 0) eqn:Hneg; [apply Z.ltb_lt in Hneg; lia|].
    rewrite Nat2Z.id. apply firstn_all.
Qed.

(** The fetch effect only ever adds after the pairs already held. *)
Lemma fetchEffect_extends P u w reply t :
  writes_ok P -> user w = Some u ->
  (needsNextPair w = false -> fetchEffect P reply t w = (w, []))
  /\ exists newer, history (fst (fetchEffect P reply t w)) = history w ++ newer.
Proof.
  intros Hok Hu. unfold fetchEffect. rewrite Hu.
  destruct (historyLoaded w); cbn [negb].
  - destruct (needsNextPair w) eqn:Hneed.
    + split; [discriminate|].
      destruct (fetchNext_result P u w reply t Hok Hu)
        as (_ & _ & [(Hh & _ & _)|(entry & Hh & _ & _)]); rewrite Hh.
      * exists []. now rewrite app_nil_r.
      * exists [entry]. f_equal. apply sliceTo_at_end.
        unfold needsNextPair in Hneed.
        apply orb_true_iff in Hneed as [Hn|Hn]; apply orb_true_iff;
          [now left|right]. now apply andb_true_iff in Hn as [Hn _].
    + split; [reflexivity|]. exists []. now rewrite app_nil_r.
  - split; [reflexivity|]. exists []. now rewrite app_nil_r.
Qed.

(** ** The page between its awaits *)

Lemma consistent_same P w w' :
  user w' = user w -> historyLoaded w' = historyLoaded w ->
  history w' = history w -> pos w' = pos w ->
  localStorage w' = localStorage w ->
  consistent P w -> consistent P w'.
Proof.
  intros Hu Hl Hh Hp Hs (u & Hu0 & Hc). exists u.
  rewrite Hu, Hl, Hh, Hp, Hs. now split.
Qed.

Lemma loadEffect_consistent P now w w' :
  consistent P w -> loadEffect P now w = Ran w' -> consistent P w'.
Proof.
  intros Hcons Hload. pose proof Hcons as (u & Hu & Hc).
  destruct (historyLoaded w) eqn:Hl.
  - unfold loadEffect in Hload. rewrite Hu, Hl in Hload.
    injection Hload as <-. exact Hcons.
  - destruct Hc as (Hempty & Hpos & h & p & Hper & Hrt).
    destruct (loadEffect_resumes P u w h p now Hu Hl Hempty Hper Hrt)
      as (w1 & Hload1 & Hh & Hp & Hst & Hu1 & Hl1 & _).
    rewrite Hload1 in Hload. injection Hload as <-.
    exists u. split; [exact Hu1|]. now rewrite Hl1, Hh, Hp, Hst.
Qed.

Lemma selectChoice_consistent P c w :
  writes_ok P -> consistent P w -> consistent P (selectChoice P c w).
Proof.
  intros Hok Hcons. pose proof Hcons as (u & Hu & Hc).
  destruct (current w) as [e|] eqn:Hcur;
    [|unfold selectChoice; now rewrite Hcur].
  destruct (historyLoaded w) eqn:Hl;
    [|destruct (unloaded_idle P w u Hu Hl Hcons); congruence].
  destruct (selectChoice_current P c w e Hcur) as (_ & Hh & Hp).
  pose proof Hcur as Hinv. apply current_inv in Hinv as (z & Hz & Hge & Hlook).
  assert (Hne : history w <> []).
  { intros Hnil. rewrite Hnil in Hlook. discriminate. }
  set (newHistory := history (selectChoice P c w)) in *.
  assert (Hshape : selectChoice P c w
            = setHistory newHistory (saveHistoryToLocalStorage P newHistory w)).
  { subst newHistory. rewrite Hh. unfold selectChoice.
    rewrite Hcur, Hz, (jsIndex_in_range _ _ Hge), Hlook. reflexivity. }
  assert (Hlen : length newHistory = length (history w)).
  { subst newHistory. rewrite Hh, Hz. apply length_insert. }
  rewrite Hshape. exists u. rewrite saveHistory_storage_only. simpl_page.
  split; [exact Hu|]. rewrite Hl.
  rewrite (saveHistory_storage P _ _ u Hok Hu).
  apply (persisted_rewrite P u (history w)); try assumption.
  intros Hnil. rewrite Hnil in Hlen. destruct (history w); [congruence|discriminate].
Qed.

Lemma onPrev_consistent P now w :
  writes_ok P -> consistent P w -> consistent P (onPrev P now w).
Proof.
  intros Hok Hcons. pose proof Hcons as (u & Hu & Hc). unfold onPrev.
  destruct (jsGt (pos w) (Int 0)) eqn:Hgt; [|exact Hcons].
  destruct (historyLoaded w) eqn:Hl;
    [|destruct (unloaded_idle P w u Hu Hl Hcons); congruence].
  rewrite savePosition_storage_only. simpl_page.
  exists u. simpl_page. split; [exact Hu|]. rewrite Hl.
  rewrite (savePosition_storage P _ _ u Hok) by (simpl_page; exact Hu).
  simpl_page.
  destruct (persisted_cursor _ _ _ _ _ Hc) as [[_ Hp]|(Hne & z & Hp & Hz)];
    rewrite Hp in *; [discriminate|].
  cbn [jsGt] in Hgt. apply Z.ltb_lt in Hgt. cbn [jsSub1].
  apply (persisted_move P u (history w) (Int z)); [exact Hne|exact Hc|lia].
Qed.

(** [onNext] after an accepted vote, away from the last pair: the cursor
    of the closure is on a pair that is not the last. *)
Lemma advance_consistent P w later z :
  writes_ok P -> consistent P w -> historyLoaded w = true ->
  0 <= z -> z + 1 < Z.of_nat (length (history w)) ->
  consistent P
    (setRtStart later
       (savePositionToLocalStorage P (jsAdd1 (Int z)) (setPos (jsAdd1 (Int z)) w))).
Proof.
  intros Hok (u & Hu & Hc) Hl Hz Hlt. rewrite Hl in Hc.
  rewrite savePosition_storage_only. simpl_page.
  exists u. simpl_page. split; [exact Hu|]. rewrite Hl.
  rewrite (savePosition_storage P _ _ u Hok) by (simpl_page; exact Hu).
  simpl_page. cbn [jsAdd1].
  apply (persisted_move P u (history w) (pos w)); [|exact Hc|lia].
  intros Hnil. rewrite Hnil in Hlt. simpl in Hlt. lia.
Qed.

(** The last part of [fetchNext], when its closure holds the cursor of the
    moment, is the end of the uninterrupted [fetchNext]. *)
Lemma fetchNext_series_uninterrupted P u nxt l r now w :
  user w = Some u ->
  fetchNext_series P (pos w) nxt (SeriesFetched l r) now w
  = Some (fst (fetchNext P (NextSeries nxt l r) now w), [], []).
Proof.
  intros Hu. destruct w as [u0 h p d ld hl rt st]. cbn [user] in Hu.
  subst u0. reflexivity.
Qed.

(** [fetchNext] is its three parts, each run on the page the one before
    left, with the cursor of the call in the closure. *)
Lemma fetchNext_uninterrupted P u reply now w :
  user w = Some u ->
  let called := setLoading true w in
  let ended := fst (fetchNext P reply now w) in
  fetchNext_call (pos w) w
  = (called, [GetNextBinaryPair (user_id u)], [AwaitNextPair (pos w)])
  /\ match reply with
     | NextRejected =>
         fetchNext_named (pos w) Rejected called = Some (ended, [], [])
     | NextDone =>
         fetchNext_named (pos w) NoPairLeft called = Some (ended, [], [])
     | FrequencyRejected nxt =>
         fetchNext_named (pos w) (PairNamed nxt) called
         = Some (called,
                 [GetFrequency (next_left_id nxt);
                  GetFrequency (next_right_id nxt)],
                 [AwaitSeries (pos w) nxt])
         /\ fetchNext_series P (pos w) nxt Rejected now called
            = Some (ended, [], [])
     | NextSeries nxt l r =>
         fetchNext_named (pos w) (PairNamed nxt) called
         = Some (called,
                 [GetFrequency (next_left_id nxt);
                  GetFrequency (next_right_id nxt)],
                 [AwaitSeries (pos w) nxt])
         /\ fetchNext_series P (pos w) nxt (SeriesFetched l r) now called
            = Some (ended, [], [])
     end.
Proof.
  intros Hu. destruct w as [u0 h p d ld hl rt st]. cbn [user] in Hu.
  subst u0. destruct reply; repeat split.
Qed.

(** [onNext] is its two parts, and [fetchNext] where it calls it. *)
Lemma onNext_uninterrupted P u cur c now reply later w :
  user w = Some u -> current w = Some cur -> choice cur = Some c ->
  let closurePos := pos w in
  let closureLength := length (history w) in
  onNext_call now w
  = ([voteFor u cur c (now - rtStartRef w)],
     [AwaitSubmit closurePos closureLength])
  /\ onNext_resume P closurePos closureLength Rejected later w
     = Some (fst (onNext P now false reply later w), [], [])
  /\ onNext_resume P closurePos closureLength VoteAccepted later w
     = (if jsEq (pos w) (jsSub1 (jsLength (history w)))
        then Some (fetchNext_call closurePos w)
        else Some (fst (onNext P now true reply later w), [], []))
  /\ (jsEq (pos w) (jsSub1 (jsLength (history w))) = true ->
      onNext P now true reply later w
      = (fst (fetchNext P reply later w),
         voteFor u cur c (now - rtStartRef w)
         :: snd (fetchNext P reply later w))).
Proof.
  intros Hu Hcur Hc closurePos closureLength. subst closurePos closureLength.
  unfold onNext_call, onNext_resume, onNext. rewrite Hu, Hcur, Hc.
  change (Int (Z.of_nat (length (history w)))) with (jsLength (history w)).
  split; [reflexivity|]. split; [reflexivity|].
  destruct (jsEq (pos w) (jsSub1 (jsLength (history w)))).
  - split; [reflexivity|]. intros _.
    now destruct (fetchNext P reply later w).
  - split; [reflexivity|discriminate].
Qed.

Lemma persisted_append_end P u h q entry st :
  persisted P u h q st ->
  persisted P u (h ++ [entry]) (jsAdd1 q)
    (<[positionKey u := toString (jsAdd1 q)]>
       (<[historyKey u := JSON_stringify P (jsonOfHistory (h ++ [entry]))]> st)).
Proof.
  intros Hp. apply persisted_nonempty; [destruct h; discriminate|].
  split; [|split].
  - rewrite lookup_insert_ne; [apply lookup_insert_eq|].
    intros H. now apply (keys_differ u).
  - apply lookup_insert_eq.
  - rewrite length_app. cbn [length].
    destruct (persisted_cursor _ _ _ _ _ Hp) as [[-> ->]|[_ (z & -> & Hz)]].
    + exists 0. split; [reflexivity|]. simpl. lia.
    + exists (z + 1). split; [reflexivity|]. lia.
Qed.

(** The last part of a [fetchNext] called at the end of the history adds
    the pair after all the pairs held and moves the cursor of the moment by
    one. *)
Lemma fetchNext_series_consistent P p nxt l r now w w' reqs next :
  writes_ok P -> consistent P w -> historyLoaded w = true -> atEnd w p ->
  fetchNext_series P p nxt (SeriesFetched l r) now w = Some (w', reqs, next) ->
  consistent P w' /\ reqs = [] /\ next = [].
Proof.
  intros Hok (u & Hu & Hc) Hl Hend Hres. rewrite Hl in Hc.
  cbn [fetchNext_series] in Hres. cbv zeta in Hres.
  rewrite (sliceTo_at_end _ _ Hend) in Hres.
  injection Hres as <- <- <-. split; [|now split].
  rewrite savePosition_storage_only. simpl_page.
  rewrite saveHistory_storage_only. simpl_page.
  exists u. simpl_page. split; [exact Hu|]. rewrite Hl.
  rewrite (savePosition_storage P _ _ u Hok) by (simpl_page; exact Hu).
  simpl_page.
  rewrite (saveHistory_storage P _ _ u Hok) by exact Hu.
  now apply persisted_append_end.
Qed.

Lemma fetchDepsSame_of (w w' : Page) :
  historyLoaded w' = historyLoaded w ->
  length (history w') = length (history w) ->
  pos w' = pos w -> fetchDepsSame w w' = true.
Proof.
  intros Hl Hh Hp. unfold fetchDepsSame. rewrite Hl, Hh, Hp.
  rewrite eqb_reflx, Nat.eqb_refl. cbn [andb].
  destruct (pos w); cbn [objectIs]; [reflexivity|apply Z.eqb_refl].
Qed.

Lemma finish_same s tasks reqs w :
  fetchDepsSame (page s) w = true ->
  finish s tasks reqs w = ({| page := w; pending := tasks |}, reqs).
Proof. intros H. unfold finish, commit. rewrite H. now rewrite !app_nil_r. Qed.

(** Committing a render either leaves the page as the handler left it, or
    the fetch effect calls [fetchNext] at the end of the history. *)
Lemma finish_cases s tasks reqs w :
  finish s tasks reqs w = ({| page := w; pending := tasks |}, reqs)
  \/ exists u, user w = Some u /\ historyLoaded w = true
       /\ (needsNextPair w = true /\ fetchDepsSame (page s) w = false)
       /\ finish s tasks reqs w
          = ({| page := setLoading true w;
                pending := tasks ++ [AwaitNextPair (pos w)] |},
             reqs ++ [GetNextBinaryPair (user_id u)]).
Proof.
  unfold finish, commit.
  destruct (fetchDepsSame (page s) w); [left; now rewrite !app_nil_r|].
  destruct (user w) as [u|] eqn:Hu; [|left; now rewrite !app_nil_r].
  destruct (historyLoaded w) eqn:Hl; cbn [negb];
    [|left; now rewrite !app_nil_r].
  destruct (needsNextPair w) eqn:Hn; [|left; now rewrite !app_nil_r].
  right. exists u. unfold fetchNext_call. rewrite Hu. auto.
Qed.

Lemma needsNextPair_at_end (w : Page) :
  needsNextPair w = true ->
  (length (history w) =? 0)%nat || jsEq (pos w) (jsSub1 (jsLength (history w)))
  = true.
Proof.
  unfold needsNextPair. intros H. apply orb_true_iff in H as [H|H];
    apply orb_true_iff; [now left|right].
  now apply andb_true_iff in H as [H _].
Qed.

Lemma selectChoice_keeps P c w :
  user (selectChoice P c w) = user w
  /\ done (selectChoice P c w) = done w
  /\ historyLoaded (selectChoice P c w) = historyLoaded w
  /\ pos (selectChoice P c w) = pos w.
Proof.
  unfold selectChoice. destruct (current w); [|now repeat split].
  destruct (jsIndex (history w) (pos w)); [|now repeat split].
  cbv zeta. rewrite saveHistory_storage_only. simpl_page. now repeat split.
Qed.

Lemma onPrev_keeps P now w :
  user (onPrev P now w) = user w
  /\ done (onPrev P now w) = done w
  /\ historyLoaded (onPrev P now w) = historyLoaded w
  /\ history (onPrev P now w) = history w.
Proof.
  unfold onPrev. destruct (jsGt (pos w) (Int 0)); [|now repeat split].
  rewrite savePosition_storage_only. simpl_page. now repeat split.
Qed.

Lemma closureFits_same_length (w w' : Page) (t : Task) :
  length (history w') = length (history w) ->
  closureFits w t -> closureFits w' t.
Proof.
  intros Hlen. destruct t as [p n|p|p nxt]; cbn [closureFits];
    unfold atEnd, jsLength; now rewrite Hlen.
Qed.

Lemma finish_steady P s reqs w :
  consistent P w -> steady P (fst (finish s [] reqs w)).
Proof.
  intros Hcons.
  destruct (finish_cases s [] reqs w) as [->|(u & Hu & Hl & [Hn _] & ->)];
    cbn [fst]; split; simpl_page.
  - exact Hcons.
  - now left.
  - revert Hcons. now apply consistent_same.
  - right. split; [exact Hl|]. eexists. split; [reflexivity|].
    cbn [closureFits]. unfold atEnd. simpl_page.
    now apply needsNextPair_at_end.
Qed.

Lemma controlsShown_inv (w : Page) :
  controlsShown w = true ->
  historyLoaded w = true /\ done w = false /\ loading w = false
  /\ exists cur, current w = Some cur.
Proof.
  unfold controlsShown. intros H.
  apply andb_true_iff in H as [H Hcur]. apply andb_true_iff in H as [H Hload].
  apply andb_true_iff in H as [Hl Hd].
  apply negb_true_iff in Hd, Hload.
  destruct (current w) as [cur|]; [|discriminate]. eauto 6.
Qed.

Lemma selectChoice_length P c w :
  length (history (selectChoice P c w)) = length (history w).
Proof.
  destruct (current w) as [e|] eqn:Hcur;
    [|unfold selectChoice; now rewrite Hcur].
  destruct (selectChoice_current P c w e Hcur) as (_ & Hh & _).
  rewrite Hh. unfold setAt. destruct (pos w); [reflexivity|].
  apply length_insert.
Qed.

(** Going back never brings the cursor to the last pair: the fetch effect
    has nothing to do after it. *)
Lemma onPrev_needs_nothing P now w u :
  user w = Some u -> persisted P u (history w) (pos w) (localStorage w) ->
  fetchDepsSame w (onPrev P now w) = true
  \/ needsNextPair (onPrev P now w) = false.
Proof.
  intros Hu Hc. unfold onPrev.
  destruct (jsGt (pos w) (Int 0)) eqn:Hgt;
    [|left; apply fetchDepsSame_of; reflexivity].
  right. unfold needsNextPair. rewrite savePosition_storage_only. simpl_page.
  destruct (persisted_cursor _ _ _ _ _ Hc) as [[_ Hp]|(Hne & z & Hp & Hz)];
    rewrite Hp in *; [discriminate|].
  cbn [jsGt] in Hgt. apply Z.ltb_lt in Hgt.
  destruct (history w) as [|e h]; [congruence|].
  cbn [length Nat.eqb orb jsSub1 jsLength jsEq].
  replace (z - 1 =? Z.of_nat (S (length h)) - 1) with false;
    [reflexivity|].
  symmetry. apply Z.eqb_neq. cbn [length] in Hz. lia.
Qed.

(** While Next is not clicked during an await, at most one function is
    suspended and its closure fits the page. *)
Lemma step_steady P s ev s' reqs :
  writes_ok P -> steady P s -> unhurried s ev ->
  step P s ev = Ran (s', reqs) -> steady P s'.
Proof.
  intros Hok [Hcons Hpend] Hcalm Hstep.
  assert (Hidle : steady P s) by (split; assumption).
  assert (Hkeep : forall w,
            consistent P w -> length (history w) = length (history (page s)) ->
            historyLoaded w = historyLoaded (page s) ->
            steady P {| page := w; pending := pending s |}).
  { intros w Hw Hlen Hl. split; [exact Hw|]. simpl_page.
    destruct Hpend as [Hnil|(Hl' & t & Hone & Hclo)]; [now left|].
    right. split; [congruence|]. exists t. split; [exact Hone|].
    exact (closureFits_same_length (page s) w t Hlen Hclo). }
  destruct ev as [now|c|now|now|i o now]; cbn [step] in Hstep.
  - (* the load effect *)
    destruct (loadEffect P now (page s)) as [w'| |] eqn:Hload; try discriminate.
    apply Ran_inj in Hstep as [<- _].
    destruct (historyLoaded (page s)) eqn:Hl.
    + assert (Hw : w' = page s).
      { unfold loadEffect in Hload. rewrite Hl in Hload.
        destruct (user (page s)); now injection Hload. }
      subst w'. rewrite finish_same
        by (apply fetchDepsSame_of; reflexivity).
      cbn [fst]. exact Hidle.
    + destruct Hpend as [Hnil|(Hl' & _)]; [|congruence]. rewrite Hnil.
      apply finish_steady. eapply loadEffect_consistent; eassumption.
  - (* a click on a chart *)
    destruct (controlsShown (page s)); apply Ran_inj in Hstep as [<- _];
      [|exact Hidle].
    destruct (selectChoice_keeps P c (page s)) as (_ & _ & Hl & Hp).
    pose proof (selectChoice_length P c (page s)) as Hlen.
    rewrite finish_same by (apply fetchDepsSame_of; assumption).
    cbn [fst]. apply Hkeep; [now apply selectChoice_consistent| |]; assumption.
  - (* Previous *)
    destruct (controlsShown (page s)) eqn:Hshown;
      apply Ran_inj in Hstep as [<- _]; [|exact Hidle].
    apply controlsShown_inv in Hshown as (Hl & _).
    destruct (onPrev_keeps P now (page s)) as (_ & _ & Hl' & Hh).
    pose proof Hcons as (u & Hu & Hc). rewrite Hl in Hc.
    destruct (finish_cases s (pending s) [] (onPrev P now (page s)))
      as [->|(_ & _ & _ & [Hneed Hdeps] & _)].
    + cbn [fst]. apply Hkeep; [now apply onPrev_consistent| |exact Hl'].
      now rewrite Hh.
    + destruct (onPrev_needs_nothing P now (page s) u Hu Hc); congruence.
  - (* Next *)
    rewrite (Hcalm eq_refl) in Hstep.
    destruct (controlsShown (page s)) eqn:Hshown;
      [|apply Ran_inj in Hstep as [<- _]; exact Hidle].
    apply controlsShown_inv in Hshown as (Hl & _).
    destruct (onNext_call now (page s)) as [sent started] eqn:Hcall.
    apply Ran_inj in Hstep as [<- _]. cbn [fst app].
    unfold onNext_call in Hcall.
    destruct (user (page s)); [|injection Hcall as <- <-; split; [exact Hcons|now left]].
    destruct (current (page s)) as [cur|] eqn:Hcur;
      [|injection Hcall as <- <-; split; [exact Hcons|now left]].
    destruct (choice cur);
      injection Hcall as <- <-; (split; [exact Hcons|]); [|now left].
    right. split; [exact Hl|]. eexists. split; [reflexivity|].
    cbn [closureFits]. simpl_page. split; [reflexivity|].
    apply current_inv in Hcur as (z & Hz & Hge & Hlook).
    apply lookup_lt_Some in Hlook. exists z. split; [exact Hz|lia].
  - (* a call settles *)
    destruct (pending s !! i) as [t|] eqn:Hi;
      [|apply Ran_inj in Hstep as [<- _]; exact Hidle].
    destruct Hpend as [Hnil|(Hl & t0 & Hone & Hclo)];
      [rewrite Hnil in Hi; discriminate|].
    rewrite Hone in Hi, Hstep. destruct i as [|i]; [|discriminate].
    injection Hi as <-. cbn [take drop] in Hstep.
    destruct (resume P t0 o now (page s)) as [[[w' sent] next]|] eqn:Hres;
      [|apply Ran_inj in Hstep as [<- _]; exact Hidle].
    apply Ran_inj in Hstep as [<- _]. rewrite app_nil_r.
    pose proof Hcons as (u & Hu & _).
    destruct t0 as [p n|p|p nxt]; cbn [resume] in Hres;
      cbn [closureFits] in Hclo.
    + (* the vote is answered *)
      destruct Hclo as (-> & z & -> & Hz).
      destruct o; cbn [onNext_resume] in Hres; try discriminate.
      * injection Hres as <- <- <-. cbn [app].
        rewrite finish_same by (apply fetchDepsSame_of; reflexivity).
        split; [exact Hcons|now left].
      * change (Int (Z.of_nat (length (history (page s)))))
          with (jsLength (history (page s))) in Hres.
        destruct (jsEq (Int z) (jsSub1 (jsLength (history (page s)))))
          eqn:He.
        -- unfold fetchNext_call in Hres. rewrite Hu in Hres.
           injection Hres as <- <- <-. cbn [app].
           rewrite finish_same by (apply fetchDepsSame_of; reflexivity).
           split; simpl_page.
           ++ revert Hcons. now apply consistent_same.
           ++ right. split; [exact Hl|]. eexists. split; [reflexivity|].
              cbn [closureFits]. unfold atEnd. simpl_page.
              rewrite He. apply orb_true_r.
        -- injection Hres as <- <- <-. cbn [app]. apply finish_steady.
           cbn [jsEq jsSub1 jsLength] in He. apply Z.eqb_neq in He.
           apply advance_consistent; try assumption; lia.
    + (* the next pair is named, or none is left *)
      destruct o; cbn [fetchNext_named] in Hres; try discriminate;
        injection Hres as <- <- <-; cbn [app].
      * apply finish_steady. revert Hcons. now apply consistent_same.
      * apply finish_steady. revert Hcons. now apply consistent_same.
      * rewrite finish_same by (apply fetchDepsSame_of; reflexivity).
        split; [exact Hcons|]. right. split; [exact Hl|].
        eexists. split; [reflexivity|exact Hclo].
    + (* the two series arrive *)
      destruct o; try discriminate.
      * cbn [fetchNext_series] in Hres. injection Hres as <- <- <-. cbn [app].
        apply finish_steady. revert Hcons. now apply consistent_same.
      * apply (fetchNext_series_consistent P) in Hres as (Hc' & -> & ->);
          try assumption.
        cbn [app]. now apply finish_steady.
Qed.

Lemma first_steady P u : steady P (startOn (Some u) ∅).
Proof.
  split; [|now left]. exists u. simpl_page. split; [reflexivity|].
  split; [reflexivity|]. split; [reflexivity|].
  exists [], (Int (-1)). split; [|congruence].
  split; [reflexivity|apply lookup_empty].
Qed.

Lemma reload_steady P s :
  steady P s -> historyLoaded (page s) = true ->
  JSON_roundtrips P (history (page s)) ->
  steady P (startOn (user (page s)) (localStorage (page s))).
Proof.
  intros [(u & Hu & Hc) _] Hl Hrt. rewrite Hl in Hc.
  split; [|now left]. exists u. simpl_page. split; [exact Hu|].
  split; [reflexivity|]. split; [reflexivity|].
  exists (history (page s)), (pos (page s)). split; [exact Hc|].
  intros _. exact Hrt.
Qed.

Lemma reachable_unhurried_steady P s :
  writes_ok P -> reachable_unhurried P s -> steady P s.
Proof.
  intros Hok Hreach.
  induction Hreach as [u|s ev s' reqs _ IH Hcalm Hstep|s _ IH Hl Hrt].
  - apply first_steady.
  - exact (step_steady P s ev s' reqs Hok IH Hcalm Hstep).
  - now apply reload_steady.
Qed.

Lemma reachable_unhurried_reachable P s :
  reachable_unhurried P s -> reachable P s.
Proof.
  intros Hreach.
  induction Hreach as [u|s ev s' reqs _ IH _ Hstep|s _ IH Hl Hrt].
  - apply reach_first.
  - exact (reach_step P s ev s' reqs IH Hstep).
  - now apply reach_reload.
Qed.



Lemma samePair_refl (e : PairEntry) : samePair e e.
Proof. reflexivity. Qed.

Lemma Forall2_samePair_refl (h : list PairEntry) : Forall2 samePair h h.
Proof. induction h; constructor; [reflexivity|assumption]. Qed.

Lemma Forall2_samePair_insert (h : list PairEntry) (n : nat) (e : PairEntry)
    (c : option Choice) :
  h !! n = Some e -> Forall2 samePair h (<[n := withChoice e c]> h).
Proof.
  revert n. induction h as [|x h IH]; intros [|n] Hn; try discriminate.
  - injection Hn as ->. constructor; [reflexivity|apply Forall2_samePair_refl].
  - constructor; [reflexivity|now apply IH].
Qed.

Lemma loadEffect_keeps P t w w' :
  loadEffect P t w = Ran w' -> user w' = user w /\ done w' = done w.
Proof.
  unfold loadEffect. intros H.
  destruct (user w) eqn:Hu; [|injection H as <-; now split].
  destruct (historyLoaded w) eqn:Hl; [injection H as <-; now split|].
  cbv zeta in H.
  repeat match type of H with
         | context [match ?x with _ => _ end] => destruct x
         end;
    try discriminate; injection H as <-; simpl_page; now split.
Qed.


Lemma runsUnhurried_reachable P evs : forall s,
  reachable_unhurried P s -> runsUnhurried P s evs = true ->
  exists s' reqs, run P s evs = Ran (s', reqs) /\ reachable_unhurried P s'.
Proof.
  induction evs as [|ev evs IH]; intros s Hreach Hgo;
    cbn [runsUnhurried run] in *.
  - now exists s, [].
  - apply andb_true_iff in Hgo as [Hcalm Hgo].
    destruct (step P s ev) as [[s1 r1]| |] eqn:Hstep; try discriminate.
    destruct (IH s1) as (s2 & r2 & Hrun & Hreach2); [|exact Hgo|].
    + apply (calm_step P s ev s1 r1 Hreach); [|exact Hstep].
      intros Hctl. rewrite Hctl in Hcalm. cbn [negb orb] in Hcalm.
      destruct (pending s); [reflexivity|discriminate].
    + rewrite Hrun. now exists s2, (r1 ++ r2).
Qed.

(** ** What the events keep *)




Lemma sliceTo_prefix {A} (h : list A) (e : jsint) :
  exists k, sliceTo h e = take k h.
Proof.
  destruct e as [|z]; cbn [sliceTo]; [now exists 0%nat|].
  destruct (z <? 0); eexists; reflexivity.
Qed.

Lemma take_length_take {A} (k : nat) (h : list A) :
  take (length (take k h)) h = take k h.
Proof.
  rewrite length_take. destruct (Nat.le_gt_cases k (length h)).
  - now rewrite Nat.min_l by lia.
  - rewrite Nat.min_r by lia. now rewrite !take_ge by lia.
Qed.

(** Committing the render changes at most the loading mark. *)
Lemma finish_page s tasks reqs w :
  page (fst (finish s tasks reqs w)) = w
  \/ page (fst (finish s tasks reqs w)) = setLoading true w.
Proof.
  destruct (finish_cases s tasks reqs w) as [->|(u & _ & _ & _ & ->)];
    [now left|now right].
Qed.

(** What a function that goes on leaves alone: only the last part of
    [fetchNext] touches the history. *)
Lemma resume_keeps P t o now w w' reqs next :
  resume P t o now w = Some (w', reqs, next) ->
  user w' = user w /\ historyLoaded w' = historyLoaded w
  /\ (done w = true -> done w' = true)
  /\ (history w' = history w
      \/ exists p nxt l r,
           t = AwaitSeries p nxt /\ o = SeriesFetched l r
           /\ history w'
              = sliceTo (history w) (jsAdd1 p) ++ [newEntry nxt l r]).
Proof.
  intros H. destruct t as [p n|p|p nxt]; cbn [resume] in H.
  - destruct o; cbn [onNext_resume] in H; try discriminate.
    + injection H as <- _ _. repeat split; auto.
    + destruct (jsEq p (jsSub1 (Int (Z.of_nat n)))).
      * unfold fetchNext_call in H. destruct (user w) eqn:Hu;
          injection H as <- _ _; simpl_page; repeat split; auto.
      * injection H as <- _ _. rewrite savePosition_storage_only. simpl_page.
        repeat split; auto.
  - destruct o; cbn [fetchNext_named] in H; try discriminate;
      injection H as <- _ _; simpl_page; repeat split; auto.
  - destruct o as [| | | |l r]; cbn [fetchNext_series] in H; try discriminate.
    + injection H as <- _ _. simpl_page. repeat split; auto.
    + cbv zeta in H. injection H as <- _ _.
      rewrite savePosition_storage_only. simpl_page.
      rewrite saveHistory_storage_only. simpl_page.
      repeat split; auto. right. now exists p, nxt, l, r.
Qed.

Lemma step_keeps P s s' ev reqs :
  step P s ev = Ran (s', reqs) ->
  user (page s') = user (page s)
  /\ (done (page s) = true -> done (page s') = true)
  /\ (historyLoaded (page s) = true -> historyLoaded (page s') = true).
Proof.
  intros Hstep.
  assert (Hfin : forall tasks sent w,
            user w = user (page s) ->
            (done (page s) = true -> done w = true) ->
            (historyLoaded (page s) = true -> historyLoaded w = true) ->
            let w' := page (fst (finish s tasks sent w)) in
            user w' = user (page s)
            /\ (done (page s) = true -> done w' = true)
            /\ (historyLoaded (page s) = true -> historyLoaded w' = true)).
  { intros tasks sent w Hu Hd Hl.
    destruct (finish_page s tasks sent w) as [->| ->]; simpl_page; auto. }
  destruct ev as [now|c|now|now|i o now]; cbn [step] in Hstep.
  - destruct (loadEffect P now (page s)) as [w'| |] eqn:Hload; try discriminate.
    apply Ran_inj in Hstep as [<- _].
    pose proof (loadEffect_keeps P now (page s) w' Hload) as [Hu Hd].
    apply Hfin; [exact Hu|congruence|].
    intros Hl. unfold loadEffect in Hload. rewrite Hl in Hload.
    destruct (user (page s)); injection Hload as <-; exact Hl.
  - destruct (controlsShown (page s)); apply Ran_inj in Hstep as [<- _];
      [|now repeat split].
    destruct (selectChoice_keeps P c (page s)) as (Hu & Hd & Hl & _).
    apply Hfin; congruence.
  - destruct (controlsShown (page s)); apply Ran_inj in Hstep as [<- _];
      [|now repeat split].
    destruct (onPrev_keeps P now (page s)) as (Hu & Hd & Hl & _).
    apply Hfin; congruence.
  - destruct (controlsShown (page s));
      [|apply Ran_inj in Hstep as [<- _]; now repeat split].
    destruct (onNext_call now (page s)).
    apply Ran_inj in Hstep as [<- _]. now repeat split.
  - destruct (pending s !! i) as [t|];
      [|apply Ran_inj in Hstep as [<- _]; now repeat split].
    destruct (resume P t o now (page s)) as [[[w' sent] next]|] eqn:Hres;
      [|apply Ran_inj in Hstep as [<- _]; now repeat split].
    apply Ran_inj in Hstep as [<- _].
    apply resume_keeps in Hres as (Hu & Hl & Hd & _).
    apply Hfin; [exact Hu|exact Hd|congruence].
Qed.

(** The history after an event: a part of the old one from its start, the
    choices apart, then at most one new pair; and the whole of the old one
    if the closures of the suspended functions are up to date. *)
Lemma step_history P s s' ev reqs :
  historyLoaded (page s) = true -> step P s ev = Ran (s', reqs) ->
  exists kept newer,
    history (page s') = kept ++ newer /\ (length newer <= 1)%nat
    /\ Forall2 samePair (take (length kept) (history (page s))) kept
    /\ (steady P s -> Forall2 samePair (history (page s)) kept).
Proof.
  intros Hl Hstep.
  assert (Hsame : forall v, history v = history (page s) ->
            exists kept newer,
              history v = kept ++ newer /\ (length newer <= 1)%nat
              /\ Forall2 samePair (take (length kept) (history (page s))) kept
              /\ (steady P s -> Forall2 samePair (history (page s)) kept)).
  { intros v Hv. exists (history (page s)), []. rewrite app_nil_r.
    split; [exact Hv|]. split; [simpl; lia|].
    rewrite firstn_all. split; [|intros _]; apply Forall2_samePair_refl. }
  assert (Hfin : forall tasks sent w,
            history (page (fst (finish s tasks sent w))) = history w).
  { intros tasks sent w.
    destruct (finish_page s tasks sent w) as [->| ->]; reflexivity. }
  destruct ev as [now|c|now|now|i o now]; cbn [step] in Hstep.
  - unfold loadEffect in Hstep. rewrite Hl in Hstep.
    assert (Hrun : Ran (finish s (pending s) [] (page s)) = Ran (s', reqs)).
    { destruct (user (page s)); exact Hstep. }
    apply Ran_inj in Hrun as [<- _]. apply Hsame, Hfin.
  - destruct (controlsShown (page s)) eqn:Hshown;
      apply Ran_inj in Hstep as [<- _]; [|now apply Hsame].
    apply controlsShown_inv in Hshown as (_ & _ & _ & e & Hcur).
    destruct (selectChoice_current P c (page s) e Hcur) as (_ & Hh & _).
    apply current_inv in Hcur as (z & Hp & Hz & Hlook).
    rewrite Hp in Hh. cbn [setAt] in Hh.
    eexists _, []. rewrite app_nil_r. rewrite Hfin.
    split; [exact Hh|]. split; [simpl; lia|].
    rewrite length_insert, firstn_all.
    split; [|intros _]; now apply Forall2_samePair_insert.
  - destruct (controlsShown (page s)); apply Ran_inj in Hstep as [<- _];
      [|now apply Hsame].
    apply Hsame. rewrite Hfin. apply onPrev_keeps.
  - destruct (controlsShown (page s));
      [|apply Ran_inj in Hstep as [<- _]; now apply Hsame].
    destruct (onNext_call now (page s)).
    apply Ran_inj in Hstep as [<- _]. now apply Hsame.
  - destruct (pending s !! i) as [t|] eqn:Hi;
      [|apply Ran_inj in Hstep as [<- _]; now apply Hsame].
    destruct (resume P t o now (page s)) as [[[w' sent] next]|] eqn:Hres;
      [|apply Ran_inj in Hstep as [<- _]; now apply Hsame].
    apply Ran_inj in Hstep as [<- _].
    apply resume_keeps in Hres
      as (_ & _ & _ & [Hh|(p & nxt & l & r & -> & -> & Hh)]).
    + apply Hsame. now rewrite Hfin.
    + exists (sliceTo (history (page s)) (jsAdd1 p)), [newEntry nxt l r].
      rewrite Hfin. split; [exact Hh|]. split; [simpl; lia|]. split.
      * destruct (sliceTo_prefix (history (page s)) (jsAdd1 p)) as [k ->].
        rewrite take_length_take. apply Forall2_samePair_refl.
      * intros [_ [Hnil|(_ & t0 & Hone & Hclo)]];
          [rewrite Hnil in Hi; discriminate|].
        rewrite Hone in Hi. destruct i; [|discriminate].
        injection Hi as ->.
        rewrite (sliceTo_at_end _ _ Hclo). apply Forall2_samePair_refl.
Qed.


(** ** Reopening the page *)


Lemma sample_session :
  Sample.after Sample.toPair1 = {| page := Sample.onPair1; pending := [] |}.
Proof. vm_compute. reflexivity. Qed.

Lemma sample_session_unhurried :
  reachable_unhurried Reference.platform
    {| page := Sample.onPair1; pending := [] |}.
Proof.
  destruct (runsUnhurried_reachable Reference.platform Sample.toPair1
              Sample.firstVisit (calm_first _ Sample.user7))
    as (s' & reqs & Hrun & Hreach); [vm_compute; reflexivity|].
  rewrite <- sample_session. unfold Sample.after. now rewrite Hrun.
Qed.



(** Resuming on a last pair that already carries a choice: history and cursor
    come back as they were, and the fetch effect at once asks the server for
    the next pair, the vote of that last pair not having been sent.  The
    request names the user only. *)
Example resume_on_chosen_last_asks_for_next :
  let w := selectChoice Reference.platform ChoiceRight Sample.onPair1 in
  match loadEffect Reference.platform 30 (mount (user w) (localStorage w)) with
  | Ran w' =>
      history w' = history w
      /\ pos w' = Int 1
      /\ needsNextPair w' = true
      /\ snd (fetchEffect Reference.platform NextRejected 31 w')
         = [GetNextBinaryPair 7]
  | _ => False
  end.
Proof. vm_compute. repeat split. Qed.

(** After such a resume, if the server names the pair whose vote it has not
    received, the page asks for the series of that pair again and adds the
    pair after the one it holds: the page does not compare the index the
    server names with those of its history. *)
Example resumed_session_adds_a_held_index :
  let w := selectChoice Reference.platform ChoiceRight Sample.onPair1 in
  match run Reference.platform (startOn (user w) (localStorage w))
          [Load 30; Settle 0 (PairNamed Sample.pair1) 31;
           Settle 0 (SeriesFetched Sample.leftSeries Sample.rightSeries) 32] with
  | Ran (s', reqs) =>
      map index (history (page s')) = [0; 1; 1]
      /\ pos (page s') = Int 2
      /\ reqs = [GetNextBinaryPair 7; GetFrequency 12; GetFrequency 13]
  | _ => False
  end.
Proof. vm_compute. repeat split. Qed.

End SessionFacts.

(** * More on the normalisers *)

Section NormalizeMore.
Import Normalize.
Local Open Scope Q_scope.

Lemma Qmax_cases (a b : Q) : Qmax a b = a \/ Qmax a b = b.
Proof.
  unfold Qmax, GenericMinMax.gmax. destruct (a ?= b); auto.
Qed.

(** The maximum over a list is its start value or one of its elements. *)
Lemma fold_max_attained (l : list Q) (a : Q) :
  fold_left Qmax l a = a \/ In (fold_left Qmax l a) l.
Proof.
  revert a. induction l as [|x l IH]; intros a; simpl; [now left|].
  destruct (IH (Qmax a x)) as [H|H]; [|right; now right].
  rewrite H. destruct (Qmax_cases a x) as [->| ->]; [now left|right; now left].
Qed.

Lemma maxCount_attained series :
  maxCount series = 0 \/ exists p, In p series /\ count p = maxCount series.
Proof.
  unfold maxCount. destruct (fold_max_attained (map count series) 0) as [H|H];
    [now left|right].
  apply in_map_iff in H as (p & Hp & Hin). eauto.
Qed.

Lemma fold_max_le (l : list Q) (a b : Q) :
  a <= b -> (forall x, In x l -> x <= b) -> fold_left Qmax l a <= b.
Proof.
  revert a. induction l as [|x l IH]; intros a Ha Hl; simpl; [exact Ha|].
  apply IH; [|intros y Hy; apply Hl; now right].
  apply Q.max_lub; [exact Ha|apply Hl; now left].
Qed.

Lemma maxCount_le series b :
  0 <= b -> (forall p, In p series -> count p <= b) -> maxCount series <= b.
Proof.
  intros Hb H. apply fold_max_le; [exact Hb|].
  intros x Hx. apply in_map_iff in Hx as (p & <- & Hp). now apply H.
Qed.

Lemma safeDiv_self (m : Q) : 0 < m -> safeDiv m m == 1.
Proof.
  intros Hm. unfold safeDiv. destruct (Qeq_bool m 0) eqn:He.
  - apply Qeq_bool_iff in He. rewrite He in Hm. discriminate.
  - apply Qmult_inv_r. intros H. rewrite H in Hm. discriminate.
Qed.


Lemma safeDiv_by_one (a m : Q) : m == 1 -> safeDiv a m == a.
Proof.
  intros Hm. unfold safeDiv. destruct (Qeq_bool m 0) eqn:He.
  - apply Qeq_bool_iff in He. rewrite Hm in He. discriminate.
  - rewrite Hm. field.
Qed.

(** X1: on a series whose counts are not negative, [normalizePerSeries]
    returns as many points, with the same dates in the same order, and every
    count in [0,1]; when no count is positive every count is exactly 0. *)
Theorem normalizePerSeries_unit_interval (series : list XY) :
  nonNegative series ->
  map date (normalizePerSeries series) = map date series
  /\ Forall inUnit (normalizePerSeries series)
  /\ (maxCount series == 0 -> exactlyZero (normalizePerSeries series)).
Proof.
  intros Hnn. unfold normalizePerSeries. split; [|split].
  - rewrite map_map. reflexivity.
  - apply Forall_map_in. intros p Hin. unfold inUnit. simpl.
    apply safeDiv_unit; [exact (nonNegative_in _ _ Hnn Hin)|].
    now apply maxCount_ge.
  - intros Hz. apply Forall_map_in. intros p _. simpl. now apply safeDiv_zero.
Qed.

Lemma normalizePerSeries_unit_interval_witness :
  map date (normalizePerSeries [mkXY "2001" 1; mkXY "2002" 4])
    = ["2001"%string; "2002"%string]
  /\ Forall inUnit (normalizePerSeries [mkXY "2001" 1; mkXY "2002" 4]).
Proof.
  destruct (normalizePerSeries_unit_interval [mkXY "2001" 1; mkXY "2002" 4])
    as (Hd & Hu & _).
  - repeat constructor; simpl; discriminate.
  - exact (conj Hd Hu).
Defined.

(** X2: when some count of the series is positive, the largest count is
    mapped to 1 by [normalizePerSeries]: the output has a point of count 1. *)
Theorem normalizePerSeries_peak_is_one (series : list XY) :
  Exists (fun p => 0 < count p) series ->
  Exists (fun p => count p == 1) (normalizePerSeries series).
Proof.
  intros Hpos. apply Exists_exists in Hpos as (q & Hq & Hqpos).
  apply list_elem_of_In in Hq.
  assert (Hmax : 0 < maxCount series).
  { eapply Qlt_le_trans; [exact Hqpos|now apply maxCount_ge]. }
  destruct (maxCount_attained series) as [H0|(p & Hp & Hc)].
  - rewrite H0 in Hmax. discriminate.
  - apply Exists_exists. exists (withCount p (safeDiv (count p) (maxCount series))).
    split.
    + apply list_elem_of_In. unfold normalizePerSeries.
      apply in_map_iff. exists p. split; [reflexivity|exact Hp].
    + simpl. rewrite Hc. now apply safeDiv_self.
Qed.

Lemma normalizePerSeries_peak_is_one_witness :
  Exists (fun p => count p == 1)
    (normalizePerSeries [mkXY "2001" 1; mkXY "2002" 4]).
Proof.
  apply (normalizePerSeries_peak_is_one [mkXY "2001" 1; mkXY "2002" 4]).
  apply Exists_cons_hd. reflexivity.
Defined.


Lemma maxBoth_exact (l r : list XY) (b : Q) :
  0 <= b ->
  (forall p, In p l \/ In p r -> count p <= b) ->
  (exists p, (In p l \/ In p r) /\ count p == b) ->
  maxBoth l r == b.
Proof.
  intros Hb Hle (p & Hp & Hc). apply Qle_antisym.
  - unfold maxBoth. apply Q.max_lub; [|exact Hb].
    apply Q.max_lub; apply maxCount_le; auto.
  - rewrite <- Hc. destruct Hp as [Hp|Hp];
      [now apply maxBoth_ge_left|now apply maxBoth_ge_right].
Qed.

Lemma maxBoth_attained (l r : list XY) :
  0 < maxBoth l r ->
  exists p, (In p l \/ In p r) /\ count p == maxBoth l r.
Proof.
  intros Hpos.
  assert (Hm : maxBoth l r == Qmax (maxCount l) (maxCount r)).
  { unfold maxBoth in *.
    destruct (Q.max_spec (Qmax (maxCount l) (maxCount r)) 0) as [[_ H0]|[_ Hm]];
      [|exact Hm]. rewrite H0 in Hpos. discriminate. }
  destruct (Q.max_spec (maxCount l) (maxCount r)) as [[_ H]|[_ H]].
  - assert (Hr : 0 < maxCount r) by (rewrite <- H, <- Hm; exact Hpos).
    destruct (maxCount_attained r) as [Hz|(p & Hp & Hc)].
    + rewrite Hz in Hr. discriminate.
    + exists p. split; [now right|]. rewrite Hc, Hm, H. reflexivity.
  - assert (Hl : 0 < maxCount l) by (rewrite <- H, <- Hm; exact Hpos).
    destruct (maxCount_attained l) as [Hz|(p & Hp & Hc)].
    + rewrite Hz in Hl. discriminate.
    + exists p. split; [now left|]. rewrite Hc, Hm, H. reflexivity.
Qed.

(** X4: on series whose counts are not negative [normalizePair] is
    idempotent: normalising its own output returns the same two series. *)
Theorem normalizePair_idempotent (left right : list XY) :
  nonNegative left -> nonNegative right ->
  let once := normalizePair left right in
  let twice := normalizePair (fst once) (snd once) in
  sameSeries (fst twice) (fst once) /\ sameSeries (snd twice) (snd once).
Proof.
  intros Hl Hr once twice.
  set (m := maxBoth left right).
  set (scale := fun p => withCount p (safeDiv (count p) m)).
  assert (Honce : once = (map scale left, map scale right)) by reflexivity.
  assert (Hfix : forall p, In p (fst once) \/ In p (snd once) ->
            safeDiv (count p) (maxBoth (fst once) (snd once)) == count p).
  { destruct (Qeq_bool m 0) eqn:Hm.
    - (* all counts are zero already *)
      apply Qeq_bool_iff in Hm.
      intros p Hp. assert (Hc : count p = 0).
      { rewrite Honce in Hp. simpl in Hp.
        destruct Hp as [Hp|Hp]; apply in_map_iff in Hp as (q & <- & _);
          simpl; now apply safeDiv_zero. }
      rewrite Hc. unfold safeDiv. destruct (Qeq_bool _ 0); [reflexivity|].
      unfold Qdiv. now rewrite Qmult_0_l.
    - (* the largest count has become 1 *)
      apply Qeq_bool_neq in Hm.
      assert (Hpos : 0 < m).
      { destruct (proj1 (Qle_lteq 0 m) (maxBoth_nonneg left right)) as [H|H];
          [exact H|]. exfalso. apply Hm. symmetry. exact H. }
      assert (Hone : maxBoth (fst once) (snd once) == 1).
      { apply maxBoth_exact; [discriminate| |].
        - intros p Hp. rewrite Honce in Hp. simpl in Hp.
          destruct Hp as [Hp|Hp]; apply in_map_iff in Hp as (q & <- & Hq);
            simpl; apply safeDiv_unit.
          + exact (nonNegative_in _ _ Hl Hq).
          + now apply maxBoth_ge_left.
          + exact (nonNegative_in _ _ Hr Hq).
          + now apply maxBoth_ge_right.
        - destruct (maxBoth_attained left right Hpos) as (q & Hq & Hc).
          exists (scale q). split.
          + rewrite Honce. simpl. destruct Hq as [Hq|Hq];
              [left|right]; now apply in_map.
          + simpl. fold m in Hc. unfold safeDiv.
            destruct (Qeq_bool m 0) eqn:He;
              [apply Qeq_bool_iff in He; contradiction|].
            rewrite Hc. apply Qmult_inv_r. exact Hm. }
      intros p _. now apply safeDiv_by_one. }
  subst twice. unfold normalizePair. cbn [fst snd].
  split; unfold sameSeries.
  - rewrite <- (map_id (fst once)) at 2. apply Forall2_map_in.
    intros p Hp. split; [reflexivity|]. simpl. apply Hfix. now left.
  - rewrite <- (map_id (snd once)) at 2. apply Forall2_map_in.
    intros p Hp. split; [reflexivity|]. simpl. apply Hfix. now right.
Qed.

Lemma normalizePair_idempotent_witness :
  let once := normalizePair [mkXY "2001" 1; mkXY "2002" 4] [mkXY "2001" 2] in
  let twice := normalizePair (fst once) (snd once) in
  sameSeries (fst twice) (fst once) /\ sameSeries (snd twice) (snd once).
Proof.
  apply (normalizePair_idempotent [mkXY "2001" 1; mkXY "2002" 4] [mkXY "2001" 2]);
    repeat constructor; simpl; discriminate.
Defined.

End NormalizeMore.

(** * More on the comparison session *)

Section SessionMore.
Import Normalize BinaryVotingPage SessionSpec.

Lemma sample_unhurried (evs : list Event) :
  runsUnhurried Reference.platform Sample.firstVisit evs = true ->
  reachable_unhurried Reference.platform (Sample.after evs).
Proof.
  intros Hgo.
  destruct (runsUnhurried_reachable Reference.platform evs Sample.firstVisit
              (calm_first _ Sample.user7) Hgo) as (s' & reqs & Hrun & Hreach).
  unfold Sample.after. now rewrite Hrun.
Qed.

(** X5: under a store that accepts its writes, in every state the session
    reaches as long as Next is not clicked while a call is awaited, with the
    load effect done, the cursor is an index of the history and the current
    pair is the one at the cursor; or no pair was fetched yet, and the cursor
    is -1. *)
Theorem cursor_stays_in_range (P : Platform) (s : Session) :
  writes_ok P -> reachable_unhurried P s -> historyLoaded (page s) = true ->
  cursorInRange (page s).
Proof.
  intros Hok Hreach Hl.
  destruct (reachable_unhurried_steady P s Hok Hreach) as [(u & Hu & Hc) _].
  rewrite Hl in Hc. set (w := page s) in *.
  destruct (persisted_cursor _ _ _ _ _ Hc) as [[Hh Hp]|(Hne & z & Hp & Hz)].
  - left. split; [exact Hh|]. split; [exact Hp|].
    unfold current. now rewrite Hp.
  - right. destruct (lookup_lt_is_Some_2 (history w) (Z.to_nat z)) as [e He];
      [lia|].
    exists z, e. split; [exact Hp|]. split; [exact Hz|]. split; [exact He|].
    apply current_inv. exists z. split; [exact Hp|]. split; [lia|exact He].
Qed.

Lemma cursor_stays_in_range_witness : cursorInRange Sample.onPair1.
Proof.
  apply (cursor_stays_in_range Reference.platform
           {| page := Sample.onPair1; pending := [] |}).
  - intros key value. reflexivity.
  - exact sample_session_unhurried.
  - reflexivity.
Defined.

(** ** Saving and loading *)

Lemma intToString_inj (a b : Z) : intToString a = intToString b -> a = b.
Proof.
  intros H. assert (Hp : parseInt (intToString a) = parseInt (intToString b))
    by now rewrite H.
  rewrite !parseInt_intToString in Hp. now injection Hp.
Qed.

Lemma toString_truthy (p : jsint) : truthy (Some (toString p)) = Some (toString p).
Proof.
  apply truthy_nonempty. destruct p as [|z]; [discriminate|].
  apply intToString_nonempty.
Qed.

Lemma parseInt_toString (p : jsint) : parseInt (toString p) = p.
Proof. destruct p as [|z]; [reflexivity|apply parseInt_intToString]. Qed.

(** X7: with a user and a write the store accepts, the cursor saved by
    [savePositionToLocalStorage] is the cursor [loadPositionFromLocalStorage]
    reads back, for every integer and for [NaN]. *)
Theorem position_round_trip (P : Platform) (p : jsint) (w : Page) (u : StoredUser) :
  user w = Some u ->
  setItem_ok P (positionKey u) (toString p) = true ->
  loadPositionFromLocalStorage (savePositionToLocalStorage P p w) = p.
Proof.
  intros Hu Hok.
  unfold loadPositionFromLocalStorage, savePositionToLocalStorage.
  rewrite Hu. cbn [getPositionKey]. fold (positionKey u). simpl_page.
  rewrite Hu. cbn [getPositionKey]. fold (positionKey u).
  unfold setItem. rewrite Hok, lookup_insert_eq, toString_truthy.
  apply parseInt_toString.
Qed.

Lemma position_round_trip_witness :
  loadPositionFromLocalStorage
    (savePositionToLocalStorage Reference.platform (Int 41) Sample.opened)
  = Int 41.
Proof.
  apply (position_round_trip Reference.platform (Int 41) Sample.opened Sample.user7);
    reflexivity.
Defined.

(** X8: with a user, a write the store accepts and JSON builtins that read
    back the text they wrote, the history saved by
    [saveHistoryToLocalStorage] is what [loadHistoryFromLocalStorage]
    returns: an array whose typed view is the history saved. *)
Theorem history_round_trip (P : Platform) (h : list PairEntry) (w : Page)
    (u : StoredUser) :
  user w = Some u ->
  setItem_ok P (historyKey u) (JSON_stringify P (jsonOfHistory h)) = true ->
  JSON_roundtrips P h ->
  exists items,
    loadHistoryFromLocalStorage P (saveHistoryToLocalStorage P h w) = JArr items
    /\ historyOfJson items = Some h.
Proof.
  intros Hu Hok [Hne Hparse].
  unfold loadHistoryFromLocalStorage, saveHistoryToLocalStorage.
  rewrite Hu. cbn [getHistoryKey]. fold (historyKey u). simpl_page.
  rewrite Hu. cbn [getHistoryKey]. fold (historyKey u).
  unfold setItem. rewrite Hok, lookup_insert_eq, (truthy_nonempty _ Hne), Hparse.
  exists (map jsonOfEntry h). split; [reflexivity|].
  apply historyOfJson_jsonOfHistory.
Qed.

Lemma history_round_trip_witness :
  exists items,
    loadHistoryFromLocalStorage Reference.platform
      (saveHistoryToLocalStorage Reference.platform (history Sample.onPair1)
         Sample.opened) = JArr items
    /\ historyOfJson items = Some (history Sample.onPair1).
Proof.
  apply (history_round_trip Reference.platform (history Sample.onPair1)
           Sample.opened Sample.user7).
  - reflexivity.
  - reflexivity.
  - split; [vm_compute; discriminate|vm_compute; reflexivity].
Defined.

(** X9: a write the store refuses is swallowed: [saveHistoryToLocalStorage]
    and [savePositionToLocalStorage] then return the page unchanged, store
    included, and so they do when there is no user. *)
Theorem refused_write_changes_nothing (P : Platform) (h : list PairEntry)
    (p : jsint) (w : Page) :
  (forall u, user w = Some u ->
     setItem_ok P (historyKey u) (JSON_stringify P (jsonOfHistory h)) = false) ->
  (forall u, user w = Some u ->
     setItem_ok P (positionKey u) (toString p) = false) ->
  saveHistoryToLocalStorage P h w = w /\ savePositionToLocalStorage P p w = w.
Proof.
  intros Hh Hp.
  unfold saveHistoryToLocalStorage, savePositionToLocalStorage, setItem.
  destruct w as [[u|] hist ps d l hl rt st]; cbn in *; [|split; reflexivity].
  fold (historyKey u) (positionKey u).
  now rewrite (Hh u eq_refl), (Hp u eq_refl).
Qed.

Lemma refused_write_changes_nothing_witness :
  let full := {| JSON_stringify := Reference.print;
                 JSON_parse := Reference.parse;
                 setItem_ok := fun _ _ => false |} in
  saveHistoryToLocalStorage full (history Sample.onPair1) Sample.opened
    = Sample.opened
  /\ savePositionToLocalStorage full (Int 3) Sample.opened = Sample.opened.
Proof.
  apply (refused_write_changes_nothing
           {| JSON_stringify := Reference.print; JSON_parse := Reference.parse;
              setItem_ok := fun _ _ => false |}
           (history Sample.onPair1) (Int 3) Sample.opened);
    intros u _; reflexivity.
Defined.

Lemma keys_of_other_users (u u' : StoredUser) :
  user_id u <> user_id u' ->
  historyKey u <> historyKey u' /\ historyKey u <> positionKey u'
  /\ positionKey u <> historyKey u' /\ positionKey u <> positionKey u'.
Proof.
  intros Hne. unfold historyKey, positionKey. cbn [String.append].
  repeat split; try discriminate; intros H; injection H as H;
    apply intToString_inj in H; contradiction.
Qed.

(** X10: the keys are per user: whatever the session of one user saves, the
    history and the cursor that the page of a user with another id loads from
    the same store are what they were. *)
Theorem other_users_untouched (P : Platform) (u u' : StoredUser)
    (h : list PairEntry) (p : jsint) (w w' : Page) :
  user_id u <> user_id u' -> user w = Some u -> user w' = Some u' ->
  let after :=
    localStorage (savePositionToLocalStorage P p (saveHistoryToLocalStorage P h w)) in
  loadHistoryFromLocalStorage P (setStorage after w')
    = loadHistoryFromLocalStorage P (setStorage (localStorage w) w')
  /\ loadPositionFromLocalStorage (setStorage after w')
     = loadPositionFromLocalStorage (setStorage (localStorage w) w').
Proof.
  intros Hne Hu Hu' after.
  destruct (keys_of_other_users u u' Hne) as (Hhh & Hhp & Hph & Hpp).
  assert (Hlook : forall key, key <> historyKey u -> key <> positionKey u ->
            after !! key = localStorage w !! key).
  { intros key H1 H2. subst after.
    unfold savePositionToLocalStorage, saveHistoryToLocalStorage.
    rewrite Hu. cbn [getHistoryKey getPositionKey]. simpl_page.
    rewrite Hu. cbn [getPositionKey].
    fold (historyKey u) (positionKey u). simpl_page. unfold setItem.
    destruct (setItem_ok P (positionKey u) _), (setItem_ok P (historyKey u) _);
      rewrite ?lookup_insert_ne by congruence; reflexivity. }
  unfold loadHistoryFromLocalStorage, loadPositionFromLocalStorage.
  simpl_page. rewrite Hu'. cbn [getHistoryKey getPositionKey].
  fold (historyKey u') (positionKey u').
  rewrite !Hlook by congruence. split; reflexivity.
Qed.

Lemma other_users_untouched_witness :
  let other := {| user_id := 8; username := "bob" |} in
  let w' := mount (Some other) ∅ in
  let after :=
    localStorage (savePositionToLocalStorage Reference.platform (Int 1)
                    (saveHistoryToLocalStorage Reference.platform
                       (history Sample.onPair1) Sample.opened)) in
  loadHistoryFromLocalStorage Reference.platform (setStorage after w')
    = loadHistoryFromLocalStorage Reference.platform
        (setStorage (localStorage Sample.opened) w')
  /\ loadPositionFromLocalStorage (setStorage after w')
     = loadPositionFromLocalStorage (setStorage (localStorage Sample.opened) w').
Proof.
  apply (other_users_untouched Reference.platform Sample.user7
           {| user_id := 8; username := "bob" |}
           (history Sample.onPair1) (Int 1) Sample.opened
           (mount (Some {| user_id := 8; username := "bob" |}) ∅)).
  - simpl. lia.
  - reflexivity.
  - reflexivity.
Defined.

(** ** Fetching and voting *)

(** The result of [fetchNext] for each answer, store left aside. *)
Lemma fetchNext_cases P u w reply t :
  user w = Some u ->
  let w' := fst (fetchNext P reply t w) in
  user w' = Some u /\ historyLoaded w' = historyLoaded w /\ loading w' = false
  /\ match reply with
     | NextRejected | FrequencyRejected _ =>
         history w' = history w /\ pos w' = pos w /\ done w' = done w
         /\ localStorage w' = localStorage w
     | NextDone =>
         history w' = history w /\ pos w' = pos w /\ done w' = true
         /\ localStorage w' = localStorage w
     | NextSeries nxt l r =>
         history w' = sliceTo (history w) (jsAdd1 (pos w)) ++ [newEntry nxt l r]
         /\ pos w' = jsAdd1 (pos w) /\ done w' = done w
     end.
Proof.
  intros Hu. cbv zeta. unfold fetchNext. rewrite Hu.
  destruct reply as [| |nxt|nxt l r]; simpl_page;
    try (repeat split; assumption).
  cbn zeta. rewrite savePosition_storage_only. simpl_page.
  rewrite saveHistory_storage_only. simpl_page. repeat split; assumption.
Qed.

Lemma fetchNext_no_user P w reply t :
  user w = None -> fetchNext P reply t w = (w, []).
Proof. intros Hu. unfold fetchNext. now rewrite Hu. Qed.

Lemma lookup_after_all {A} (l : list A) (x : A) :
  (l ++ [x]) !! length l = Some x.
Proof. rewrite lookup_app_r by lia. now rewrite Nat.sub_diag. Qed.

(** X11: when the fetch effect finds that a pair is needed and the server
    names one with its two series, the requests sent are the one for the
    next pair and the two for the series; the pair is added after the pairs
    held, becomes the current pair, carries no choice, and no further pair is
    needed. *)
Theorem fetched_pair_becomes_current (P : Platform) (w : Page) (u : StoredUser)
    (nxt : NextPair) (l r : list XY) (t : Z) :
  user w = Some u -> historyLoaded w = true -> needsNextPair w = true ->
  (history w = [] -> pos w = Int (-1)) ->
  let res := fetchEffect P (NextSeries nxt l r) t w in
  snd res = [GetNextBinaryPair (user_id u); GetFrequency (next_left_id nxt);
             GetFrequency (next_right_id nxt)]
  /\ history (fst res) = history w ++ [newEntry nxt l r]
  /\ pos (fst res) = Int (Z.of_nat (length (history w)))
  /\ current (fst res) = Some (newEntry nxt l r)
  /\ choice (newEntry nxt l r) = None
  /\ needsNextPair (fst res) = false.
Proof.
  intros Hu Hl Hneed Hempty res. subst res.
  unfold fetchEffect. rewrite Hu, Hl, Hneed. cbn [negb].
  destruct (fetchNext_cases P u w (NextSeries nxt l r) t Hu)
    as (_ & _ & _ & Hh & Hp & _).
  assert (Hslice : sliceTo (history w) (jsAdd1 (pos w)) = history w).
  { apply sliceTo_at_end. unfold needsNextPair in Hneed.
    apply orb_true_iff in Hneed as [Hn|Hn]; apply orb_true_iff;
      [now left|right]. now apply andb_true_iff in Hn as [Hn _]. }
  rewrite Hslice in Hh.
  assert (Hpos : jsAdd1 (pos w) = Int (Z.of_nat (length (history w)))).
  { unfold needsNextPair in Hneed. apply orb_true_iff in Hneed as [Hn|Hn].
    - apply Nat.eqb_eq in Hn. destruct (history w) eqn:Hnil; [|discriminate].
      now rewrite (Hempty eq_refl).
    - apply andb_true_iff in Hn as [Hn _]. destruct (pos w) as [|z];
        [discriminate|]. cbn [jsEq jsSub1 jsLength] in Hn.
      apply Z.eqb_eq in Hn. cbn [jsAdd1]. f_equal. lia. }
  rewrite Hpos in Hp.
  assert (Hcur : current (fst (fetchNext P (NextSeries nxt l r) t w))
                 = Some (newEntry nxt l r)).
  { apply current_inv. exists (Z.of_nat (length (history w))).
    split; [exact Hp|]. split; [lia|]. rewrite Hh, Nat2Z.id.
    apply lookup_after_all. }
  split.
  { unfold fetchNext. rewrite Hu. reflexivity. }
  split; [exact Hh|]. split; [exact Hp|]. split; [exact Hcur|]. split.
  { unfold newEntry. destruct (normalizePair l r). reflexivity. }
  apply needsNextPair_unchosen.
  - rewrite Hh. destruct (history w); discriminate.
  - rewrite Hcur. cbn [mbind option_bind]. unfold newEntry.
    destruct (normalizePair l r). reflexivity.
Qed.

Lemma fetched_pair_becomes_current_witness :
  let res := fetchEffect Reference.platform
               (NextSeries Sample.pair0 Sample.leftSeries Sample.rightSeries)
               1 Sample.opened in
  snd res = [GetNextBinaryPair 7; GetFrequency 10; GetFrequency 11]
  /\ history (fst res)
     = [newEntry Sample.pair0 Sample.leftSeries Sample.rightSeries]
  /\ pos (fst res) = Int 0.
Proof.
  destruct (fetched_pair_becomes_current Reference.platform Sample.opened
              Sample.user7 Sample.pair0 Sample.leftSeries Sample.rightSeries 1)
    as (H1 & H2 & H3 & _).
  - reflexivity.
  - reflexivity.
  - reflexivity.
  - reflexivity.
  - exact (conj H1 (conj H2 H3)).
Defined.

(** X12: the entry built for a pair whose two series have no negative count
    keeps the series as received and attaches their normalised copies: the
    same dates, every count in [0,1]. *)
Theorem newEntry_is_normalised (nxt : NextPair) (l r : list XY) :
  nonNegative l -> nonNegative r ->
  let e := newEntry nxt l r in
  leftData e = Some l /\ rightData e = Some r
  /\ exists ln rn,
       leftNorm e = Some ln /\ rightNorm e = Some rn
       /\ map date ln = map date l /\ map date rn = map date r
       /\ Forall inUnit ln /\ Forall inUnit rn.
Proof.
  intros Hl Hr e. subst e. unfold newEntry, normalizePair.
  cbn [leftData rightData leftNorm rightNorm].
  split; [reflexivity|]. split; [reflexivity|].
  fold (maxBoth l r). set (m := maxBoth l r).
  set (d := if Qeq_bool m 0 then 1%Q else m).
  assert (Hd : forall p, In p l \/ In p r -> (0 <= count p /\ count p <= d)%Q).
  { intros p Hp.
    assert (Hc : (0 <= count p /\ count p <= m)%Q).
    { destruct Hp as [Hp|Hp].
      - split; [exact (nonNegative_in _ _ Hl Hp)|now apply maxBoth_ge_left].
      - split; [exact (nonNegative_in _ _ Hr Hp)|now apply maxBoth_ge_right]. }
    destruct Hc as [H0 Hm]. split; [exact H0|]. subst d.
    destruct (Qeq_bool m 0) eqn:He; [|exact Hm].
    apply Qeq_bool_iff in He. rewrite He in Hm.
    eapply Qle_trans; [exact Hm|discriminate]. }
  eexists _, _. split; [reflexivity|]. split; [reflexivity|].
  split; [now rewrite map_map|]. split; [now rewrite map_map|].
  split; apply Forall_map_in; intros p Hp; unfold inUnit; simpl;
    change (BinaryVotingPage.safeDiv (count p) d) with (Normalize.safeDiv (count p) d);
    apply safeDiv_unit; apply Hd; auto.
Qed.

Lemma newEntry_is_normalised_witness :
  let e := newEntry Sample.pair0 Sample.leftSeries Sample.rightSeries in
  exists ln rn,
    leftNorm e = Some ln /\ rightNorm e = Some rn
    /\ Forall inUnit ln /\ Forall inUnit rn.
Proof.
  destruct (newEntry_is_normalised Sample.pair0 Sample.leftSeries
              Sample.rightSeries)
    as (_ & _ & ln & rn & H1 & H2 & _ & _ & H3 & H4).
  - repeat constructor; simpl; discriminate.
  - repeat constructor; simpl; discriminate.
  - exists ln, rn. exact (conj H1 (conj H2 (conj H3 H4))).
Defined.

(** X14: a call the server rejects leaves the session as it was.  The fetch
    effect whose request is rejected, [onNext] whose vote is rejected, and
    [onNext] on the last pair whose vote is accepted but whose request for
    the next pair or for a series is rejected, change neither history nor
    cursor, completion mark, user or store. *)
Theorem rejected_calls_change_nothing (P : Platform) (w : Page)
    (reply : FetchReply) (t t' : Z) :
  rejected reply ->
  sameSession w (fst (fetchEffect P reply t w))
  /\ (forall any, sameSession w (fst (onNext P t false any t' w)))
  /\ (onLastPair w -> sameSession w (fst (onNext P t true reply t' w))).
Proof.
  intros Hrej.
  assert (Hrefl : sameSession w w) by (repeat split).
  assert (Hfetch : forall t0, sameSession w (fst (fetchNext P reply t0 w))).
  { intros t0. destruct (user w) as [u|] eqn:Hu.
    - destruct (fetchNext_cases P u w reply t0 Hu) as (Hu' & _ & _ & H).
      destruct reply; try contradiction;
        destruct H as (Hh & Hp & Hd & Hs); repeat split; congruence.
    - now rewrite fetchNext_no_user. }
  split; [|split].
  - unfold fetchEffect. destruct (user w); [|exact Hrefl].
    destruct (negb (historyLoaded w)); [exact Hrefl|].
    destruct (needsNextPair w); [apply Hfetch|exact Hrefl].
  - intros any. unfold onNext.
    destruct (user w); [|exact Hrefl].
    destruct (current w) as [cur|]; [|exact Hrefl].
    destruct (choice cur); exact Hrefl.
  - intros Hlast. unfold onLastPair in Hlast. unfold onNext.
    destruct (user w) as [u|]; [|exact Hrefl].
    destruct (current w) as [cur|]; [|exact Hrefl].
    destruct (choice cur); [|exact Hrefl].
    rewrite Hlast. specialize (Hfetch t').
    destruct (fetchNext P reply t' w). exact Hfetch.
Qed.

Lemma rejected_calls_change_nothing_witness :
  sameSession Sample.pair0Chosen
    (fst (onNext Reference.platform 5 true NextRejected 6 Sample.pair0Chosen)).
Proof.
  apply (proj2 (proj2 (rejected_calls_change_nothing Reference.platform
                         Sample.pair0Chosen NextRejected 5 6 I))).
  reflexivity.
Defined.

(** ** What no handler does *)

(** What a page with its history loaded is after one event: the history as
    it was up to choices, with at most one pair added at its end. *)
Lemma fetchNext_history P w reply t :
  (length (history w) =? 0)%nat || jsEq (pos w) (jsSub1 (jsLength (history w)))
  = true ->
  exists newer, history (fst (fetchNext P reply t w)) = history w ++ newer
                /\ (length newer <= 1)%nat.
Proof.
  intros Hend. destruct (user w) as [u|] eqn:Hu.
  - destruct (fetchNext_cases P u w reply t Hu) as (_ & _ & _ & H).
    destruct reply as [| |nxt|nxt l r].
    + exists []. rewrite app_nil_r. split; [apply H|simpl; lia].
    + exists []. rewrite app_nil_r. split; [apply H|simpl; lia].
    + exists []. rewrite app_nil_r. split; [apply H|simpl; lia].
    + exists [newEntry nxt l r]. destruct H as (Hh & _).
      rewrite Hh, (sliceTo_at_end _ _ Hend). split; [reflexivity|simpl; lia].
  - rewrite fetchNext_no_user by exact Hu. exists []. rewrite app_nil_r.
    split; [reflexivity|simpl; lia].
Qed.

(** X15: once the history is loaded, after any event the history is a part
    of the old one from its start, each pair the same up to its choice,
    followed by at most one new pair.  In a session in which Next was never
    clicked while a call was awaited, under a store that accepts its writes,
    that part is the whole old history: no pair is dropped or replaced. *)
Theorem history_only_grows (P : Platform) (s s' : Session) (ev : Event)
    (reqs : list Request) :
  historyLoaded (page s) = true -> step P s ev = Ran (s', reqs) ->
  exists kept newer,
    history (page s') = kept ++ newer /\ (length newer <= 1)%nat
    /\ Forall2 samePair (take (length kept) (history (page s))) kept
    /\ (writes_ok P -> reachable_unhurried P s ->
        Forall2 samePair (history (page s)) kept).
Proof.
  intros Hl Hstep.
  destruct (step_history P s s' ev reqs Hl Hstep)
    as (kept & newer & Hh & Hn & Hpart & Hall).
  exists kept, newer. split; [exact Hh|]. split; [exact Hn|].
  split; [exact Hpart|]. intros Hok Hreach.
  apply Hall. now apply reachable_unhurried_steady.
Qed.

Lemma sample_pair1_named :
  Sample.after Sample.pair1Named
  = {| page := setLoading true Sample.pair0Chosen;
       pending := [AwaitSeries (Int 0) Sample.pair1] |}.
Proof. vm_compute. reflexivity. Qed.

Lemma history_only_grows_witness :
  exists kept newer,
    history Sample.onPair1 = kept ++ newer
    /\ Forall2 samePair (history Sample.pair0Chosen) kept
    /\ (length newer <= 1)%nat.
Proof.
  destruct (history_only_grows Reference.platform
              {| page := setLoading true Sample.pair0Chosen;
                 pending := [AwaitSeries (Int 0) Sample.pair1] |}
              {| page := Sample.onPair1; pending := [] |}
              (Settle 0 (SeriesFetched Sample.leftSeries Sample.rightSeries) 6)
              [])
    as (kept & newer & Hh & Hn & _ & Hall).
  - reflexivity.
  - vm_compute. reflexivity.
  - exists kept, newer. split; [exact Hh|]. split; [|exact Hn].
    apply Hall.
    + intros key value. reflexivity.
    + rewrite <- sample_pair1_named. apply sample_unhurried.
      vm_compute. reflexivity.
Defined.

(** The second of two clicks on Next replaces the pair the first one
    fetched: its [fetchNext] cuts the history after the cursor of the render
    it was clicked in. *)
Example second_click_replaces_the_fetched_pair :
  let before := Sample.after (removelast Sample.twoClicks) in
  let after := Sample.after Sample.twoClicks in
  pos (page before) = Int 1
  /\ map leftData (history (page before))
     = [Some Sample.leftSeries; Some Sample.leftSeries]
  /\ pos (page after) = Int 2
  /\ map leftData (history (page after))
     = [Some Sample.leftSeries; Some Sample.rightSeries].
Proof. vm_compute. repeat split. Qed.

(** X6: no event signs the user out or takes back the mark that the session
    is complete, and while the mark is set a click changes nothing and sends
    nothing.  When the server answers [done] to the request for the next
    pair, whether the fetch effect or [onNext] had called [fetchNext], the
    mark is set, the loading mark is cleared, nothing is sent, and history,
    cursor and store stay as they are. *)
Theorem done_is_kept (P : Platform) (s s' : Session) (ev : Event)
    (reqs : list Request) :
  step P s ev = Ran (s', reqs) ->
  user (page s') = user (page s)
  /\ (done (page s) = true -> done (page s') = true)
  /\ (done (page s) = true -> isControl ev = true -> s' = s /\ reqs = [])
  /\ (forall i closurePos now,
        ev = Settle i NoPairLeft now ->
        pending s !! i = Some (AwaitNextPair closurePos) ->
        done (page s') = true /\ loading (page s') = false
        /\ history (page s') = history (page s)
        /\ pos (page s') = pos (page s)
        /\ localStorage (page s') = localStorage (page s)
        /\ reqs = []
        /\ pending s' = take i (pending s) ++ drop (S i) (pending s)).
Proof.
  intros Hstep.
  destruct (step_keeps P s s' ev reqs Hstep) as (Hu & Hd & _).
  split; [exact Hu|]. split; [exact Hd|]. split.
  - intros Hdone Hctl.
    assert (Hhidden : controlsShown (page s) = false).
    { unfold controlsShown. rewrite Hdone.
      now destruct (historyLoaded (page s)). }
    destruct ev; try discriminate Hctl; cbn [step] in Hstep;
      rewrite Hhidden in Hstep; injection Hstep as <- <-; now split.
  - intros i closurePos now -> Hi. cbn [step] in Hstep. rewrite Hi in Hstep.
    cbn [resume fetchNext_named] in Hstep.
    rewrite finish_same in Hstep by (apply fetchDepsSame_of; reflexivity).
    injection Hstep as <- <-. simpl_page. now repeat split.
Qed.

Lemma done_is_kept_witness :
  let s := Sample.after Sample.nextClicked in
  let s' := Sample.after (Sample.nextClicked ++ [Settle 0 NoPairLeft 7]) in
  pending s = [AwaitNextPair (Int 0)]
  /\ user (page s') = user (page s)
  /\ history (page s') = history Sample.pair0Chosen
  /\ done (page s') = true.
Proof.
  cbv zeta.
  assert (Hs : Sample.after Sample.nextClicked
               = {| page := setLoading true Sample.pair0Chosen;
                    pending := [AwaitNextPair (Int 0)] |})
    by (vm_compute; reflexivity).
  assert (Hs' : Sample.after (Sample.nextClicked ++ [Settle 0 NoPairLeft 7])
                = {| page := setDone true Sample.pair0Chosen;
                     pending := [] |})
    by (vm_compute; reflexivity).
  rewrite Hs, Hs'.
  destruct (done_is_kept Reference.platform
              {| page := setLoading true Sample.pair0Chosen;
                 pending := [AwaitNextPair (Int 0)] |}
              {| page := setDone true Sample.pair0Chosen; pending := [] |}
              (Settle 0 NoPairLeft 7) [])
    as (Hu & _ & _ & Hdone).
  - vm_compute. reflexivity.
  - destruct (Hdone 0%nat (Int 0) 7 eq_refl eq_refl) as (Hd & _ & Hh & _).
    split; [reflexivity|]. split; [exact Hu|]. split; [exact Hh|exact Hd].
Defined.

(** ** The votes sent *)

Lemma finish_sends_no_vote s tasks reqs w payload :
  In (SubmitBinaryVote payload) (snd (finish s tasks reqs w)) ->
  In (SubmitBinaryVote payload) reqs.
Proof.
  destruct (finish_cases s tasks reqs w) as [->|(u & _ & _ & _ & ->)];
    cbn [snd]; [tauto|].
  intros H. apply in_app_iff in H as [H|[H|[]]]; [exact H|discriminate H].
Qed.

Lemma resume_sends_no_vote P t o now w w' reqs next payload :
  resume P t o now w = Some (w', reqs, next) ->
  ~ In (SubmitBinaryVote payload) reqs.
Proof.
  intros H Hv.
  assert (Hreqs : Forall (fun r => r <> SubmitBinaryVote payload) reqs).
  { destruct t as [p n|p|p nxt]; cbn [resume] in H.
    - destruct o; cbn [onNext_resume] in H; try discriminate.
      + injection H as _ <- _. constructor.
      + destruct (jsEq p (jsSub1 (Int (Z.of_nat n)))).
        * unfold fetchNext_call in H. destruct (user w);
            injection H as _ <- _; repeat constructor; discriminate.
        * injection H as _ <- _. constructor.
    - destruct o; cbn [fetchNext_named] in H; try discriminate;
        injection H as _ <- _; repeat constructor; discriminate.
    - destruct o; cbn [fetchNext_series] in H; try discriminate;
        injection H as _ <- _; constructor. }
  rewrite List.Forall_forall in Hreqs. now apply (Hreqs _ Hv).
Qed.

(** X13: a vote goes out only when Next is clicked while the button is on
    the page, and then it is the one request of that event: a vote for the
    pair under the cursor with the choice that pair holds, timed from the
    moment the pair was shown.  The page stays as it is and [onNext] is
    suspended until the vote is answered, so whatever else it sends comes
    after the vote.  No other event sends a vote. *)
Theorem votes_are_for_the_current_pair (P : Platform) (s s' : Session)
    (ev : Event) (reqs : list Request) (payload : VotePayload) :
  step P s ev = Ran (s', reqs) -> In (SubmitBinaryVote payload) reqs ->
  exists now u cur c rest,
    ev = Next now
    /\ controlsShown (page s) = true
    /\ user (page s) = Some u /\ current (page s) = Some cur
    /\ choice cur = Some c
    /\ payload = {| vote_user_id := user_id u; pair_index := index cur;
                    vote_left_id := left_id cur; vote_right_id := right_id cur;
                    vote_choice := c; rt_ms := now - rtStartRef (page s) |}
    /\ reqs = SubmitBinaryVote payload :: rest
    /\ rest = []
    /\ page s' = page s
    /\ pending s'
       = pending s ++ [AwaitSubmit (pos (page s)) (length (history (page s)))].
Proof.
  intros Hstep Hin.
  destruct ev as [now|c|now|now|i o now]; cbn [step] in Hstep.
  - destruct (loadEffect P now (page s)); try discriminate.
    apply Ran_inj in Hstep as [_ <-].
    now apply finish_sends_no_vote in Hin.
  - destruct (controlsShown (page s)); apply Ran_inj in Hstep as [_ <-];
      [now apply finish_sends_no_vote in Hin|contradiction].
  - destruct (controlsShown (page s)); apply Ran_inj in Hstep as [_ <-];
      [now apply finish_sends_no_vote in Hin|contradiction].
  - destruct (controlsShown (page s)) eqn:Hshown;
      [|apply Ran_inj in Hstep as [_ <-]; contradiction].
    unfold onNext_call in Hstep.
    destruct (user (page s)) as [u|] eqn:Hu;
      [|apply Ran_inj in Hstep as [_ <-]; contradiction].
    destruct (current (page s)) as [cur|] eqn:Hcur;
      [|apply Ran_inj in Hstep as [_ <-]; contradiction].
    destruct (choice cur) as [c|] eqn:Hc;
      [|apply Ran_inj in Hstep as [_ <-]; contradiction].
    apply Ran_inj in Hstep as [<- <-]. cbn [fst snd] in *.
    destruct Hin as [Hv|[]]. unfold voteFor in Hv. injection Hv as <-.
    exists now, u, cur, c, []. repeat split; reflexivity || assumption.
  - destruct (pending s !! i) as [t|];
      [|apply Ran_inj in Hstep as [_ <-]; contradiction].
    destruct (resume P t o now (page s)) as [[[w' sent] next]|] eqn:Hres;
      [|apply Ran_inj in Hstep as [_ <-]; contradiction].
    apply Ran_inj in Hstep as [_ <-]. apply finish_sends_no_vote in Hin.
    destruct (resume_sends_no_vote P _ _ _ _ _ _ _ payload Hres Hin).
Qed.

Lemma votes_are_for_the_current_pair_witness :
  exists cur,
    current Sample.pair0Chosen = Some cur
    /\ choice cur = Some ChoiceLeft
    /\ fst (onNext_call 5 Sample.pair0Chosen)
       = [SubmitBinaryVote
            {| vote_user_id := 7; pair_index := index cur;
               vote_left_id := left_id cur; vote_right_id := right_id cur;
               vote_choice := ChoiceLeft; rt_ms := 5 - 1 |}].
Proof.
  destruct (votes_are_for_the_current_pair Reference.platform
              {| page := Sample.pair0Chosen; pending := [] |}
              {| page := Sample.pair0Chosen;
                 pending := [AwaitSubmit (Int 0) 1] |}
              (Next 5) [Sample.vote0 4]
              {| vote_user_id := 7; pair_index := 0; vote_left_id := 10;
                 vote_right_id := 11; vote_choice := ChoiceLeft;
                 rt_ms := 4 |})
    as (now & u & cur & c & rest & Hev & _ & Hu & Hcur & Hc & Hp & _).
  - vm_compute. reflexivity.
  - left. reflexivity.
  - injection Hev as <-. injection Hu as <-. simpl_page in Hcur.
    exists cur. split; [exact Hcur|].
    assert (Hcl : c = ChoiceLeft) by (injection Hp as _ _ _ Hx; now rewrite Hx).
    subst c. split; [exact Hc|].
    unfold onNext_call. rewrite Hcur, Hc. reflexivity.
Defined.

(** ** Two clicks on Next *)

Lemma step_next_click P s u cur c now :
  controlsShown (page s) = true -> user (page s) = Some u ->
  current (page s) = Some cur -> choice cur = Some c ->
  step P s (Next now)
  = Ran ({| page := page s;
            pending := pending s
                       ++ [AwaitSubmit (pos (page s))
                             (length (history (page s)))] |},
         [voteFor u cur c (now - rtStartRef (page s))]).
Proof.
  intros Hshown Hu Hcur Hc. cbn [step]. rewrite Hshown.
  unfold onNext_call. now rewrite Hu, Hcur, Hc.
Qed.

Lemma splice_insert {A} (l : list A) (i : nat) (x y : A) :
  l !! i = Some x -> take i l ++ [y] ++ drop (S i) l = <[i := y]> l.
Proof.
  intros Hi. symmetry. apply insert_take_drop.
  now apply lookup_lt_Some in Hi.
Qed.

Lemma step_vote_accepted_at_end P s i p n u now :
  pending s !! i = Some (AwaitSubmit p n) ->
  jsEq p (jsSub1 (Int (Z.of_nat n))) = true -> user (page s) = Some u ->
  step P s (Settle i VoteAccepted now)
  = Ran ({| page := setLoading true (page s);
            pending := <[i := AwaitNextPair p]> (pending s) |},
         [GetNextBinaryPair (user_id u)]).
Proof.
  intros Hi Hend Hu. cbn [step]. rewrite Hi. cbn [resume onNext_resume].
  rewrite Hend. unfold fetchNext_call. rewrite Hu.
  rewrite finish_same by (apply fetchDepsSame_of; reflexivity).
  now rewrite (splice_insert _ _ _ _ Hi).
Qed.

Lemma step_pair_named P s i p nxt now :
  pending s !! i = Some (AwaitNextPair p) ->
  step P s (Settle i (PairNamed nxt) now)
  = Ran ({| page := page s;
            pending := <[i := AwaitSeries p nxt]> (pending s) |},
         [GetFrequency (next_left_id nxt); GetFrequency (next_right_id nxt)]).
Proof.
  intros Hi. cbn [step]. rewrite Hi. cbn [resume fetchNext_named].
  rewrite finish_same by (apply fetchDepsSame_of; reflexivity).
  now rewrite (splice_insert _ _ _ _ Hi).
Qed.

Lemma newEntry_unchosen nxt l r : choice (newEntry nxt l r) = None.
Proof. unfold newEntry. now destruct (normalizePair l r). Qed.

(** A history that ends with a pair without a choice needs no further
    pair, wherever the cursor is. *)
Lemma needsNextPair_fresh (w : Page) (kept : list PairEntry) (e : PairEntry) :
  history w = kept ++ [e] -> choice e = None -> needsNextPair w = false.
Proof.
  intros Hh He. unfold needsNextPair. rewrite Hh, length_app. cbn [length].
  replace (length kept + 1 =? 0)%nat with false
    by (symmetry; apply Nat.eqb_neq; lia).
  cbn [orb]. destruct (pos w) as [|z]; [reflexivity|].
  cbn [jsEq jsSub1 jsLength]. rewrite length_app. cbn [length].
  destruct (z =? Z.of_nat (length kept + 1) - 1) eqn:Hz; [|reflexivity].
  apply Z.eqb_eq in Hz. cbn [andb].
  rewrite jsIndex_in_range by lia.
  replace (Z.to_nat z) with (length kept) by lia.
  rewrite lookup_after_all. cbn [mbind option_bind]. rewrite He.
  apply bool_decide_eq_false. intros [x Hx]. discriminate Hx.
Qed.

(** The two series arrive: the pair is put after the cut at the cursor of
    the closure, the cursor of the moment moves by one, and the function
    ends; the fetch effect has nothing to do after it. *)
Lemma step_series_fetched P s i p nxt l r now :
  pending s !! i = Some (AwaitSeries p nxt) ->
  exists s',
    step P s (Settle i (SeriesFetched l r) now) = Ran (s', [])
    /\ history (page s')
       = sliceTo (history (page s)) (jsAdd1 p) ++ [newEntry nxt l r]
    /\ pos (page s') = jsAdd1 (pos (page s))
    /\ pending s' = take i (pending s) ++ drop (S i) (pending s)
    /\ user (page s') = user (page s)
    /\ historyLoaded (page s') = historyLoaded (page s)
    /\ done (page s') = done (page s)
    /\ loading (page s') = false.
Proof.
  intros Hi. cbn [step]. rewrite Hi. cbn [resume fetchNext_series]. cbv zeta.
  match goal with
  | |- context [finish s ?tasks [] ?w] =>
      set (w' := w); set (tasks' := tasks)
  end.
  assert (Hh : history w'
               = sliceTo (history (page s)) (jsAdd1 p) ++ [newEntry nxt l r]).
  { subst w'. simpl_page. rewrite savePosition_storage_only. now simpl_page. }
  assert (Hrest : pos w' = jsAdd1 (pos (page s)) /\ user w' = user (page s)
                  /\ historyLoaded w' = historyLoaded (page s)
                  /\ done w' = done (page s) /\ loading w' = false).
  { subst w'. simpl_page. rewrite savePosition_storage_only. simpl_page.
    try rewrite saveHistory_storage_only. simpl_page. now repeat split. }
  destruct Hrest as (Hp & Hu & Hl & Hd & Hld).
  destruct (finish_cases s tasks' [] w') as [Hfin|(u & _ & _ & [Hneed _] & _)].
  - exists {| page := w'; pending := tasks' |}. rewrite Hfin. simpl_page.
    subst tasks'. cbn [app]. now repeat split.
  - rewrite (needsNextPair_fresh w' _ _ Hh (newEntry_unchosen nxt l r)) in Hneed.
    discriminate Hneed.
Qed.

(** X30: Next clicked twice on the last pair before the first vote is
    answered.  Both votes go out for the same pair; when both are accepted
    each of the two suspended [onNext] calls [fetchNext] with the cursor of
    the render of the clicks.  Whatever pairs the server names, the pair
    fetched second takes the place of the one fetched first, the cursor ends
    one past the last pair, and the page, with no current pair, shows
    neither charts nor buttons. *)
Theorem two_clicks_on_next_overshoot (P : Platform) (s : Session)
    (u : StoredUser) (cur : PairEntry) (c : Choice) (a b : NextPair)
    (la ra lb rb : list XY) (t1 t2 t3 t4 t5 t6 t7 t8 : Z) :
  pending s = [] -> controlsShown (page s) = true ->
  user (page s) = Some u -> current (page s) = Some cur ->
  choice cur = Some c -> onLastPair (page s) ->
  exists s',
    run P s [Next t1; Next t2;
             Settle 0 VoteAccepted t3; Settle 1 VoteAccepted t4;
             Settle 0 (PairNamed a) t5; Settle 1 (PairNamed b) t6;
             Settle 0 (SeriesFetched la ra) t7;
             Settle 0 (SeriesFetched lb rb) t8]
    = Ran (s',
           [voteFor u cur c (t1 - rtStartRef (page s));
            voteFor u cur c (t2 - rtStartRef (page s));
            GetNextBinaryPair (user_id u); GetNextBinaryPair (user_id u);
            GetFrequency (next_left_id a); GetFrequency (next_right_id a);
            GetFrequency (next_left_id b); GetFrequency (next_right_id b)])
    /\ history (page s') = history (page s) ++ [newEntry b lb rb]
    /\ pos (page s') = Int (Z.of_nat (length (history (page s'))))
    /\ current (page s') = None
    /\ controlsShown (page s') = false
    /\ pending s' = [].
Proof.
  intros Hpend Hshown Hu Hcur Hc Hlast.
  pose proof (controlsShown_inv _ Hshown) as (Hl & _).
  set (w := page s) in *. set (p := pos w) in *.
  set (h := history w) in *.
  assert (Hend : jsEq p (jsSub1 (Int (Z.of_nat (length h)))) = true)
    by exact Hlast.
  assert (Hpz : p = Int (Z.of_nat (length h) - 1)).
  { destruct p as [|z]; [discriminate|]. cbn [jsEq jsSub1] in Hend.
    apply Z.eqb_eq in Hend. now subst z. }
  assert (Hnonempty : (0 < length h)%nat).
  { apply current_inv in Hcur as (z & Hz & Hge & Hlook).
    apply lookup_lt_Some in Hlook. unfold h. lia. }
  (* the two clicks *)
  set (s1 := {| page := w; pending := [AwaitSubmit p (length h)] |}).
  assert (H1 : step P s (Next t1)
               = Ran (s1, [voteFor u cur c (t1 - rtStartRef w)])).
  { rewrite (step_next_click P s u cur c t1 Hshown Hu Hcur Hc).
    now rewrite Hpend. }
  set (s2 := {| page := w;
                pending := [AwaitSubmit p (length h);
                            AwaitSubmit p (length h)] |}).
  assert (H2 : step P s1 (Next t2)
               = Ran (s2, [voteFor u cur c (t2 - rtStartRef w)])).
  { now rewrite (step_next_click P s1 u cur c t2 Hshown Hu Hcur Hc). }
  (* both votes are accepted *)
  set (s3 := {| page := setLoading true w;
                pending := [AwaitNextPair p; AwaitSubmit p (length h)] |}).
  assert (H3 : step P s2 (Settle 0 VoteAccepted t3)
               = Ran (s3, [GetNextBinaryPair (user_id u)])).
  { now rewrite (step_vote_accepted_at_end P s2 0 p (length h) u t3). }
  set (s4 := {| page := setLoading true (setLoading true w);
                pending := [AwaitNextPair p; AwaitNextPair p] |}).
  assert (H4 : step P s3 (Settle 1 VoteAccepted t4)
               = Ran (s4, [GetNextBinaryPair (user_id u)])).
  { now rewrite (step_vote_accepted_at_end P s3 1 p (length h) u t4). }
  (* the server names a pair to each *)
  set (s5 := {| page := page s4;
                pending := [AwaitSeries p a; AwaitNextPair p] |}).
  assert (H5 : step P s4 (Settle 0 (PairNamed a) t5)
               = Ran (s5, [GetFrequency (next_left_id a);
                           GetFrequency (next_right_id a)])).
  { now rewrite (step_pair_named P s4 0 p a t5). }
  set (s6 := {| page := page s4;
                pending := [AwaitSeries p a; AwaitSeries p b] |}).
  assert (H6 : step P s5 (Settle 1 (PairNamed b) t6)
               = Ran (s6, [GetFrequency (next_left_id b);
                           GetFrequency (next_right_id b)])).
  { now rewrite (step_pair_named P s5 1 p b t6). }
  (* the series of the first, then of the second *)
  destruct (step_series_fetched P s6 0 p a la ra t7 eq_refl)
    as (s7 & H7 & Hh7 & Hp7 & Hpend7 & Hu7 & Hl7 & Hd7 & _).
  destruct (step_series_fetched P s7 0 p b lb rb t8)
    as (s8 & H8 & Hh8 & Hp8 & Hpend8 & _ & Hl8 & Hd8 & Hld8).
  { rewrite Hpend7. reflexivity. }
  assert (Hcut : sliceTo h (jsAdd1 p) = h)
    by (apply sliceTo_at_end; unfold jsLength; rewrite Hend;
        apply orb_true_r).
  assert (Hcut' : sliceTo (h ++ [newEntry a la ra]) (jsAdd1 p) = h).
  { rewrite Hpz. cbn [jsAdd1 sliceTo].
    replace (Z.of_nat (length h) - 1 + 1) with (Z.of_nat (length h)) by lia.
    destruct (Z.of_nat (length h) <? 0) eqn:Hneg;
      [apply Z.ltb_lt in Hneg; lia|].
    rewrite Nat2Z.id. now rewrite take_app_length. }
  cbn [page s6 s4] in Hh7, Hp7. simpl_page in Hh7. simpl_page in Hp7.
  fold h in Hh7. fold p in Hp7. rewrite Hcut in Hh7.
  rewrite Hh7, Hcut' in Hh8. rewrite Hp7 in Hp8.
  assert (Hpos8 : pos (page s8) = Int (Z.of_nat (length (history (page s8))))).
  { rewrite Hp8, Hh8, Hpz, length_app. cbn [jsAdd1 length]. f_equal. lia. }
  assert (Hcur8 : current (page s8) = None).
  { unfold current. rewrite Hpos8. cbn [jsGe jsIndex].
    destruct (0 <=? _); [|reflexivity].
    destruct (_ <? 0); [reflexivity|].
    rewrite Nat2Z.id. apply lookup_ge_None. lia. }
  exists s8. split.
  { cbn [run]. rewrite H1, H2, H3, H4, H5, H6, H7, H8. reflexivity. }
  split; [exact Hh8|]. split; [exact Hpos8|]. split; [exact Hcur8|]. split.
  - unfold controlsShown. rewrite Hcur8. apply andb_false_r.
  - rewrite Hpend8, Hpend7. reflexivity.
Qed.

Lemma two_clicks_on_next_overshoot_witness :
  exists s',
    run Reference.platform {| page := Sample.pair0Chosen; pending := [] |}
      [Next 5; Next 6; Settle 0 VoteAccepted 7; Settle 1 VoteAccepted 7;
       Settle 0 (PairNamed Sample.pair1) 8;
       Settle 1 (PairNamed Sample.pair1) 8;
       Settle 0 (SeriesFetched Sample.leftSeries Sample.rightSeries) 9;
       Settle 0 (SeriesFetched Sample.rightSeries Sample.leftSeries) 9]
    = Ran (s',
           [Sample.vote0 4; Sample.vote0 5;
            GetNextBinaryPair 7; GetNextBinaryPair 7;
            GetFrequency 12; GetFrequency 13;
            GetFrequency 12; GetFrequency 13])
    /\ length (history (page s')) = 2%nat
    /\ pos (page s') = Int 2
    /\ current (page s') = None.
Proof.
  destruct (two_clicks_on_next_overshoot Reference.platform
              {| page := Sample.pair0Chosen; pending := [] |}
              Sample.user7 Sample.entry0 ChoiceLeft Sample.pair1 Sample.pair1
              Sample.leftSeries Sample.rightSeries
              Sample.rightSeries Sample.leftSeries 5 6 7 7 8 8 9 9)
    as (s' & Hrun & Hh & Hp & Hcur & _).
  - reflexivity.
  - reflexivity.
  - reflexivity.
  - reflexivity.
  - reflexivity.
  - reflexivity.
  - exists s'. split; [exact Hrun|].
    assert (Hlen : length (history (page s')) = 2%nat) by now rewrite Hh.
    split; [exact Hlen|]. split; [now rewrite Hp, Hlen|exact Hcur].
Defined.


End SessionMore.


(** * More on the leaderboard pages *)

Section DashboardMore.
Import FrequencyDashboardPage DashboardSpec.

Lemma truthyId_Some (v : option Z) :
  truthyId v = true -> exists z, v = Some z /\ z <> 0.
Proof.
  destruct v as [z|]; [|discriminate]. simpl. intros H. exists z.
  split; [reflexivity|]. apply negb_true_iff in H. now apply Z.eqb_neq in H.
Qed.

Lemma scopeSent_most_specific (f : FilterState) :
  let sub := truthyId (subfieldId f) in
  let fld := negb sub && truthyId (fieldId f) in
  let dom := negb sub && negb fld && truthyId (domainId f) in
  scopeSent (if sub then subfieldId f else None)
            (if fld then fieldId f else None)
            (if dom then domainId f else None) f.
Proof.
  cbv zeta.
  destruct (truthyId (subfieldId f)) eqn:Hs; cbn [negb andb].
  - destruct (truthyId_Some _ Hs) as (z & Hv & Hz). rewrite Hv. now split.
  - destruct (truthyId (fieldId f)) eqn:Hf; cbn [negb andb].
    + destruct (truthyId_Some _ Hf) as (z & Hv & Hz). rewrite Hv. simpl.
      now repeat split.
    + destruct (truthyId (domainId f)) eqn:Hd.
      * destruct (truthyId_Some _ Hd) as (z & Hv & Hz). rewrite Hv. simpl.
        now repeat split.
      * simpl. now repeat split.
Qed.

(** X16: a leaderboard request of either page carries at most one taxonomy
    id, the most specific one chosen: the subfield if one is chosen, else the
    field, else the domain, and none if none is chosen.  An id of 0 counts
    as not chosen and is never sent. *)
Theorem request_scope_is_most_specific :
  (forall s pageArg,
     let q := buildParams s pageArg in
     scopeSent (param_subfield_id q) (param_field_id q) (param_domain_id q)
       (filters s))
  /\ (forall method s,
        let q := BurstPage.queryParams method s in
        scopeSent (BurstPage.param_subfield_id q) (BurstPage.param_field_id q)
                  (BurstPage.param_domain_id q) (BurstPage.filters s)).
Proof.
  split.
  - intros s pageArg. apply scopeSent_most_specific.
  - intros method s. apply scopeSent_most_specific.
Qed.

(** ** The loading mark and the pager of the dashboard *)

Lemma newest_call pageArg c :
  newest (call pageArg c)
  = Some {| reqId := lastReqId (state c) + 1; pageArg := pageArg;
            sent := buildParams (state c) pageArg |}.
Proof. unfold newest. simpl. now rewrite Z.eqb_refl. Qed.

Lemma loadingTracked_call pageArg c :
  loadingTracked c -> loadingTracked (call pageArg c).
Proof.
  intros (H0 & Hl & Hp & Hb & Hn). unfold loadingTracked.
  rewrite newest_call. split; [|split; [|split; [|split]]].
  - simpl. lia.
  - simpl. split; [intros _; now eexists|reflexivity].
  - intros p Hp'. injection Hp' as <-. reflexivity.
  - simpl. constructor.
    + simpl. lia.
    + eapply List.Forall_impl; [|exact Hb]. simpl. intros p Hp'. lia.
  - simpl. constructor; [|exact Hn].
    intros Hin. apply in_map_iff in Hin as (p & Hp1 & Hp2).
    rewrite List.Forall_forall in Hb. specialize (Hb p Hp2). lia.
Qed.

(** A change of sort or filters alone touches neither counter nor mark. *)
Lemma loadingTracked_same (s : State) (c : Controller) :
  lastReqId s = lastReqId (state c) -> isLoading s = isLoading (state c) ->
  pendingPage s = pendingPage (state c) ->
  loadingTracked c -> loadingTracked {| state := s; inflight := inflight c |}.
Proof.
  intros H1 H2 H3 (H0 & Hl & Hp & Hb & Hn). unfold loadingTracked, newest.
  cbn [state inflight]. rewrite H1, H2, H3.
  exact (conj H0 (conj Hl (conj Hp (conj Hb Hn)))).
Qed.

Lemma NoDup_map_filter {A B} (f : A -> B) (keep : A -> bool) (l : list A) :
  List.NoDup (map f l) -> List.NoDup (map f (List.filter keep l)).
Proof.
  induction l as [|x l IH]; simpl; intros Hn; [constructor|].
  apply List.NoDup_cons_iff in Hn as [Hx Hn]. destruct (keep x); simpl.
  - constructor; [|now apply IH]. intros Hin. apply Hx.
    apply in_map_iff in Hin as (y & Hy & Hin). apply in_map_iff.
    exists y. split; [exact Hy|]. now apply List.filter_In in Hin as [Hin _].
  - now apply IH.
Qed.

Lemma Forall_filter_keep {A} (P : A -> Prop) (keep : A -> bool) (l : list A) :
  List.Forall P l -> List.Forall P (List.filter keep l).
Proof.
  intros H. apply List.Forall_forall. intros x Hx.
  apply List.filter_In in Hx as [Hx _].
  rewrite List.Forall_forall in H. now apply H.
Qed.

Lemma resume_stale p res s :
  reqId p <> lastReqId s -> fetchLeaderboard_resume p res s = s.
Proof.
  intros Hne. apply Z.eqb_neq in Hne. unfold fetchLeaderboard_resume.
  now destruct res; rewrite Hne.
Qed.

Lemma resume_newest p res s :
  reqId p = lastReqId s ->
  let s' := fetchLeaderboard_resume p res s in
  isLoading s' = false /\ lastReqId s' = lastReqId s
  /\ pendingPage s' = pendingPage s
  /\ (page s' = page s \/ page s' = pageArg p).
Proof.
  intros He. apply Z.eqb_eq in He. unfold fetchLeaderboard_resume.
  destruct res; rewrite He; simpl; auto.
Qed.

Lemma loadingTracked_settle rid res c :
  loadingTracked c -> loadingTracked (settle rid res c).
Proof.
  intros Hinv. unfold settle.
  destruct (List.find (fun p => reqId p =? rid) (inflight c)) as [p|] eqn:Hf;
    [|exact Hinv].
  destruct Hinv as (H0 & Hl & Hp & Hb & Hn).
  pose proof (find_reqId _ _ _ Hf) as Hid.
  destruct (Z.eq_dec rid (lastReqId (state c))) as [He|Hne].
  - destruct (resume_newest p res (state c)) as (H1 & H2 & H3 & _);
      [congruence|].
    unfold loadingTracked, newest. cbn [state inflight].
    rewrite H1, H2, H3, He, find_filter_same.
    split; [exact H0|]. split.
    { split; [discriminate|]. intros [x Hx]. discriminate. }
    split; [discriminate|]. split.
    + now apply Forall_filter_keep.
    + now apply NoDup_map_filter.
  - rewrite resume_stale by congruence.
    unfold loadingTracked, newest. cbn [state inflight].
    rewrite find_filter_other by exact Hne.
    split; [exact H0|]. split; [exact Hl|]. split; [exact Hp|]. split.
    + now apply Forall_filter_keep.
    + now apply NoDup_map_filter.
Qed.

Lemma loadingTracked_handle c ev :
  loadingTracked c -> loadingTracked (handle c ev).
Proof.
  intros Hinv. destruct ev as [pageArg| | |sortField|newFilters|rid res];
    cbn [handle].
  - now apply loadingTracked_call.
  - unfold handlePrevPage.
    destruct ((page (state c) <=? 1) || isLoading (state c));
      [exact Hinv|now apply loadingTracked_call].
  - unfold handleNextPage.
    destruct ((totalPages (state c) <=? page (state c)) || isLoading (state c));
      [exact Hinv|now apply loadingTracked_call].
  - apply loadingTracked_call, loadingTracked_same; try exact Hinv;
      unfold handleSortChange;
      now destruct (String.eqb sortField (sortBy (state c))).
  - apply loadingTracked_call, loadingTracked_same; try exact Hinv;
      reflexivity.
  - now apply loadingTracked_settle.
Qed.

Lemma loadingTracked_run evs c :
  loadingTracked c -> loadingTracked (run evs c).
Proof.
  revert c. induction evs as [|ev evs IH]; intros c Hinv; [exact Hinv|].
  apply IH, loadingTracked_handle, Hinv.
Qed.

Lemma loadingTracked_mounted : loadingTracked mounted.
Proof.
  unfold loadingTracked, newest. simpl. split; [lia|]. split.
  { split; [discriminate|]. intros [x Hx]. discriminate. }
  split; [discriminate|]. split; constructor.
Qed.

(** X17: whatever the page does and in whatever order the answers arrive,
    the loading mark is set exactly while the newest request is awaited: an
    answer to an older request does not clear it, and the answer to the
    newest one does even when older requests are still awaited.  While it is
    set the page number shown is the one the newest request asked for, and
    the pager does nothing.  No two requests in flight share an id. *)
Theorem loading_tracks_newest_request (evs : list Event) :
  let c := run evs mounted in
  loadingTracked c
  /\ (is_Some (newest c) -> handle c PrevPage = c /\ handle c NextPage = c)
  /\ (forall rid res, rid <> lastReqId (state c) ->
        isLoading (state (settle rid res c)) = isLoading (state c))
  /\ (forall res, is_Some (newest c) ->
        isLoading (state (settle (lastReqId (state c)) res c)) = false).
Proof.
  intros c.
  assert (Hinv : loadingTracked c)
    by apply loadingTracked_run, loadingTracked_mounted.
  split; [exact Hinv|]. split; [|split].
  - intros Hnew. destruct Hinv as (_ & Hl & _).
    apply Hl in Hnew. cbn [handle]. unfold handlePrevPage, handleNextPage.
    rewrite Hnew, !orb_true_r. now split.
  - intros rid res Hne. now rewrite settle_stale.
  - intros res [p Hp]. unfold settle. unfold newest in Hp. rewrite Hp.
    cbn [state]. apply resume_newest. now apply find_reqId in Hp.
Qed.

Lemma asksFromOne_call pageArg c :
  1 <= pageArg -> pagesFromOne c -> pagesFromOne (call pageArg c).
Proof.
  intros Hp (H1 & H2 & H3). unfold pagesFromOne. simpl.
  split; [exact H1|]. split; [exact Hp|]. constructor; [|exact H3].
  unfold asksFromOne. simpl. now repeat split.
Qed.

Lemma pagesFromOne_handle c ev :
  fromPage ev -> pagesFromOne c -> pagesFromOne (handle c ev).
Proof.
  intros Hev Hinv. destruct ev as [pageArg| | |sortField|newFilters|rid res];
    cbn [handle].
  - simpl in Hev. apply asksFromOne_call; [lia|exact Hinv].
  - unfold handlePrevPage.
    destruct (page (state c) <=? 1) eqn:Hle; [exact Hinv|].
    destruct (isLoading (state c)); [exact Hinv|]. cbn [orb].
    apply Z.leb_gt in Hle. apply asksFromOne_call; [lia|exact Hinv].
  - unfold handleNextPage.
    destruct ((totalPages (state c) <=? page (state c)) || isLoading (state c));
      [exact Hinv|].
    destruct Hinv as (H1 & H2 & H3).
    apply asksFromOne_call; [lia|]. now repeat split.
  - apply asksFromOne_call; [lia|]. destruct Hinv as (H1 & H2 & H3).
    unfold pagesFromOne, handleSortChange. cbn [state inflight].
    now destruct (String.eqb sortField (sortBy (state c))).
  - apply asksFromOne_call; [lia|]. exact Hinv.
  - unfold settle.
    destruct (List.find (fun p => reqId p =? rid) (inflight c)) as [p|] eqn:Hf;
      [|exact Hinv].
    destruct Hinv as (H1 & H2 & H3). unfold pagesFromOne. cbn [state inflight].
    assert (Hp : asksFromOne p).
    { apply List.find_some in Hf as [Hin _].
      rewrite List.Forall_forall in H3. now apply H3. }
    split; [|split; [|now apply Forall_filter_keep]].
    + unfold fetchLeaderboard_resume.
      destruct res; [destruct (negb (reqId p =? lastReqId (state c)))|
                     destruct (reqId p =? lastReqId (state c))];
        simpl; try exact H1. apply Hp.
    + unfold fetchLeaderboard_resume.
      destruct res; [destruct (negb (reqId p =? lastReqId (state c)))|
                     destruct (reqId p =? lastReqId (state c))];
        simpl; exact H2.
Qed.

(** X18: in a browser, where the effect asks for page 1 and every other
    request comes from the pager, no request ever asks for a page before the
    first: the committed page, the page shown as pending and the page of
    every request in flight are at least 1, and every request asks for 100
    rows of the page it captured. *)
Theorem pages_start_at_one (evs : list Event) :
  List.Forall fromPage evs -> pagesFromOne (run evs mounted).
Proof.
  intros Hall.
  assert (Hgen : forall c, pagesFromOne c -> pagesFromOne (run evs c)).
  { induction Hall as [|ev evs Hev _ IH]; intros c Hinv; [exact Hinv|].
    apply IH, pagesFromOne_handle; assumption. }
  apply Hgen. unfold pagesFromOne, mounted. simpl.
  split; [lia|]. split; [lia|constructor].
Qed.

Lemma pages_start_at_one_witness :
  pagesFromOne
    (run [Fetch 1; Settle 1 (Some Sample.responseA); NextPage; PrevPage]
       mounted).
Proof.
  apply (pages_start_at_one
           [Fetch 1; Settle 1 (Some Sample.responseA); NextPage; PrevPage]).
  repeat constructor.
Defined.

End DashboardMore.


(** * The leaderboard of the burst page *)

Section BurstMore.
Import BurstPage BurstLeaderboard.

Lemma text_eqb_eq (a b : option string) : text_eqb a b = true -> a = b.
Proof.
  destruct a, b; simpl; try discriminate; try reflexivity.
  intros H. apply String.eqb_eq in H. now subst.
Qed.

Lemma Method_eqb_eq (a b : Method) : Method_eqb a b = true -> a = b.
Proof. now destruct a, b. Qed.

Lemma SortOrder_eqb_eq (a b : SortOrder) : SortOrder_eqb a b = true -> a = b.
Proof. now destruct a, b. Qed.

(** [queryParams] reads nothing but its dependencies. *)
Lemma queryParams_deps (b b' : Board) :
  filters (view b') = filters (view b) -> sameDeps b b' = true ->
  queryParams (currentMethod b') (view b')
  = queryParams (currentMethod b) (view b).
Proof.
  intros Hf Hd. unfold sameDeps in Hd.
  apply andb_true_iff in Hd as [Hd He]. apply andb_true_iff in Hd as [Hd Hs].
  apply andb_true_iff in Hd as [Hd Ho]. apply andb_true_iff in Hd as [Hm Hp].
  apply text_eqb_eq in He, Hs. apply SortOrder_eqb_eq in Ho.
  apply Method_eqb_eq in Hm. apply Z.eqb_eq in Hp.
  unfold queryParams. now rewrite Hf, He, Hs, Ho, Hm, Hp.
Qed.

Lemma guarded_startEffect (c : Controller) :
  (forall e older, effects c = e :: older ->
     Forall (fun o => cancelled o = true) older) ->
  guarded (startEffect c).
Proof.
  intros Hold. unfold guarded, startEffect. cbn [board effects].
  eexists _, _. split; [reflexivity|]. cbn [cancelled query awaited].
  repeat split. unfold cleanup.
  destruct (effects c) as [|e older] eqn:He; constructor.
  - reflexivity.
  - exact (Hold e older eq_refl).
Qed.

Lemma guarded_rerender (fresh : bool) (b' : Board) (c : Controller) :
  guarded c -> loading b' = loading (board c) ->
  (fresh = false -> filters (view b') = filters (view (board c))) ->
  guarded (rerender fresh b' c).
Proof.
  intros (e & older & He & Hc & Hq & Hl & Hold) Hload Hf. unfold rerender.
  destruct (fresh || negb (sameDeps (board c) b')) eqn:Hre.
  - apply guarded_startEffect. cbn [effects]. intros e' older' He'.
    rewrite He in He'. injection He' as <- <-. exact Hold.
  - apply orb_false_iff in Hre as [-> Hre]. apply negb_false_iff in Hre.
    exists e, older. cbn [board effects].
    split; [exact He|]. split; [exact Hc|]. split.
    + rewrite Hq. symmetry. now apply queryParams_deps; [apply Hf|].
    + split; [congruence|exact Hold].
Qed.

Lemma settle_older (i : nat) (res : option Response) (c : Controller) :
  guarded c -> i <> 0%nat -> board (settle i res c) = board c.
Proof.
  intros (e & older & He & _ & _ & _ & Hold) Hi. unfold settle.
  destruct (effects c !! i) as [o|] eqn:Ho; [|reflexivity].
  destruct (awaited o); [|reflexivity].
  assert (Hc : cancelled o = true).
  { rewrite He in Ho. destruct i as [|i]; [contradiction|]. simpl in Ho.
    rewrite List.Forall_forall in Hold. apply Hold.
    apply list_elem_of_In. eapply list_elem_of_lookup_2. exact Ho. }
  now rewrite Hc.
Qed.

Lemma insert_cons_0 {A} (x y : A) (l : list A) : <[0%nat := x]> (y :: l) = x :: l.
Proof. reflexivity. Qed.

Lemma insert_cons_S {A} (i : nat) (x y : A) (l : list A) :
  <[S i := x]> (y :: l) = y :: <[i := x]> l.
Proof. reflexivity. Qed.

Lemma guarded_settle (i : nat) (res : option Response) (c : Controller) :
  guarded c -> guarded (settle i res c).
Proof.
  intros Hg. pose proof Hg as (e & older & He & Hc & Hq & Hl & Hold).
  unfold settle. destruct (effects c !! i) as [o|] eqn:Ho; [|exact Hg].
  destruct (awaited o) eqn:Ha; [|exact Hg].
  destruct i as [|i].
  - rewrite He in Ho. injection Ho as <-. rewrite Hc, He.
    destruct res as [r|]; rewrite insert_cons_0;
      eexists _, older; cbn [board effects currentMethod view loading];
      (split; [reflexivity|]); cbn [cancelled query awaited];
      repeat split; assumption.
  - assert (Hco : cancelled o = true).
    { rewrite He in Ho. simpl in Ho. rewrite List.Forall_forall in Hold.
      apply Hold. apply list_elem_of_In. eapply list_elem_of_lookup_2.
      exact Ho. }
    rewrite Hco, He, insert_cons_S.
    eexists e, _. cbn [board effects]. split; [reflexivity|]. split; [exact Hc|].
    split; [exact Hq|]. split; [exact Hl|].
    apply List.Forall_forall. intros x Hx. apply list_elem_of_In in Hx.
    apply list_elem_of_lookup_1 in Hx as [j Hj].
    destruct (decide (i = j)) as [->|Hne].
    + rewrite list_lookup_insert_eq in Hj.
      * injection Hj as <-. reflexivity.
      * rewrite He in Ho. simpl in Ho. now apply lookup_lt_Some in Ho.
    + rewrite list_lookup_insert_ne in Hj by exact Hne.
      rewrite List.Forall_forall in Hold. apply Hold.
      apply list_elem_of_In. eapply list_elem_of_lookup_2. exact Hj.
Qed.

Lemma guarded_handle (c : Controller) (ev : Event) :
  guarded c -> guarded (handle c ev).
Proof.
  intros Hg. destruct ev as [f|next s e|s e| | |m|i res]; cbn [handle].
  - apply guarded_rerender; [exact Hg|reflexivity|]. intros _.
    cbn [view withView]. unfold handleSortChange.
    now destruct (SortField_eqb f (sortBy (view (board c)))).
  - apply guarded_rerender; [exact Hg|reflexivity|discriminate].
  - apply guarded_rerender; [exact Hg|reflexivity|reflexivity].
  - unfold onPrevPage. destruct (pagination (board c)); [|exact Hg].
    destruct (page (view (board c)) <=? 1); [exact Hg|].
    apply guarded_rerender; [exact Hg|reflexivity|reflexivity].
  - unfold onNextPage. destruct (pagination (board c)) as [pg|]; [|exact Hg].
    destruct (pg_total_pages pg <=? page (view (board c))); [exact Hg|].
    apply guarded_rerender; [exact Hg|reflexivity|reflexivity].
  - apply guarded_rerender; [exact Hg|reflexivity|reflexivity].
  - now apply guarded_settle.
Qed.

Lemma guarded_run (evs : list Event) (c : Controller) :
  guarded c -> guarded (run evs c).
Proof.
  revert c. induction evs as [|ev evs IH]; intros c Hg; [exact Hg|].
  apply IH, guarded_handle, Hg.
Qed.

Lemma guarded_mounted (m : Method) : guarded (mounted m).
Proof. apply guarded_startEffect. discriminate. Qed.

(** X19: on the burst page only the answer to the query of the state shown
    can change the table.  Whatever the user does and in whatever order the
    answers arrive, the newest run of the leaderboard effect sent the query
    of the filters, window, order and page now shown, and every older run
    is cancelled: an answer to an older run changes nothing, failed or not,
    and the answer to the newest run, while the page shows that it loads,
    puts its rows and its pagination on the page and ends the loading. *)
Theorem burst_table_answers_current_query (m : Method) (evs : list Event) :
  let c := run evs (mounted m) in
  guarded c
  /\ (forall i res, i <> 0%nat -> board (settle i res c) = board c)
  /\ (forall r, loading (board c) = true ->
        let b' := board (settle 0 (Some r) c) in
        data b' = mapped r /\ pagination b' = Some (res_pagination r)
        /\ loading b' = false /\ view b' = view (board c)).
Proof.
  intros c.
  assert (Hg : guarded c) by apply guarded_run, guarded_mounted.
  split; [exact Hg|]. split.
  - intros i res Hi. now apply settle_older.
  - intros r Hload. destruct Hg as (e & older & He & Hc & _ & Hl & _).
    unfold settle. rewrite He. cbn [lookup list_lookup].
    rewrite <- Hl, Hload, Hc. cbn [board data pagination loading view].
    now repeat split.
Qed.


(** ** The pages asked for *)

Lemma asksFromOne_startEffect (c : Controller) :
  1 <= page (view (board c)) -> Forall asksFromOne (effects c) ->
  1 <= page (view (board (startEffect c)))
  /\ Forall asksFromOne (effects (startEffect c)).
Proof.
  intros Hp Hall. unfold startEffect. cbn [board effects view].
  split; [exact Hp|]. constructor.
  - unfold asksFromOne. cbn [query]. now split.
  - unfold cleanup. destruct Hall as [|e older He Hall]; constructor;
      assumption.
Qed.

Lemma asksFromOne_rerender (fresh : bool) (b' : Board) (c : Controller) :
  1 <= page (view b') -> Forall asksFromOne (effects c) ->
  1 <= page (view (board (rerender fresh b' c)))
  /\ Forall asksFromOne (effects (rerender fresh b' c)).
Proof.
  intros Hp Hall. unfold rerender.
  destruct (fresh || negb (sameDeps (board c) b')).
  - now apply asksFromOne_startEffect.
  - now split.
Qed.

Lemma asksFromOne_handle (c : Controller) (ev : Event) :
  1 <= page (view (board c)) -> Forall asksFromOne (effects c) ->
  1 <= page (view (board (handle c ev)))
  /\ Forall asksFromOne (effects (handle c ev)).
Proof.
  intros Hp Hall. destruct ev as [f|next s e|s e| | |m|i res]; cbn [handle].
  - apply asksFromOne_rerender; [|exact Hall]. cbn [view withView].
    unfold handleSortChange.
    destruct (SortField_eqb f (sortBy (view (board c)))); simpl; lia.
  - apply asksFromOne_rerender; [|exact Hall]. simpl. lia.
  - apply asksFromOne_rerender; [|exact Hall]. simpl. lia.
  - unfold onPrevPage. destruct (pagination (board c)); [|now split].
    destruct (page (view (board c)) <=? 1); [now split|].
    apply asksFromOne_rerender; [|exact Hall]. simpl. lia.
  - unfold onNextPage. destruct (pagination (board c)) as [pg|]; [|now split].
    destruct (pg_total_pages pg <=? page (view (board c))) eqn:Hle;
      [now split|].
    apply Z.leb_gt in Hle.
    apply asksFromOne_rerender; [|exact Hall]. simpl. lia.
  - apply asksFromOne_rerender; [|exact Hall]. exact Hp.
  - unfold settle. destruct (effects c !! i) as [o|] eqn:Ho; [|now split].
    destruct (awaited o); [|now split].
    assert (Hnew : Forall asksFromOne
                     (<[i := {| query := query o; cancelled := cancelled o;
                                awaited := false |}]> (effects c))).
    { apply Forall_insert; [exact Hall|].
      rewrite List.Forall_forall in Hall. apply (Hall o).
      apply list_elem_of_In. eapply list_elem_of_lookup_2. exact Ho. }
    destruct (cancelled o); [now split|]. destruct res; now split.
Qed.

(** X20: the burst page never asks for a page before the first.  Whatever
    the user does, the page number it holds is at least 1 and every query
    sent asked for 50 rows of a page from 1 on: the pager buttons are dead
    where a step would leave the pages the server reported. *)
Theorem burst_pages_start_at_one (m : Method) (evs : list Event) :
  let c := run evs (mounted m) in
  1 <= page (view (board c)) /\ Forall asksFromOne (effects c)
  /\ (forall pg, pagination (board c) = Some pg ->
        page (view (board c)) < pg_total_pages pg ->
        page (view (board (handle c NextPage))) = page (view (board c)) + 1)
  /\ (1 < page (view (board c)) -> pagination (board c) <> None ->
        page (view (board (handle c PrevPage))) = page (view (board c)) - 1).
Proof.
  intros c.
  assert (Hgen : forall c0, 1 <= page (view (board c0)) ->
            Forall asksFromOne (effects c0) ->
            1 <= page (view (board (run evs c0)))
            /\ Forall asksFromOne (effects (run evs c0))).
  { induction evs as [|ev evs IH]; intros c0 Hp Hall; [now split|].
    destruct (asksFromOne_handle c0 ev Hp Hall) as [Hp' Hall'].
    now apply IH. }
  destruct (Hgen (mounted m)) as [Hp Hall].
  { simpl. lia. }
  { constructor; [|constructor]. unfold asksFromOne. simpl.
    split; [lia|reflexivity]. }
  fold c in Hp, Hall. split; [exact Hp|]. split; [exact Hall|]. split.
  - intros pg Hpg Hlt. cbn [handle]. unfold onNextPage. rewrite Hpg.
    destruct (pg_total_pages pg <=? page (view (board c))) eqn:Hle.
    { apply Z.leb_le in Hle. lia. }
    unfold rerender.
    match goal with |- context [if ?b then _ else _] => destruct b end;
      simpl; lia.
  - intros Hlt Hpg. cbn [handle]. unfold onPrevPage.
    destruct (pagination (board c)); [|contradiction].
    destruct (page (view (board c)) <=? 1) eqn:Hle.
    { apply Z.leb_le in Hle. lia. }
    unfold rerender.
    match goal with |- context [if ?b then _ else _] => destruct b end;
      simpl; lia.
Qed.

Lemma SortField_eqb_refl (f : SortField) : SortField_eqb f f = true.
Proof. now destruct f. Qed.

Lemma sameDeps_refl_but_view (b : Board) (s : State) :
  page s = page (view b) -> sortOrder s = sortOrder (view b) ->
  start s = start (view b) -> end_ s = end_ (view b) ->
  sameDeps b (withView s b) = true.
Proof.
  intros Hp Ho Hs He. unfold sameDeps. cbn [currentMethod view withView].
  rewrite Hp, Ho, Hs, He, Z.eqb_refl.
  assert (Ht : forall t, text_eqb t t = true).
  { intros [t|]; [apply String.eqb_refl|reflexivity]. }
  rewrite !Ht. now destruct (currentMethod b), (sortOrder (view b)).
Qed.

(** X21: the sort field of the burst page is no part of its query.  A click
    on another column, on page 1 and with the order that column starts with
    already set, makes the table show that column as the sort field, yet no
    query is sent and the rows stay. *)
Theorem sort_field_is_not_sent (c : Controller) (f : SortField) :
  SortField_eqb f (sortBy (view (board c))) = false ->
  sortOrder (view (board c)) = (if SortField_eqb f ngram then asc else desc) ->
  page (view (board c)) = 1 ->
  let c' := handle c (SortChange f) in
  sortBy (view (board c')) = f
  /\ effects c' = effects c
  /\ data (board c') = data (board c)
  /\ queryParams (currentMethod (board c')) (view (board c'))
     = queryParams (currentMethod (board c)) (view (board c)).
Proof.
  intros Hf Ho Hp. cbv zeta. cbn [handle]. unfold rerender.
  assert (Hs : handleSortChange f (view (board c))
               = {| filters := filters (view (board c));
                    start := start (view (board c));
                    end_ := end_ (view (board c)); sortBy := f;
                    sortOrder := sortOrder (view (board c));
                    page := page (view (board c)) |}).
  { unfold handleSortChange. rewrite Hf, Ho, Hp. reflexivity. }
  rewrite Hs.
  rewrite sameDeps_refl_but_view by reflexivity.
  cbn [orb negb board effects view withView data sortBy].
  repeat split; reflexivity.
Qed.

Lemma sort_field_is_not_sent_witness :
  let c := mounted kleinberg in
  let c' := handle c (SortChange score) in
  sortBy (view (board c')) = score /\ effects c' = effects c.
Proof.
  destruct (sort_field_is_not_sent (mounted kleinberg) score)
    as (H1 & H2 & _).
  - reflexivity.
  - reflexivity.
  - reflexivity.
  - exact (conj H1 H2).
Defined.

(** ** The ranks of the rows *)

Lemma ranks_of_page (res : Response) :
  item_rank <$> mapped res
  = seqZ ((pg_page (res_pagination res) - 1) * pg_page_size (res_pagination res) + 1)
         (Z.of_nat (length (default [] (res_data res)))).
Proof.
  unfold mapped. set (pg := res_pagination res).
  set (rows := default [] (res_data res)).
  rewrite fmap_imap.
  rewrite (imap_ext _ (fun j _ =>
             (pg_page pg - 1) * pg_page_size pg + (Z.of_nat j + 1)))
    by reflexivity.
  rewrite imap_seq_0. unfold seqZ. rewrite Nat2Z.id.
  apply list_fmap_ext. intros i x _. lia.
Qed.

(** X22: the ranks the burst page computes number the rows of a page one
    by one from [(page - 1) * page_size + 1], so that behind a full page the
    next page goes on where it ended: no rank is given twice and none is
    left out. *)
Theorem ranks_continue_across_pages (r1 r2 : Response) (rows1 : list BurstBackendRow) :
  res_data r1 = Some rows1 ->
  Z.of_nat (length rows1) = pg_page_size (res_pagination r1) ->
  pg_page_size (res_pagination r2) = pg_page_size (res_pagination r1) ->
  pg_page (res_pagination r2) = pg_page (res_pagination r1) + 1 ->
  item_rank <$> (mapped r1 ++ mapped r2)
  = seqZ ((pg_page (res_pagination r1) - 1) * pg_page_size (res_pagination r1) + 1)
         (Z.of_nat (length rows1 + length (default [] (res_data r2)))).
Proof.
  intros Hd Hfull Hsize Hpage.
  rewrite fmap_app, !ranks_of_page, Hd. cbn [default]. unfold id.
  rewrite Nat2Z.inj_add, seqZ_app by lia.
  f_equal. rewrite Hsize, Hpage. f_equal. lia.
Qed.


Lemma ranks_continue_across_pages_witness :
  item_rank <$> (mapped BurstSample.firstPage ++ mapped BurstSample.secondPage)
  = [1; 2; 3; 4].
Proof.
  apply (ranks_continue_across_pages BurstSample.firstPage
           BurstSample.secondPage
           [BurstSample.burstRow 31 "dark matter" 100;
            BurstSample.burstRow 32 "gene drive" 80]).
  - reflexivity.
  - reflexivity.
  - reflexivity.
  - reflexivity.
Defined.

End BurstMore.


(** * The selects of the filter panel *)

Section PanelMore.
Import NgramFilterPanel FilterSelects.

Lemma find_In_some {A} (pred : A -> bool) (l : list A) (x : A) :
  In x l -> pred x = true ->
  exists y, List.find pred l = Some y /\ In y l /\ pred y = true.
Proof.
  intros Hin Hx. destruct (List.find pred l) as [y|] eqn:Hf.
  - exists y. split; [reflexivity|]. now apply List.find_some in Hf.
  - apply (List.find_none _ _ Hf) in Hin. congruence.
Qed.

Lemma idIs_Some (v : option Z) (i : Z) : idIs v i = true <-> v = Some i.
Proof.
  destruct v as [z|]; simpl; [|split; discriminate].
  rewrite Z.eqb_eq. split; congruence.
Qed.

Lemma find_idIs_None {A} (proj : A -> Z) (l : list A) :
  List.find (fun x => idIs None (proj x)) l = None.
Proof. induction l; simpl; auto. Qed.

(** A flat subfield comes from a flat field of its field id and domain. *)
Lemma flattenSubfields_parent (fields : list FlatField) (s : FlatSubfield) :
  In s (flattenSubfields fields) ->
  exists f, In f fields /\ ff_id f = fs_field_id s
            /\ ff_domain_id f = fs_domain_id s.
Proof.
  unfold flattenSubfields. intros Hin. apply in_flat_map in Hin as (f & Hf & Hs).
  apply in_map_iff in Hs as (sub & <- & _). exists f. now repeat split.
Qed.

Lemma driven_reachable data p : driven data p -> reachable data p.
Proof. induction 1; constructor; assumption. Qed.

Lemma tracked_cleared (f : FilterState) (p : Panel) :
  tracked p -> tracked (update f false None p).
Proof.
  intros (Hflat & _ & _). unfold tracked. cbn.
  split; [exact Hflat|]. split.
  - split; [discriminate|]. intros [x Hx]. discriminate.
  - discriminate.
Qed.

Lemma falsy_not_chosen (v : option Z) (i : Z) :
  truthyId v = false -> v = Some i -> i = 0.
Proof.
  intros Hf ->. simpl in Hf. apply negb_false_iff in Hf.
  now apply Z.eqb_eq in Hf.
Qed.

Lemma onFieldChange_kept (p : Panel) (val : option Z) :
  tracked p -> coherent p -> offered p (FieldChange val) ->
  tracked (onFieldChange val p) /\ coherent (onFieldChange val p).
Proof.
  intros Ht Hc Hoff. pose proof Ht as (Hflat & Hflag & Hinfo).
  unfold onFieldChange. destruct Hoff as [->|(f & Hf & ->)].
  - rewrite find_idIs_None.
    assert (Hres : forall q, q = update
              {| domainId := domainId (filters p); fieldId := None;
                 subfieldId := None; nWords := nWords (filters p);
                 ngram := ngram (filters p);
                 domainName := domainName (filters p); fieldName := None;
                 subfieldName := None |} false None p ->
              tracked q /\ coherent q).
    { intros q ->. split; [now apply tracked_cleared|].
      unfold coherent. cbn. split; [discriminate|]. intros _ j Hj.
      discriminate. }
    destruct (isSubfieldAmbiguous p), (ambiguousSubfieldInfo p);
      apply Hres; reflexivity.
  - pose proof Hf as Hvis. unfold visibleFields in Hf.
    apply List.filter_In in Hf as [Hall Hkeep].
    destruct (find_In_some (fun g => idIs (Some (ff_id f)) (ff_id g))
                (allFields p) f Hall) as (f' & Hfind & Hin' & Hid').
    { now apply idIs_Some. }
    apply idIs_Some in Hid'. injection Hid' as Hid'.
    rewrite Hfind.
    assert (Hplain : forall q, q = update
              {| domainId := Some (ff_domain_id f'); fieldId := Some (ff_id f);
                 subfieldId := None; nWords := nWords (filters p);
                 ngram := ngram (filters p);
                 domainName := Some (ff_domain_name f');
                 fieldName := Some (ff_name f'); subfieldName := None |}
              false None p ->
              tracked q /\ coherent q).
    { intros q ->. split; [now apply tracked_cleared|].
      unfold coherent. cbn. split.
      - intros i [= <-] _. exists f'. now repeat split.
      - intros _ j Hj. discriminate. }
    destruct (isSubfieldAmbiguous p) eqn:Hamb;
      [|destruct (ambiguousSubfieldInfo p); apply Hplain; reflexivity].
    destruct (ambiguousSubfieldInfo p) as [info|] eqn:Hi;
      [|apply Hplain; reflexivity].
    destruct (Hinfo info eq_refl) as (_ & _ & Hids).
    apply existsb_exists in Hkeep as (af & Haf & Heq). apply Z.eqb_eq in Heq.
    assert (Hsub : exists s, In s (allSubfields p)
                     /\ fs_name s = pendingName info
                     /\ fs_field_id s = ff_id f).
    { apply Hids. apply in_map_iff. exists af. now split. }
    destruct Hsub as (s & Hs & Hname & Hfield).
    destruct (find_In_some
                (fun s0 => (fs_field_id s0 =? ff_id f')
                           && String.eqb (fs_name s0) (pendingName info))
                (allSubfields p) s Hs) as (s' & Hfind' & Hs' & Hok).
    { rewrite Hfield, Hname, <- Hid', Z.eqb_refl, String.eqb_refl.
      reflexivity. }
    rewrite Hfind'. apply andb_true_iff in Hok as [Hok1 Hok2].
    apply Z.eqb_eq in Hok1. split; [now apply tracked_cleared|].
    unfold coherent. cbn. split.
    + intros i [= <-] _. exists f'. now repeat split.
    + intros _ j [= <-]. exists s'. repeat split; [exact Hs'|]. congruence.
Qed.

Lemma onSubfieldChange_kept (p : Panel) (val : option Z) :
  tracked p -> coherent p -> offered p (SubfieldChange val) ->
  tracked (onSubfieldChange val p) /\ coherent (onSubfieldChange val p).
Proof.
  intros Ht Hc Hoff. pose proof Ht as (Hflat & Hflag & Hinfo).
  destruct Hc as (Hc1 & Hc2).
  unfold onSubfieldChange. destruct Hoff as [->|(s & Hs & ->)].
  - rewrite find_idIs_None. split; [now apply tracked_cleared|].
    unfold coherent. cbn. split; [exact Hc1|]. intros _ j Hj. discriminate.
  - unfold visibleSubfields in Hs. apply List.filter_In in Hs as [Hall _].
    destruct (find_In_some (fun t => idIs (Some (fs_id s)) (fs_id t))
                (allSubfields p) s Hall) as (sel & Hfind & Hin & Hid).
    { now apply idIs_Some. }
    apply idIs_Some in Hid. injection Hid as Hid. rewrite Hfind.
    set (same := List.filter (fun t => String.eqb (fs_name t) (fs_name sel))
                   (allSubfields p)).
    destruct ((1 <? length same)%nat && negb (truthyId (fieldId (filters p))))
      eqn:Hamb.
    + apply andb_true_iff in Hamb as [_ Hnone].
      apply negb_true_iff in Hnone. split.
      * unfold tracked. cbn. split; [exact Hflat|]. split.
        { split; [intros _; now eexists|reflexivity]. }
        intros info [= <-]. cbn. split; [exact Hnone|]. split.
        { exists sel. now split. }
        intros fid.
        destruct (firstById_ids (map candidateOf same)) as [_ Hids].
        rewrite Hids, map_map. cbn. rewrite in_map_iff. split.
        -- intros (t & <- & Hin'). unfold same in Hin'.
           apply List.filter_In in Hin' as [Hin' Hn].
           apply String.eqb_eq in Hn. exists t. now repeat split.
        -- intros (t & Hin' & Hn & <-). exists t. split; [reflexivity|].
           unfold same. apply List.filter_In. split; [exact Hin'|].
           now apply String.eqb_eq.
      * unfold coherent. cbn. split; [|discriminate].
        intros i Hi Hne. contradiction Hne.
        now apply (falsy_not_chosen (fieldId (filters p))).
    + split; [now apply tracked_cleared|]. unfold coherent. cbn. split.
      * intros i [= <-] _. rewrite Hflat in Hin.
        destruct (flattenSubfields_parent _ _ Hin) as (f & Hf & Hfid & Hdom).
        exists f. repeat split; [exact Hf|exact Hfid|congruence].
      * intros _ j [= <-]. exists sel. now repeat split.
Qed.

Lemma driven_kept data p : driven data p -> tracked p /\ coherent p.
Proof.
  induction 1 as [tp tc st e|p ev Hdr [Ht Hc] Hoff].
  - split.
    + unfold tracked. cbn. split; [reflexivity|]. split.
      * split; [discriminate|]. intros [x Hx]. discriminate.
      * discriminate.
    + unfold coherent. cbn. split; [discriminate|]. intros _ j Hj.
      discriminate.
  - destruct ev as [val|val|val|val| |]; cbn [handle fst].
    + split; [now apply tracked_cleared|]. unfold coherent. cbn.
      split; [discriminate|]. intros _ j Hj. discriminate.
    + now apply onFieldChange_kept.
    + now apply onSubfieldChange_kept.
    + split; [exact Ht|exact Hc].
    + split.
      * destruct Ht as (Hflat & _). unfold tracked. cbn.
        split; [exact Hflat|]. split.
        -- split; [discriminate|]. intros [x Hx]. discriminate.
        -- discriminate.
      * unfold coherent. cbn. split; [discriminate|]. intros _ j Hj.
        discriminate.
    + split; [exact Ht|exact Hc].
Qed.

(** X23: as long as the selects report only the options they show, the
    filters of the panel stay inside the taxonomy: the field chosen is a
    field of the domain chosen, and the subfield chosen is a subfield of the
    field chosen unless it still waits for its field.  The filters the panel
    hands to the page on Apply are never waiting, so the subfield they name
    lies in the field they name. *)
Theorem selects_keep_filters_coherent (data : list Domain) (p : Panel) :
  driven data p ->
  coherent p
  /\ forall f, In (OnFilterChange f) (applyFilters p) ->
       f = filters p
       /\ forall j, subfieldId f = Some j ->
            exists s, In s (allSubfields p) /\ fs_id s = j
                      /\ fieldId f = Some (fs_field_id s).
Proof.
  intros Hdr. destruct (driven_kept data p Hdr) as [_ Hc].
  split; [exact Hc|]. intros f Hin. unfold applyFilters in Hin.
  destruct (isSubfieldAmbiguous p) eqn:Hamb; [contradiction|].
  destruct Hin as [Hin|Hin].
  - injection Hin as <-. split; [reflexivity|]. now apply Hc.
  - destruct (showTimePicker p && onTimeChange p); [|contradiction].
    destruct Hin as [Hin|[]]. discriminate.
Qed.


Lemma selects_keep_filters_coherent_witness :
  coherent
    (fst (handle (fst (handle Sample.panel (SubfieldChange (Some 100))))
            (FieldChange (Some 20)))).
Proof.
  apply (proj1 (selects_keep_filters_coherent Sample.hierarchy _
                  (driven_handle Sample.hierarchy _ (FieldChange (Some 20))
                     (driven_handle Sample.hierarchy _
                        (SubfieldChange (Some 100))
                        (driven_loaded Sample.hierarchy true true None None)
                        (or_intror
                           (ex_intro _ Sample.biologyTheory
                              (conj (or_introl eq_refl) eq_refl))))
                     (or_intror
                        (ex_intro _ Sample.physics
                           (conj (or_intror (or_introl eq_refl)) eq_refl)))))).
Defined.

(** X24: a subfield that waits for its field can always be resolved.  While
    the panel holds an ambiguous subfield the field select offers at least
    one field, and choosing any field it offers ends the ambiguity: the
    panel then holds that field and the subfield of the pending name inside
    it, and Apply hands the filters to the page again. *)
Theorem ambiguity_can_be_resolved (data : list Domain) (p : Panel) :
  driven data p -> isSubfieldAmbiguous p = true ->
  visibleFields p <> []
  /\ forall f, In f (visibleFields p) ->
       let p' := onFieldChange (Some (ff_id f)) p in
       isSubfieldAmbiguous p' = false
       /\ fieldId (filters p') = Some (ff_id f)
       /\ (exists s, In s (allSubfields p)
             /\ subfieldId (filters p') = Some (fs_id s)
             /\ fs_field_id s = ff_id f
             /\ subfieldName (filters p) = Some (fs_name s)
             /\ subfieldName (filters p') = Some (fs_name s))
       /\ exists rest, applyFilters p' = OnFilterChange (filters p') :: rest.
Proof.
  intros Hdr Hamb.
  destruct (driven_kept data p Hdr) as [(Hflat & Hflag & Hinfo) _].
  destruct (proj1 Hflag Hamb) as [info Hi].
  destruct (Hinfo info Hi) as (_ & (s0 & Hs0 & Hn0) & Hids).
  destruct (reachable_ambiguous_shape data p (driven_reachable data p Hdr))
    as (_ & Hshape).
  destruct (Hshape info Hi) as (_ & Hpending).
  assert (Hvis : forall f, In f (visibleFields p) <->
            In f (allFields p)
            /\ In (ff_id f) (map cand_id (availableFields info))).
  { intros f. unfold visibleFields. rewrite List.filter_In, Hamb, Hi.
    rewrite existsb_exists, in_map_iff. split.
    - intros (Hin & af & Haf & Heq). apply Z.eqb_eq in Heq. split; [exact Hin|].
      exists af. now split.
    - intros (Hin & af & Heq & Haf). split; [exact Hin|]. exists af.
      split; [exact Haf|]. now apply Z.eqb_eq. }
  split.
  - rewrite Hflat in Hs0.
    destruct (flattenSubfields_parent _ _ Hs0) as (f & Hf & Hfid & _).
    assert (Hin : In f (visibleFields p)).
    { apply Hvis. split; [exact Hf|]. apply Hids. exists s0.
      rewrite Hflat. now repeat split. }
    intros Hnil. rewrite Hnil in Hin. contradiction.
  - intros f Hf p'. subst p'. apply Hvis in Hf as [Hall Hcand].
    apply Hids in Hcand as (s & Hs & Hname & Hfield).
    destruct (find_In_some (fun g => idIs (Some (ff_id f)) (ff_id g))
                (allFields p) f Hall) as (f' & Hfind & Hin' & Hid').
    { now apply idIs_Some. }
    apply idIs_Some in Hid'. injection Hid' as Hid'.
    destruct (find_In_some
                (fun s1 => (fs_field_id s1 =? ff_id f')
                           && String.eqb (fs_name s1) (pendingName info))
                (allSubfields p) s Hs) as (s' & Hfind' & Hs' & Hok).
    { rewrite Hfield, Hname, <- Hid', Z.eqb_refl, String.eqb_refl.
      reflexivity. }
    apply andb_true_iff in Hok as [Hok1 Hok2].
    apply Z.eqb_eq in Hok1. apply String.eqb_eq in Hok2.
    unfold onFieldChange. rewrite Hamb, Hi, Hfind, Hfind'. cbn.
    split; [reflexivity|]. split; [reflexivity|]. split.
    + exists s'. repeat split; try assumption; congruence.
    + unfold applyFilters. cbn. eexists. reflexivity.
Qed.

Lemma ambiguity_can_be_resolved_witness :
  visibleFields Sample.ambiguousPanel <> [].
Proof.
  apply (proj1 (ambiguity_can_be_resolved Sample.hierarchy
                  Sample.ambiguousPanel
                  (driven_handle Sample.hierarchy _
                     (SubfieldChange (Some 100))
                     (driven_loaded Sample.hierarchy true true None None)
                     (or_intror
                        (ex_intro _ Sample.biologyTheory
                           (conj (or_introl eq_refl) eq_refl))))
                  eq_refl)).
Defined.

(** X29: Reset followed by Apply clears the query of the page.  Reset ends
    an ambiguity, so Apply is not blocked; the filters handed over are the
    empty ones, with an empty window where the panel shows the time picker;
    the burst page then asks for page 1 with no taxonomy id, length, text
    or window, and the dashboard builds its request with none of them. *)
Theorem reset_then_apply_clears_query (p : Panel) :
  let p' := resetFilters p in
  applyFilters p'
  = OnFilterChange noFilters
    :: (if showTimePicker p && onTimeChange p
        then [OnTimeChange None None] else [])
  /\ (forall method s,
        showTimePicker p = true -> onTimeChange p = true ->
        parentAfter method (applyFilters p') s
        = (BurstPage.handleTimeChange None None
             (BurstPage.handleFilterChange noFilters s),
           [ {| BurstPage.param_method := method; BurstPage.param_page := 1;
                BurstPage.param_page_size := 50;
                BurstPage.param_sort_order := BurstPage.sortOrder s;
                BurstPage.param_subfield_id := None;
                BurstPage.param_field_id := None;
                BurstPage.param_domain_id := None;
                BurstPage.param_n_words := None;
                BurstPage.param_ngram_text := None;
                BurstPage.param_start := None;
                BurstPage.param_end := None |} ]))
  /\ (forall s pageArg,
        FrequencyDashboardPage.buildParams
          (FrequencyDashboardPage.handleFilterChange (filters p') s) pageArg
        = {| FrequencyDashboardPage.param_page := pageArg;
             FrequencyDashboardPage.param_page_size := 100;
             FrequencyDashboardPage.param_sort_by :=
               FrequencyDashboardPage.sortBy s;
             FrequencyDashboardPage.param_sort_order :=
               FrequencyDashboardPage.sortOrder s;
             FrequencyDashboardPage.param_subfield_id := None;
             FrequencyDashboardPage.param_field_id := None;
             FrequencyDashboardPage.param_domain_id := None;
             FrequencyDashboardPage.param_n_words := None;
             FrequencyDashboardPage.param_ngram_text := None |}).
Proof.
  cbv zeta. split; [|split].
  - unfold applyFilters, resetFilters. cbn.
    now destruct (showTimePicker p), (onTimeChange p).
  - intros method s Ht Hc. unfold applyFilters, resetFilters. cbn.
    rewrite Ht, Hc. reflexivity.
  - intros s pageArg. reflexivity.
Qed.

Lemma reset_then_apply_clears_query_witness :
  fst (parentAfter BurstPage.macd
         (applyFilters (resetFilters Sample.ambiguousPanel)) BurstPage.initial)
  = BurstPage.handleTimeChange None None
      (BurstPage.handleFilterChange noFilters BurstPage.initial).
Proof.
  rewrite (proj1 (proj2 (reset_then_apply_clears_query Sample.ambiguousPanel))
             BurstPage.macd BurstPage.initial eq_refl eq_refl).
  reflexivity.
Defined.

End PanelMore.


(** * The slider page *)

Section SliderMore.
Import SliderVotingPage.

Lemma submitFrom_all (u : StoredUser) (values : gmap Z Q)
    (accepted : nat -> bool) (k : nat) (items : list SliderItem) :
  (forall i, (i < length items)%nat -> accepted (k + i)%nat = true) ->
  submitFrom u values accepted k items = (map (voteOf u values) items, true).
Proof.
  revert k. induction items as [|item rest IH]; intros k Hall; [reflexivity|].
  cbn [submitFrom]. specialize (Hall 0%nat ltac:(simpl; lia)) as H0.
  rewrite Nat.add_0_r in H0. rewrite H0, IH; [reflexivity|].
  intros i Hi. replace (S k + i)%nat with (k + S i)%nat by lia.
  apply Hall. simpl. lia.
Qed.

Lemma submitFrom_stops (u : StoredUser) (values : gmap Z Q)
    (accepted : nat -> bool) (k n : nat) (items : list SliderItem) :
  (n < length items)%nat ->
  (forall i, (i < n)%nat -> accepted (k + i)%nat = true) ->
  accepted (k + n)%nat = false ->
  submitFrom u values accepted k items
  = (map (voteOf u values) (take (S n) items), false).
Proof.
  revert k n. induction items as [|item rest IH]; intros k n Hn Hbefore Hrej.
  - simpl in Hn. lia.
  - cbn [submitFrom]. destruct n as [|n].
    + rewrite Nat.add_0_r in Hrej. rewrite Hrej. reflexivity.
    + specialize (Hbefore 0%nat ltac:(lia)) as H0.
      rewrite Nat.add_0_r in H0. rewrite H0.
      rewrite (IH (S k) n); [reflexivity|simpl in Hn; lia| |].
      * intros i Hi. replace (S k + i)%nat with (k + S i)%nat by lia.
        apply Hbefore. lia.
      * now replace (S k + n)%nat with (k + S n)%nat by lia.
Qed.

Lemma map_take_comm {A B} (f : A -> B) (n : nat) (l : list A) :
  map f (take n l) = take n (map f l).
Proof. revert n. induction l; intros [|n]; simpl; congruence. Qed.

(** X25: Submit All sends one vote for each item shown, in the order shown,
    and marks the page as submitted only when every call was fulfilled.  A
    rejected call ends the loop: the votes sent before it stay sent, the
    items after it are not sent, and the page stays open; pressing the
    button again sends the votes of all items from the first one on, those
    already accepted included. *)
Theorem submit_all_stops_at_first_rejection (w : Page) (u : StoredUser)
    (accepted : nat -> bool) (n : nat) :
  user w = Some u -> (n < length (sliderData w))%nat ->
  (forall i, (i < n)%nat -> accepted i = true) -> accepted n = false ->
  let votes := map (voteOf u (sliderValues w)) (sliderData w) in
  handleSubmitAll accepted w = (w, take (S n) votes)
  /\ forall again, (forall i, again i = true) ->
       snd (handleSubmitAll again (fst (handleSubmitAll accepted w))) = votes
       /\ submitted (fst (handleSubmitAll again
                            (fst (handleSubmitAll accepted w)))) = true.
Proof.
  intros Hu Hn Hbefore Hrej votes.
  assert (Hfirst : handleSubmitAll accepted w = (w, take (S n) votes)).
  { unfold handleSubmitAll. rewrite Hu.
    rewrite (submitFrom_stops u _ accepted 0 n); [|exact Hn|exact Hbefore|exact Hrej].
    subst votes. now rewrite map_take_comm. }
  split; [exact Hfirst|]. intros again Hall. rewrite Hfirst. cbn [fst].
  unfold handleSubmitAll. rewrite Hu, submitFrom_all by (intros; apply Hall).
  split; reflexivity.
Qed.


Lemma submit_all_stops_at_first_rejection_witness :
  snd (handleSubmitAll SliderSample.secondFails SliderSample.opened)
  = [ {| vote_user_id := 7; ngram_id := 41; slider_value := 0 |};
      {| vote_user_id := 7; ngram_id := 42; slider_value := 55 |} ]
  /\ submitted (fst (handleSubmitAll SliderSample.secondFails
                       SliderSample.opened)) = false.
Proof.
  destruct (submit_all_stops_at_first_rejection SliderSample.opened
              SliderSample.rater SliderSample.secondFails 1) as [H _].
  - reflexivity.
  - simpl. lia.
  - intros i Hi. destruct i as [|i]; [reflexivity|lia].
  - reflexivity.
  - rewrite H. split; reflexivity.
Defined.

Lemma initialSliderValues_lookup (saved : gmap Z Q) (data : list SliderItem)
    (acc : gmap Z Q) (i : Z) :
  fold_left (fun acc item => <[id item := default 0%Q (saved !! id item)]> acc)
    data acc !! i
  = if existsb (fun item => id item =? i) data
    then Some (default 0%Q (saved !! i)) else acc !! i.
Proof.
  revert acc. induction data as [|item rest IH]; intros acc; [reflexivity|].
  cbn [fold_left existsb]. rewrite IH.
  destruct (existsb (fun item0 => id item0 =? i) rest).
  - now rewrite orb_true_r.
  - rewrite orb_false_r. destruct (id item =? i) eqn:He.
    + apply Z.eqb_eq in He. subst i. now rewrite lookup_insert_eq.
    + apply Z.eqb_neq in He. now rewrite lookup_insert_ne.
Qed.

(** X26: a rater who touches no slider submits the saved value of every item
    shown, and 0 where none was saved; and after one slider is moved every
    item of that id carries the new value while all others carry what they
    carried.  Every item shown has a value from the start, so no vote falls
    back to the default of the submit loop. *)
Theorem untouched_sliders_submit_saved_values (saved : gmap Z Q) (w : Page)
    (u : StoredUser) (accepted : nat -> bool) :
  user w = Some u ->
  sliderValues w = initialSliderValues saved (sliderData w) ->
  (forall k, accepted k = true) ->
  snd (handleSubmitAll accepted w)
  = map (fun item => {| vote_user_id := user_id u; ngram_id := id item;
                        slider_value := default 0%Q (saved !! id item) |})
      (sliderData w)
  /\ (forall item, In item (sliderData w) ->
        is_Some (sliderValues w !! id item))
  /\ forall i v,
       snd (handleSubmitAll accepted (setSliderValue i v w))
       = map (fun item =>
                {| vote_user_id := user_id u; ngram_id := id item;
                   slider_value := if id item =? i then v
                                   else default 0%Q (saved !! id item) |})
           (sliderData w).
Proof.
  intros Hu Hv Hall.
  assert (Hlook : forall item, In item (sliderData w) ->
            sliderValues w !! id item
            = Some (default 0%Q (saved !! id item))).
  { intros item Hin. rewrite Hv. unfold initialSliderValues.
    rewrite initialSliderValues_lookup.
    replace (existsb _ (sliderData w)) with true; [reflexivity|].
    symmetry. apply existsb_exists. exists item.
    split; [exact Hin|apply Z.eqb_refl]. }
  split; [|split].
  - unfold handleSubmitAll. rewrite Hu, submitFrom_all by (intros; apply Hall).
    cbn [snd]. apply map_ext_in. intros item Hin. unfold voteOf.
    now rewrite (Hlook item Hin).
  - intros item Hin. rewrite (Hlook item Hin). now eexists.
  - intros i v. unfold handleSubmitAll. cbn [user setSliderValue].
    rewrite Hu, submitFrom_all by (intros; apply Hall).
    cbn [snd sliderData sliderValues]. apply map_ext_in. intros item Hin.
    unfold voteOf, setSliderValue. cbn [sliderValues].
    destruct (id item =? i) eqn:He.
    + apply Z.eqb_eq in He. subst i. now rewrite lookup_insert_eq.
    + apply Z.eqb_neq in He.
      rewrite lookup_insert_ne by congruence. now rewrite (Hlook item Hin).
Qed.

Lemma untouched_sliders_submit_saved_values_witness :
  snd (handleSubmitAll (fun _ => true) SliderSample.opened)
  = [ {| vote_user_id := 7; ngram_id := 41; slider_value := 0 |};
      {| vote_user_id := 7; ngram_id := 42; slider_value := 55 |};
      {| vote_user_id := 7; ngram_id := 43; slider_value := 0 |} ].
Proof.
  apply (proj1 (untouched_sliders_submit_saved_values SliderSample.saved
                  SliderSample.opened SliderSample.rater (fun _ => true)
                  eq_refl eq_refl (fun _ => eq_refl))).
Defined.

End SliderMore.


(** * The charts *)

Section ChartMore.
Import FrequencyChart.

Lemma ascii_compare_refl (c : ascii) : Ascii.compare c c = Eq.
Proof. unfold Ascii.compare. apply N.compare_refl. Qed.

Lemma string_compare_lt_trans (a b c : string) :
  String.compare a b = Lt -> String.compare b c = Lt -> String.compare a c = Lt.
Proof.
  revert b c. induction a as [|x a IH]; intros [|y b] [|z c]; simpl;
    try discriminate; try reflexivity.
  destruct (Ascii.compare x y) eqn:Hxy; try discriminate;
    destruct (Ascii.compare y z) eqn:Hyz; try discriminate.
  - apply Ascii.compare_eq_iff in Hxy, Hyz. subst y z.
    rewrite ascii_compare_refl. apply IH.
  - apply Ascii.compare_eq_iff in Hxy. subst y. now rewrite Hyz.
  - apply Ascii.compare_eq_iff in Hyz. subst z. now rewrite Hxy.
  - unfold Ascii.compare in *. rewrite N.compare_lt_iff in Hxy, Hyz.
    intros _ _.
    assert (H : (N_of_ascii x ?= N_of_ascii z)%N = Lt)
      by (apply N.compare_lt_iff; lia).
    now rewrite H.
Qed.

(** [a <= b] and [b < c] give [a < c]. *)
Lemma isoLT_down (a b c : string) :
  isoGTE b a = true -> isoLT b c = true -> isoLT a c = true.
Proof.
  unfold isoGTE, isoLT, String.ltb. rewrite (String.compare_antisym b a).
  destruct (String.compare a b) eqn:Hab; simpl; try discriminate; intros _.
  - apply String.compare_eq_iff in Hab. now subst b.
  - destruct (String.compare b c) eqn:Hbc; try discriminate. intros _.
    now rewrite (string_compare_lt_trans a b c Hab Hbc).
Qed.

(** On dates that never go down, the dates below a bound come first. *)
Lemma ascending_split (bound : string) (dates : list string) :
  ascending dates ->
  dates = List.filter (fun d => isoLT d bound) dates
          ++ List.filter (fun d => negb (isoLT d bound)) dates.
Proof.
  induction 1 as [|d rest Hsorted IH Hall]; [reflexivity|]. simpl.
  destruct (isoLT d bound) eqn:Hd; simpl.
  - now rewrite <- IH.
  - assert (Hnone : List.filter (fun d0 => isoLT d0 bound) rest = []).
    { clear IH Hsorted. induction Hall as [|x rest Hx _ IHr]; [reflexivity|].
      simpl. destruct (isoLT x bound) eqn:Hxb; [|exact IHr].
      rewrite (isoLT_down d x bound Hx Hxb) in Hd. discriminate. }
    rewrite Hnone in IH |- *. simpl in *. now rewrite <- IH.
Qed.

Lemma ascending_filter (keep : string -> bool) (dates : list string) :
  ascending dates -> ascending (List.filter keep dates).
Proof.
  induction 1 as [|d rest Hsorted IH Hall]; [constructor|]. simpl.
  destruct (keep d); [|exact IH]. constructor; [exact IH|].
  apply List.Forall_forall. intros x Hx. apply List.filter_In in Hx as [Hx _].
  rewrite List.Forall_forall in Hall. now apply Hall.
Qed.

Lemma filter_filter {A} (f g : A -> bool) (l : list A) :
  List.filter f (List.filter g l) = List.filter (fun x => g x && f x) l.
Proof.
  induction l as [|x l IH]; [reflexivity|]. simpl.
  destruct (g x); simpl; [destruct (f x)|]; now rewrite IH.
Qed.

Lemma Forall_filter_holds {A} (keep : A -> bool) (l : list A) :
  Forall (fun x => keep x = true) (List.filter keep l).
Proof.
  apply List.Forall_forall. intros x Hx. now apply List.filter_In in Hx.
Qed.

(** X27: the shaded window of a chart takes a date at or after the start
    and before the end, the end itself left out.  On dates that never go
    down the dates taken stand together: before them come only dates before
    the start and after them only dates at or after the end, so the band
    drawn from the first to the last date taken covers the dates of the
    window and no other. *)
Theorem band_covers_window (intervalStart intervalEnd : option string)
    (dates : list string) :
  ascending dates ->
  given intervalStart <> None \/ given intervalEnd <> None ->
  let taken := included intervalStart intervalEnd dates in
  Forall (fun d => inWindow intervalStart intervalEnd d = true) taken
  /\ (forall e, given intervalEnd = Some e -> ~ In e taken)
  /\ (exists before after,
        dates = before ++ taken ++ after
        /\ Forall (fun d => exists s, given intervalStart = Some s
                                      /\ isoLT d s = true) before
        /\ Forall (fun d => exists e, given intervalEnd = Some e
                                      /\ isoGTE d e = true) after)
  /\ (forall x1 x2, band intervalStart intervalEnd dates = Some (x1, x2) ->
        exists rest, taken = x1 :: rest /\ x2 = List.last rest x1).
Proof.
  intros Hasc Hgiven taken.
  assert (Htaken : taken = List.filter (inWindow intervalStart intervalEnd) dates).
  { subst taken. unfold included.
    destruct (given intervalStart), (given intervalEnd); try reflexivity.
    destruct Hgiven as [H|H]; now contradiction H. }
  split; [|split; [|split]].
  - rewrite Htaken. apply Forall_filter_holds.
  - intros e He Hin. rewrite Htaken in Hin.
    apply List.filter_In in Hin as [_ Hw]. unfold inWindow in Hw.
    rewrite He in Hw. apply andb_true_iff in Hw as [_ Hw].
    unfold isoLT, String.ltb in Hw.
    assert (Hrefl : String.compare e e = Eq).
    { clear. induction e as [|c e IH]; [reflexivity|]. simpl.
      now rewrite ascii_compare_refl. }
    rewrite Hrefl in Hw. discriminate.
  - rewrite Htaken. unfold inWindow.
    destruct (given intervalStart) as [s|] eqn:Hs;
      destruct (given intervalEnd) as [e|] eqn:He.
    + exists (List.filter (fun d => isoLT d s) dates),
             (List.filter (fun d => negb (isoLT d e))
                (List.filter (fun d => negb (isoLT d s)) dates)).
      split; [|split].
      * rewrite (ascending_split s dates Hasc) at 1. f_equal.
        rewrite (ascending_split e _
                   (ascending_filter (fun d => negb (isoLT d s)) dates Hasc))
          at 1.
        f_equal. now rewrite filter_filter.
      * eapply List.Forall_impl; [|apply Forall_filter_holds].
        intros d Hd. exists s. now split.
      * eapply List.Forall_impl; [|apply Forall_filter_holds].
        intros d Hd. exists e. now split.
    + exists (List.filter (fun d => isoLT d s) dates), [].
      split; [|split; [|constructor]].
      * rewrite app_nil_r. rewrite (ascending_split s dates Hasc) at 1.
        f_equal. apply List.filter_ext. intros d. unfold isoGTE.
        now rewrite andb_true_r.
      * eapply List.Forall_impl; [|apply Forall_filter_holds].
        intros d Hd. exists s. now split.
    + exists [], (List.filter (fun d => negb (isoLT d e)) dates).
      split; [|split; [constructor|]].
      * simpl. exact (ascending_split e dates Hasc).
      * eapply List.Forall_impl; [|apply Forall_filter_holds].
        intros d Hd. exists e. now split.
    + destruct Hgiven as [H|H]; now contradiction H.
  - intros x1 x2 Hband. unfold band in Hband. fold taken in Hband.
    destruct taken as [|y rest]; [discriminate|].
    destruct (nonEmpty y && nonEmpty (List.last rest y)); [|discriminate].
    injection Hband as <- <-. now exists rest.
Qed.


Lemma band_covers_window_witness :
  Forall (fun d => inWindow (Some "2020-04-01"%string)
                     (Some "2020-10-01"%string) d = true)
    (included (Some "2020-04-01"%string) (Some "2020-10-01"%string)
       ChartSample.quarters).
Proof.
  apply (proj1 (band_covers_window (Some "2020-04-01"%string)
                  (Some "2020-10-01"%string) ChartSample.quarters
                  ltac:(repeat constructor)
                  ltac:(left; discriminate))).
Defined.

(** ** The year ticks *)

Import YearTicks.

Lemma find_app_first {A} (f : A -> bool) (l1 l2 : list A) :
  List.find f (l1 ++ l2)
  = match List.find f l1 with Some x => Some x | None => List.find f l2 end.
Proof. induction l1 as [|x l1 IH]; simpl; [reflexivity|]. now destruct (f x). Qed.

Lemma seenOf_see (pre : list string) (t : Seen) (d : string) :
  seenOf pre t -> seenOf (pre ++ [d]) (see t d).
Proof.
  intros [Hfirst Hjan]. split.
  - intros y. unfold firstOfYear. rewrite find_app_first.
    fold (firstOfYear y pre). rewrite <- Hfirst. unfold see.
    cbn [byYearFirstSeen List.find].
    destruct (byYearFirstSeen t !! year d) as [x|] eqn:Hhas.
    + destruct (byYearFirstSeen t !! y) eqn:Hy; [reflexivity|].
      destruct (String.eqb (year d) y) eqn:He; [|reflexivity].
      apply String.eqb_eq in He. congruence.
    + destruct (String.eqb (year d) y) eqn:He.
      * apply String.eqb_eq in He. subst y.
        now rewrite lookup_insert_eq, Hhas.
      * apply String.eqb_neq in He. rewrite lookup_insert_ne by exact He.
        now destruct (byYearFirstSeen t !! y).
  - intros y. rewrite existsb_app. cbn [existsb]. rewrite orb_false_r.
    unfold see. cbn [jan1Candidates].
    specialize (Hjan y).
    destruct (String.eqb d (jan1Of (year d))) eqn:Hd.
    + destruct (String.eqb (year d) y) eqn:He.
      * apply String.eqb_eq in He. subst y.
        rewrite lookup_insert_eq, Hd. now rewrite orb_true_r.
      * apply String.eqb_neq in He. rewrite lookup_insert_ne by exact He.
        cbn [andb]. now rewrite orb_false_r.
    + destruct (String.eqb (year d) y) eqn:He.
      * apply String.eqb_eq in He. subst y. rewrite Hd. cbn [andb].
        now rewrite orb_false_r.
      * cbn [andb]. now rewrite orb_false_r.
Qed.

Lemma seenOf_fold (dates pre : list string) (t : Seen) :
  seenOf pre t -> seenOf (pre ++ dates) (fold_left see dates t).
Proof.
  revert pre t. induction dates as [|d dates IH]; intros pre t Hs.
  - now rewrite app_nil_r.
  - cbn [fold_left]. replace (pre ++ d :: dates) with ((pre ++ [d]) ++ dates)
      by now rewrite <- app_assoc.
    apply IH, seenOf_see, Hs.
Qed.

Lemma seenOf_all (dates : list string) :
  seenOf dates
    (fold_left see dates {| byYearFirstSeen := ∅; jan1Candidates := ∅ |}).
Proof.
  apply (seenOf_fold dates []). split; intros y; apply lookup_empty.
Qed.

Lemma string_compare_refl (s : string) : String.compare s s = Eq.
Proof.
  induction s as [|c s IH]; [reflexivity|]. simpl.
  now rewrite ascii_compare_refl.
Qed.

Lemma yearLe_trans (a b c : string) : yearLe a b -> yearLe b c -> yearLe a c.
Proof.
  unfold yearLe, String.leb.
  destruct (String.compare a b) eqn:Hab; try discriminate; intros _.
  - apply String.compare_eq_iff in Hab. now subst b.
  - destruct (String.compare b c) eqn:Hbc; try discriminate; intros _.
    + apply String.compare_eq_iff in Hbc. subst c. now rewrite Hab.
    + now rewrite (string_compare_lt_trans a b c Hab Hbc).
Qed.

Lemma yearLe_strict (a b : string) :
  yearLe a b -> a <> b -> isoLT a b = true.
Proof.
  unfold yearLe, isoLT, String.leb, String.ltb.
  destruct (String.compare a b) eqn:Hab; try discriminate; intros _ Hne.
  - apply String.compare_eq_iff in Hab. contradiction.
  - reflexivity.
Qed.


Lemma strictly_ascending (l : list string) :
  StronglySorted yearLe l -> NoDup l ->
  StronglySorted (fun a b => isoLT a b = true) l.
Proof.
  induction 1 as [|a rest Hsorted IH Hall]; intros Hnd; [constructor|].
  apply NoDup_cons in Hnd as [Hnotin Hnd]. constructor; [now apply IH|].
  apply List.Forall_forall. intros x Hx.
  rewrite List.Forall_forall in Hall. apply yearLe_strict; [now apply Hall|].
  intros ->. apply Hnotin. now apply list_elem_of_In.
Qed.

Lemma firstOfYear_Some (y d : string) (dates : list string) :
  firstOfYear y dates = Some d -> In d dates /\ year d = y.
Proof.
  unfold firstOfYear. intros H. apply List.find_some in H as [Hin He].
  now apply String.eqb_eq in He.
Qed.

(** X28: the year ticks of a chart are one date of the data for each year
    of the data, in the order of the years: the first of January of the year
    where the data has it, and else the first date of that year. *)
Theorem one_tick_per_year (dates : list string) :
  let ticks := buildYearTicks dates in
  StronglySorted (fun a b => isoLT a b = true) (map year ticks)
  /\ (forall d, In d dates -> In (year d) (map year ticks))
  /\ Forall (fun t =>
       In t dates
       /\ (t = jan1Of (year t)
           \/ (firstOfYear (year t) dates = Some t
               /\ Forall (fun d => year d = year t -> d <> jan1Of (year t))
                    dates))) ticks.
Proof.
  destruct dates as [|d0 rest].
  { simpl. split; [constructor|]. split; [|constructor]. intros d []. }
  remember (d0 :: rest) as dates eqn:Hdates.
  assert (Hne : dates <> []) by (rewrite Hdates; discriminate).
  clear Hdates d0 rest. intros ticks.
  set (t := fold_left see dates {| byYearFirstSeen := ∅; jan1Candidates := ∅ |}).
  destruct (seenOf_all dates) as [Hfirst Hjan]. fold t in Hfirst, Hjan.
  set (keys := map fst (map_to_list (byYearFirstSeen t))).
  set (years := merge_sort yearLe keys).
  set (tickOf := fun y =>
                   match jan1Candidates t !! y with
                   | Some jan1 => jan1
                   | None => default EmptyString (byYearFirstSeen t !! y)
                   end).
  assert (Hticks : ticks = map tickOf years).
  { subst ticks. unfold buildYearTicks. destruct dates; [|reflexivity].
    now contradiction Hne. }
  assert (Hperm : years ≡ₚ keys) by apply merge_sort_Permutation.
  assert (Hkeys : forall y, In y years <-> is_Some (firstOfYear y dates)).
  { intros y. rewrite <- list_elem_of_In, Hperm. subst keys.
    change (map fst (map_to_list (byYearFirstSeen t)))
      with ((map_to_list (byYearFirstSeen t)).*1).
    rewrite list_elem_of_fmap. rewrite <- Hfirst. split.
    - intros ([y' x] & -> & Hin). apply elem_of_map_to_list in Hin.
      exists x. exact Hin.
    - intros [x Hx]. exists (y, x). split; [reflexivity|].
      now apply elem_of_map_to_list. }
  assert (Htick : forall y, In y years ->
            In (tickOf y) dates /\ year (tickOf y) = y
            /\ (tickOf y = jan1Of y
                \/ (firstOfYear y dates = Some (tickOf y)
                    /\ Forall (fun d => year d = y -> d <> jan1Of y) dates))).
  { intros y Hy. apply Hkeys in Hy as [d Hd]. subst tickOf. cbn beta.
    rewrite Hjan, Hfirst, Hd.
    destruct (existsb _ dates) eqn:Hex.
    - apply existsb_exists in Hex as (x & Hx & Hok).
      apply andb_true_iff in Hok as [Hyr Heq].
      apply String.eqb_eq in Hyr, Heq. subst x.
      split; [exact Hx|]. split; [exact Hyr|]. now left.
    - destruct (firstOfYear_Some y d dates Hd) as [Hin Hyr]. cbn [default].
      unfold id. split; [exact Hin|]. split; [exact Hyr|]. right.
      split; [reflexivity|]. apply List.Forall_forall. intros x Hx Hxy ->.
      assert (Hc : existsb (fun d1 => String.eqb (year d1) y
                                      && String.eqb d1 (jan1Of y)) dates = true).
      { apply existsb_exists. exists (jan1Of y). split; [exact Hx|].
        apply andb_true_iff. split; now apply String.eqb_eq. }
      congruence. }
  assert (Hyears : map year ticks = years).
  { rewrite Hticks, map_map. rewrite <- (map_id years) at 2.
    apply map_ext_in. intros y Hy. now apply Htick. }
  split; [|split].
  - rewrite Hyears. apply strictly_ascending.
    + apply (@StronglySorted_merge_sort _ yearLe _).
      * intros a b c. apply yearLe_trans.
      * intros a b. apply String.leb_total.
    + rewrite Hperm. subst keys.
      change (map fst (map_to_list (byYearFirstSeen t)))
        with ((map_to_list (byYearFirstSeen t)).*1).
      apply NoDup_fst_map_to_list.
  - intros d Hd. rewrite Hyears. apply Hkeys. unfold firstOfYear.
    destruct (find_In_some (fun x => String.eqb (year x) (year d)) dates d Hd)
      as (x & Hx & _); [apply String.eqb_refl|].
    rewrite Hx. now eexists.
  - rewrite Hticks. apply List.Forall_forall. intros tk Htk.
    apply in_map_iff in Htk as (y & <- & Hy).
    destruct (Htick y Hy) as (Hin & Hyr & Hor). rewrite Hyr.
    split; [exact Hin|exact Hor].
Qed.

End ChartMore.
